(** * Gnosia: the host-authoritative game engine of [game-manager.js]

    A shallow embedding of the [GameManager] class.  The Firestore
    documents of one room are finite maps keyed by document id, the
    asynchronous methods are computations in a state-and-exception monad
    over the room, and the synchronous helpers ([assignRoles], the tally
    loop of [processVotes], the three scans of [processMorning], the counts
    of [checkWinCondition]) are plain functions on lists.

    The awaits of one method run in program order and no other client
    writes in between; a store operation fails only where Firestore rejects
    it by contract ([updateDoc] on a missing document) or where the code
    reads a property of [undefined].  Numbers are the integers the code
    stores: versions and days as [nat], times in milliseconds as [Z]. *)

From Stdlib Require Import ZArith Lia.
From stdpp Require Import base strings list gmap sorting.

Open Scope string_scope.
Open Scope list_scope.
Open Scope nat_scope.

(** ** Game phases *)

(** Modelled from the spec: the [GAME_PHASES] table of [game-states.js],
    which is imported by [game-manager.js] but is not part of the sources.
    The spec gives the ten phases as a closed enumeration. *)
Inductive Phase : Type :=
  | LOBBY | ROLE_REVEAL | MEETING_DISCUSSION | VOTING | VOTE_RESULT
  | BREAK | NIGHT_SPECIAL | NIGHT_IMPOSTOR | MORNING_ANNOUNCEMENT
  | GAME_RESULT.

Global Instance Phase_eq_dec : EqDecision Phase.
Proof. solve_decision. Defined.

(** ** Documents *)

(** [rooms/{code}/players/{id}] *)
Record PlayerDoc : Type := mkPlayer {
  name : string;
  isHost : bool;
  isAlive : bool;
  role : option string;          (* [null] until roles are dealt *)
  roleReadConfirmed : bool;
  connected : bool
}.

(** [rooms/{code}] *)
Record RoomDoc : Type := mkRoom {
  hostId : string;
  status : string;
  day : nat
}.

Record Timers : Type := mkTimers {
  meeting : Z;
  vote : Z;
  break : Z
}.

(** [rooms/{code}/settings/main]; [roles] lists the entries of the role
    object in the order [Object.entries] enumerates them. *)
Record Settings : Type := mkSettings {
  roles : list (string * nat);
  timers : Timers
}.

(** The argument of [updateSettings]: the top-level keys it carries. *)
Record SettingsPatch : Type := mkSettingsPatch {
  patch_roles : option (list (string * nat));
  patch_timers : option Timers
}.

(** The tag a transition is stamped with: [`${phase}_${Date.now()}`], or
    [`RESET_${Date.now()}`] when the phase is absent. *)
Definition TransitionId : Type := (option Phase * Z)%type.

(** The [additionalData] of [setState]: every key a caller ever passes,
    [None] when the key is absent from the object. *)
Record Payload : Type := mkPayload {
  p_result : option string;
  p_tiedPlayers : option (list string);
  p_voteCounts : option (gmap string nat);
  p_victimId : option string;
  p_victimName : option string;
  p_winner : option string;
  p_victims : option (list string)
}.

Definition noPayload : Payload :=
  mkPayload None None None None None None None.

(** [rooms/{code}/gameState/current] *)
Record GameState : Type := mkGameState {
  phase : Phase;
  version : nat;
  transitionId : TransitionId;
  updatedAt : Z;
  hostUid : string;
  payload : Payload
}.

(** [rooms/{code}/votes/{voterId}] *)
Record VoteDoc : Type := mkVote {
  vote_targetId : string;
  vote_submittedAt : Z
}.

(** [rooms/{code}/nightActions/{actorId}]; [submittedAt] is the
    millisecond value of the timestamp, [None] while it is unresolved. *)
Record ActionDoc : Type := mkAction {
  type : string;
  targetId : string;
  submittedAt : option Z
}.

(** [rooms/{code}/deathLog/{victimId}] *)
Record DeathLogEntry : Type := mkDeath {
  cause : string;
  death_day : nat;
  death_role : option string;
  death_timestamp : Z
}.

(** [rooms/{code}/voteHistory/{autoId}] *)
Record HistoryEntry : Type := mkHistory {
  h_day : nat;
  h_voterId : string;
  h_targetId : string;
  h_timestamp : Z
}.

Inductive TimerPhase : Type := TimerMeeting | TimerVoting | TimerBreak.

(** [timers/{room}] in the realtime database. *)
Record TimerVal : Type := mkTimer {
  remaining : Z;
  timer_phase : TimerPhase
}.

(** [this.currentPlayer] *)
Record CurrentPlayer : Type := mkCurrentPlayer {
  cp_id : string;
  cp_name : string;
  cp_isHost : bool;
  cp_role : option string
}.

(** ** The room as one client sees it

    The fields of the [GameManager] instance that the engine reads or
    writes, the documents of [rooms/{currentRoom}] and of the realtime
    database, and the two sources of nondeterminism, the clock and
    [Math.random]. *)
Record World : Type := mkWorld {
  currentPlayer : option CurrentPlayer;
  activeTimer : option TimerVal;
  room : option RoomDoc;
  players : gmap string PlayerDoc;
  settings : option Settings;
  gameState : option GameState;
  votes : gmap string VoteDoc;
  nightActions : gmap string ActionDoc;
  deathLog : gmap string DeathLogEntry;
  voteHistory : gmap nat HistoryEntry;     (* keyed by auto id *)
  timer : option TimerVal;
  presence : gmap string (bool * Z);
  clock : Z;
  entropy : list nat
}.

Definition set_activeTimer (v : option TimerVal) (w : World) : World :=
  mkWorld (currentPlayer w) v (room w) (players w) (settings w)
    (gameState w) (votes w) (nightActions w) (deathLog w) (voteHistory w)
    (timer w) (presence w) (clock w) (entropy w).

Definition set_room (v : option RoomDoc) (w : World) : World :=
  mkWorld (currentPlayer w) (activeTimer w) v (players w) (settings w)
    (gameState w) (votes w) (nightActions w) (deathLog w) (voteHistory w)
    (timer w) (presence w) (clock w) (entropy w).

Definition set_players (v : gmap string PlayerDoc) (w : World) : World :=
  mkWorld (currentPlayer w) (activeTimer w) (room w) v (settings w)
    (gameState w) (votes w) (nightActions w) (deathLog w) (voteHistory w)
    (timer w) (presence w) (clock w) (entropy w).

Definition set_settings (v : option Settings) (w : World) : World :=
  mkWorld (currentPlayer w) (activeTimer w) (room w) (players w) v
    (gameState w) (votes w) (nightActions w) (deathLog w) (voteHistory w)
    (timer w) (presence w) (clock w) (entropy w).

Definition set_gameState (v : option GameState) (w : World) : World :=
  mkWorld (currentPlayer w) (activeTimer w) (room w) (players w) (settings w)
    v (votes w) (nightActions w) (deathLog w) (voteHistory w)
    (timer w) (presence w) (clock w) (entropy w).

Definition set_votes (v : gmap string VoteDoc) (w : World) : World :=
  mkWorld (currentPlayer w) (activeTimer w) (room w) (players w) (settings w)
    (gameState w) v (nightActions w) (deathLog w) (voteHistory w)
    (timer w) (presence w) (clock w) (entropy w).

Definition set_nightActions (v : gmap string ActionDoc) (w : World) : World :=
  mkWorld (currentPlayer w) (activeTimer w) (room w) (players w) (settings w)
    (gameState w) (votes w) v (deathLog w) (voteHistory w)
    (timer w) (presence w) (clock w) (entropy w).

Definition set_deathLog (v : gmap string DeathLogEntry) (w : World) : World :=
  mkWorld (currentPlayer w) (activeTimer w) (room w) (players w) (settings w)
    (gameState w) (votes w) (nightActions w) v (voteHistory w)
    (timer w) (presence w) (clock w) (entropy w).

Definition set_voteHistory (v : gmap nat HistoryEntry) (w : World) : World :=
  mkWorld (currentPlayer w) (activeTimer w) (room w) (players w) (settings w)
    (gameState w) (votes w) (nightActions w) (deathLog w) v
    (timer w) (presence w) (clock w) (entropy w).

Definition set_timer (v : option TimerVal) (w : World) : World :=
  mkWorld (currentPlayer w) (activeTimer w) (room w) (players w) (settings w)
    (gameState w) (votes w) (nightActions w) (deathLog w) (voteHistory w)
    v (presence w) (clock w) (entropy w).

Definition set_presence (v : gmap string (bool * Z)) (w : World) : World :=
  mkWorld (currentPlayer w) (activeTimer w) (room w) (players w) (settings w)
    (gameState w) (votes w) (nightActions w) (deathLog w) (voteHistory w)
    (timer w) v (clock w) (entropy w).

Definition set_entropy (v : list nat) (w : World) : World :=
  mkWorld (currentPlayer w) (activeTimer w) (room w) (players w) (settings w)
    (gameState w) (votes w) (nightActions w) (deathLog w) (voteHistory w)
    (timer w) (presence w) (clock w) v.

(** ** Asynchronous methods: state and exceptions *)

Inductive Error : Type :=
  | TypeError        (* a property read on [undefined] or [null] *)
  | NotFound.        (* [updateDoc] on a document that does not exist *)

Inductive Outcome (A : Type) : Type :=
  | Returned (a : A)
  | Threw (e : Error).
Arguments Returned {A} a.
Arguments Threw {A} e.

Definition M (A : Type) : Type := World → Outcome A * World.

Global Instance M_ret : MRet M := λ A a w, (Returned a, w).

Global Instance M_bind : MBind M := λ A B f m w,
  match m w with
  | (Returned a, w') => f a w'
  | (Threw e, w') => (Threw e, w')
  end.

Definition throw {A} (e : Error) : M A := λ w, (Threw e, w).

(** [try { m } catch (error) { console.error(...) }] *)
Definition tryCatch (m : M unit) : M unit := λ w,
  match m w with
  | (Threw _, w') => (Returned tt, w')
  | r => r
  end.

Definition get {A} (f : World → A) : M A := λ w, (Returned (f w), w).
Definition modify (f : World → World) : M unit := λ w, (Returned tt, f w).

(** [for (const x of l) { await f(x) }]: the first rejection ends the loop. *)
Fixpoint forM_ {A} (l : list A) (f : A → M unit) : M unit :=
  match l with
  | [] => mret tt
  | x :: l' => f x ;; forM_ l' f
  end.

(** [await Promise.all(l.map(f))]: every operation has been started, so
    each takes effect; the result rejects with the first rejection. *)
Fixpoint promiseAll {A} (l : list A) (f : A → M unit) : M unit :=
  match l with
  | [] => mret tt
  | x :: l' => λ w,
      match f x w with
      | (Returned _, w') => promiseAll l' f w'
      | (Threw e, w') => (Threw e, snd (promiseAll l' f w'))
      end
  end.

Definition run {A} (m : M A) (w : World) : World := snd (m w).
Definition result {A} (m : M A) (w : World) : Outcome A := fst (m w).

(** ** Firestore and the realtime database *)

(** A sub-collection of the room: where its documents live in the world. *)
Record Collection (K D : Type) `{Countable K} : Type := mkCollection {
  docs : World → gmap K D;
  put : gmap K D → World → World
}.
Arguments mkCollection {K D _ _} docs put.
Arguments docs {K D _ _} c w.
Arguments put {K D _ _} c m w.

Definition playersRef : Collection string PlayerDoc :=
  mkCollection players set_players.
Definition votesRef : Collection string VoteDoc := mkCollection votes set_votes.
Definition actionsRef : Collection string ActionDoc :=
  mkCollection nightActions set_nightActions.
Definition deathLogRef : Collection string DeathLogEntry :=
  mkCollection deathLog set_deathLog.
Definition historyRef : Collection nat HistoryEntry :=
  mkCollection voteHistory set_voteHistory.

(** A query snapshot lists the documents of a collection by ascending
    document id. *)
Definition docId_le {D} (x y : string * D) : Prop := String.leb x.1 y.1.

Global Instance docId_le_dec {D} (x y : string * D) : Decision (docId_le x y).
Proof. unfold docId_le. apply _. Defined.

Definition snapshot {D} (m : gmap string D) : list (string * D) :=
  merge_sort docId_le (map_to_list m).
Arguments snapshot : simpl never.

Definition getDocs {D} (c : Collection string D) : M (list (string * D)) :=
  get (λ w, snapshot (docs c w)).

Definition getDoc `{Countable K} {D} (c : Collection K D) (id : K)
  : M (option D) :=
  get (λ w, docs c w !! id).

(** [setDoc(ref, data)] without merge: creates or overwrites. *)
Definition setDoc `{Countable K} {D} (c : Collection K D) (id : K) (d : D)
  : M unit :=
  modify (λ w, put c (<[id := d]> (docs c w)) w).

(** [updateDoc(ref, patch)]: rejects when the document does not exist. *)
Definition updateDoc `{Countable K} {D} (c : Collection K D) (id : K)
    (patch : D → D) : M unit := λ w,
  match docs c w !! id with
  | Some d => (Returned tt, put c (<[id := patch d]> (docs c w)) w)
  | None => (Threw NotFound, w)
  end.

Definition deleteDoc `{Countable K} {D} (c : Collection K D) (id : K)
  : M unit :=
  modify (λ w, put c (delete id (docs c w)) w).

(** [doc(db, 'rooms', room, sub, id)]: the path segments must be strings,
    an [undefined] segment is a property read on [undefined]. *)
Definition docRef (id : option string) : M string :=
  match id with
  | Some s => mret s
  | None => throw TypeError
  end.

(** [snap.data().field] of a single document: [data()] of a missing
    document is [undefined]. *)
Definition dataOf {A} (snap : option A) : M A :=
  match snap with
  | Some d => mret d
  | None => throw TypeError
  end.

Definition updateRoom (patch : RoomDoc → RoomDoc) : M unit := λ w,
  match room w with
  | Some r => (Returned tt, set_room (Some (patch r)) w)
  | None => (Threw NotFound, w)
  end.

Definition Date_now : M Z := get clock.
Definition serverTimestamp : M Z := get clock.

(** [Math.floor(Math.random() * n)] *)
Definition randomBelow (n : nat) : M nat := λ w,
  match entropy w with
  | [] => (Returned 0, w)
  | x :: rest => (Returned (x mod n), set_entropy rest w)
  end.

(** ** Synchronous helpers of [GameManager] *)

(** *** assignRoles *)

(** [for (let i = 0; i < count; i++) roles.push(role)] *)
Fixpoint pushTimes (count : nat) (role : string) (roles : list string)
  : list string :=
  match count with
  | 0 => roles
  | S n => pushTimes n role (roles ++ [role])
  end.

(** [while (roles.length < playerCount) roles.push('citizen')]; the loop
    runs at most [playerCount] times. *)
Fixpoint padCitizens (fuel playerCount : nat) (roles : list string)
  : list string :=
  match fuel with
  | 0 => roles
  | S fuel' =>
      if bool_decide (length roles < playerCount)
      then padCitizens fuel' playerCount (roles ++ ["citizen"])
      else roles
  end.

Definition assignRoles (playerCount : nat) (roleSettings : list (string * nat))
  : list string :=
  let roles :=
    foldl (λ roles entry, pushTimes entry.2 entry.1 roles) [] roleSettings in
  let roles := padCitizens playerCount playerCount roles in
  take playerCount roles.

(** *** shuffleArray *)

Definition swap {A} (i j : nat) (l : list A) : list A :=
  match l !! i, l !! j with
  | Some xi, Some xj => <[j := xi]> (<[i := xj]> l)
  | _, _ => l
  end.

(** [for (let i = shuffled.length - 1; i > 0; i--)] *)
Fixpoint shuffleFrom {A} (i : nat) (shuffled : list A) : M (list A) :=
  match i with
  | 0 => mret shuffled
  | S i' =>
      j ← randomBelow (i + 1);
      shuffleFrom i' (swap i j shuffled)
  end.

Definition shuffleArray {A} (array : list A) : M (list A) :=
  shuffleFrom (length array - 1) array.

(** *** The tally of processVotes *)

(** [voteCount[targetId] = (voteCount[targetId] || 0) + 1] on an object
    whose keys are kept in insertion order: the keys are player ids, not
    array indices, so [Object.entries] lists them as they were added. *)
Fixpoint bump (targetId : string) (voteCount : list (string * nat))
  : list (string * nat) :=
  match voteCount with
  | [] => [(targetId, 1)]
  | (k, c) :: rest =>
      if bool_decide (k = targetId) then (k, c + 1) :: rest
      else (k, c) :: bump targetId rest
  end.

Definition countVotes (votesSnap : list (string * VoteDoc))
  : list (string * nat) :=
  foldl (λ voteCount doc, bump (vote_targetId doc.2) voteCount) [] votesSnap.

(** The loop over [Object.entries(voteCount)]; the pair is
    [(maxVotes, targets)]. *)
Definition tallyStep (acc : nat * list string) (entry : string * nat)
  : nat * list string :=
  let '(maxVotes, targets) := acc in
  let '(playerId, count) := entry in
  if bool_decide (maxVotes < count) then (count, [playerId])
  else if bool_decide (count = maxVotes) then (maxVotes, targets ++ [playerId])
  else (maxVotes, targets).

Definition tally (entries : list (string * nat)) : nat * list string :=
  foldl tallyStep (0, []) entries.

(** *** The three scans of processMorning *)

Definition Victim : Type := (string * string)%type.   (* [{ id, cause }] *)

(** [players[doc.id] = { id: doc.id, ...doc.data() }] *)
Definition playersById (playersSnap : list (string * PlayerDoc))
  : gmap string PlayerDoc :=
  foldl (λ players doc, <[doc.1 := doc.2]> players) ∅ playersSnap.

Definition isLivingBug (target : option PlayerDoc) : bool :=
  match target with
  | Some t => isAlive t && bool_decide (role t = Some "bug")
  | None => false
  end.

(** 1. Engineer vs Bug *)
Definition engineerVictims (players : gmap string PlayerDoc)
    (actionsSnap : list (string * ActionDoc)) : list Victim :=
  foldl (λ victims doc,
           let data := doc.2 in
           if bool_decide (type data = "engineer") then
             if isLivingBug (players !! targetId data)
             then victims ++ [(targetId data, "bug_death")]
             else victims
           else victims)
        [] actionsSnap.

(** [!earliestTime]: [null] and the number zero are both falsy. *)
Definition unset (earliestTime : option Z) : bool :=
  match earliestTime with
  | None => true
  | Some t => bool_decide (t = 0%Z)
  end.

Definition earlier (t : Z) (earliestTime : option Z) : bool :=
  match earliestTime with
  | Some e => bool_decide (t < e)%Z
  | None => false
  end.

(** 2. Identify Impostor Target; the pair is
    [(impostorTargetId, earliestTime)]. *)
Definition identifyStep (now : Z) (acc : option string * option Z)
    (doc : string * ActionDoc) : option string * option Z :=
  let data := doc.2 in
  if bool_decide (type data = "impostor") then
    let t := default now (submittedAt data) in
    if unset acc.2 || earlier t acc.2
    then (Some (targetId data), Some t)
    else acc
  else acc.

Definition identifyImpostorTarget (now : Z)
    (actionsSnap : list (string * ActionDoc)) : option string * option Z :=
  foldl (identifyStep now) (None, None) actionsSnap.

Definition isProtected (actionsSnap : list (string * ActionDoc))
    (impostorTargetId : string) : bool :=
  foldl (λ protected doc,
           if bool_decide (type doc.2 = "fallen_angel")
              && bool_decide (targetId doc.2 = impostorTargetId)
           then true else protected)
        false actionsSnap.

(** [victims.find(v => v.id === impostorTargetId)] *)
Definition isAlreadyDead (victims : list Victim) (impostorTargetId : string)
  : bool :=
  bool_decide (is_Some (list_find (λ v : Victim, v.1 = impostorTargetId) victims)).

(** 3. Process Impostor Kill: the victims after the step. *)
Definition impostorKill (players : gmap string PlayerDoc)
    (actionsSnap : list (string * ActionDoc)) (victims : list Victim)
    (impostorTargetId : option string) : list Victim :=
  match impostorTargetId with
  | Some id =>
      if bool_decide (id ≠ "") then
        match players !! id with
        | Some target =>
            if isAlive target && negb (isAlreadyDead victims id) then
              if isProtected actionsSnap id then victims
              else if bool_decide (role target = Some "bug") then victims
              else victims ++ [(id, "impostor")]
            else victims
        | None => victims
        end
      else victims
  | None => victims
  end.

Definition nightVictims (now : Z) (playersSnap : list (string * PlayerDoc))
    (actionsSnap : list (string * ActionDoc)) : list Victim :=
  let players := playersById playersSnap in
  let victims := engineerVictims players actionsSnap in
  let impostorTargetId := (identifyImpostorTarget now actionsSnap).1 in
  impostorKill players actionsSnap victims impostorTargetId.

(** *** The counts of checkWinCondition *)

Definition countStep (acc : nat * nat) (doc : string * PlayerDoc) : nat * nat :=
  let '(aliveImpostors, aliveCitizens) := acc in
  if isAlive doc.2 then
    if bool_decide (role doc.2 = Some "impostor")
    then (aliveImpostors + 1, aliveCitizens)
    else (aliveImpostors, aliveCitizens + 1)
  else acc.

Definition countAlive (playersSnap : list (string * PlayerDoc)) : nat * nat :=
  foldl countStep (0, 0) playersSnap.

Definition numericWinner (aliveImpostors aliveCitizens : nat) : option string :=
  if bool_decide (aliveCitizens ≤ aliveImpostors) && bool_decide (0 < aliveImpostors)
  then Some "impostor"
  else if bool_decide (aliveImpostors = 0) then Some "citizen"
  else None.

Definition findAliveBug (playersSnap : list (string * PlayerDoc))
  : option PlayerDoc :=
  foldl (λ bug doc,
           if isAlive doc.2 && bool_decide (role doc.2 = Some "bug")
           then Some doc.2 else bug)
        None playersSnap.

(** [addDoc(historyRef, entry)]: the document gets an unused auto id. *)
Definition addHistory (entry : HistoryEntry) : M unit :=
  modify (λ w, set_voteHistory
                 (<[fresh (dom (voteHistory w)) := entry]> (voteHistory w)) w).

(** ** The methods of [GameManager] *)

(** [this.currentPlayer.isHost]: a property read on [this.currentPlayer],
    which is [null] outside a room. *)
Definition this_currentPlayer : M CurrentPlayer := λ w,
  match currentPlayer w with
  | Some me => (Returned me, w)
  | None => (Threw TypeError, w)
  end.

(** [authManager.getUserId()]: inside a room it is the id [joinRoom]
    stored in [this.currentPlayer]. *)
Definition getUserId : M string := me ← this_currentPlayer; mret (cp_id me).

Definition kickPlayer (playerId : string) : M unit :=
  me ← this_currentPlayer;
  if negb (cp_isHost me) then mret tt else
  deleteDoc playersRef playerId;;
  modify (λ w, set_presence (delete playerId (presence w)) w).

Definition applySettingsPatch (patch : SettingsPatch) (s : Settings) : Settings :=
  mkSettings (default (roles s) (patch_roles patch))
             (default (timers s) (patch_timers patch)).

Definition updateSettings (patch : SettingsPatch) : M unit :=
  me ← this_currentPlayer;
  if negb (cp_isHost me) then mret tt else
  λ w, match settings w with
       | Some s => (Returned tt, set_settings (Some (applySettingsPatch patch s)) w)
       | None => (Threw NotFound, w)
       end.

(** *** State management *)

(** A map-valued field written with [{ merge: true }] is merged key by
    key, except that an empty map replaces the stored one. *)
Definition mergeVoteCounts (old new : option (gmap string nat))
  : option (gmap string nat) :=
  match new with
  | None => old
  | Some m => if bool_decide (m = ∅) then Some ∅ else Some (m ∪ default ∅ old)
  end.

Definition pick {A} (old new : option A) : option A :=
  match new with Some _ => new | None => old end.

Definition mergePayload (old new : Payload) : Payload :=
  mkPayload (pick (p_result old) (p_result new))
            (pick (p_tiedPlayers old) (p_tiedPlayers new))
            (mergeVoteCounts (p_voteCounts old) (p_voteCounts new))
            (pick (p_victimId old) (p_victimId new))
            (pick (p_victimName old) (p_victimName new))
            (pick (p_winner old) (p_winner new))
            (pick (p_victims old) (p_victims new)).

(** [version: increment(1)]: one more than the stored value, and [1] when
    there is none. *)
Definition increment1 (old : option GameState) : nat :=
  match old with
  | Some g => version g + 1
  | None => 1
  end.

Definition setState (phase : Phase) (additionalData : Payload) : M unit :=
  me ← this_currentPlayer;
  if negb (cp_isHost me) then mret tt else
  now ← Date_now;
  ts ← serverTimestamp;
  modify (λ w,
    let old := gameState w in
    set_gameState
      (Some (mkGameState phase (increment1 old) (Some phase, now) ts (cp_id me)
               (mergePayload (default noPayload (payload <$> old))
                             additionalData)))
      w).

Definition getState : M (option GameState) := get gameState.

Definition resetPlayer (d : PlayerDoc) : PlayerDoc :=
  mkPlayer (name d) (isHost d) true None false (connected d).

Definition resetGameState : M unit :=
  me ← this_currentPlayer;
  if negb (cp_isHost me) then mret tt else
  tryCatch (
    playersSnap ← getDocs playersRef;
    promiseAll playersSnap (λ doc, updateDoc playersRef doc.1 resetPlayer);;
    votesSnap ← getDocs votesRef;
    promiseAll votesSnap (λ doc, deleteDoc votesRef doc.1);;
    actionsSnap ← getDocs actionsRef;
    promiseAll actionsSnap (λ doc, deleteDoc actionsRef doc.1);;
    deathLogSnap ← getDocs deathLogRef;
    promiseAll deathLogSnap (λ doc, deleteDoc deathLogRef doc.1);;
    historySnap ← get (λ w, map_to_list (voteHistory w));
    promiseAll historySnap (λ doc, deleteDoc historyRef doc.1);;
    updateRoom (λ r, mkRoom (hostId r) "lobby" 1);;
    modify (set_timer None);;
    now ← Date_now;
    ts ← serverTimestamp;
    modify (set_gameState
              (Some (mkGameState LOBBY 0 (None, now) ts (cp_id me) noPayload)))).

(** *** Role reveal *)

Definition startGame : M unit :=
  me ← this_currentPlayer;
  if negb (cp_isHost me) then mret tt else
  players ← getDocs playersRef;
  settingsSnap ← get settings;
  settings ← dataOf settingsSnap;
  let roles := assignRoles (length players) (roles settings) in
  shuffledRoles ← shuffleArray roles;
  forM_ (seq 0 (length players)) (λ i,
    id ← docRef (fst <$> players !! i);
    updateDoc playersRef id (λ d,
      mkPlayer (name d) (isHost d) (isAlive d) (shuffledRoles !! i) false
               (connected d)));;
  updateRoom (λ r, mkRoom (hostId r) "ingame" (day r));;
  setState ROLE_REVEAL noPayload.

Definition markRoleAsRead : M unit :=
  uid ← getUserId;
  updateDoc playersRef uid (λ d,
    mkPlayer (name d) (isHost d) (isAlive d) (role d) true (connected d)).

Definition startTimer (duration : Z) (phase : TimerPhase) : M unit :=
  modify (set_activeTimer (Some (mkTimer duration phase))).

Definition startMeetingTimer : M unit :=
  me ← this_currentPlayer;
  if negb (cp_isHost me) then mret tt else
  settingsSnap ← get settings;
  settings ← dataOf settingsSnap;
  modify (set_timer (Some (mkTimer (meeting (timers settings)) TimerMeeting)));;
  startTimer (meeting (timers settings)) TimerMeeting.

Definition checkAllPlayersReadRole : M bool :=
  playersSnap ← getDocs playersRef;
  let allRead :=
    foldl (λ allRead doc, if negb (roleReadConfirmed doc.2) then false else allRead)
          true playersSnap in
  (if allRead then
     me ← this_currentPlayer;
     if cp_isHost me then
       setState MEETING_DISCUSSION noPayload;;
       startMeetingTimer
     else mret tt
   else mret tt);;
  mret allRead.

(** *** Meeting, break and voting *)

Definition startBreakTimer : M unit :=
  me ← this_currentPlayer;
  if negb (cp_isHost me) then mret tt else
  settingsSnap ← get settings;
  settings ← dataOf settingsSnap;
  modify (set_timer (Some (mkTimer (break (timers settings)) TimerBreak)));;
  startTimer (break (timers settings)) TimerBreak.

Definition startVotingTimer : M unit :=
  me ← this_currentPlayer;
  if negb (cp_isHost me) then mret tt else
  settingsSnap ← get settings;
  votesSnap ← getDocs votesRef;
  forM_ votesSnap (λ voteDoc, deleteDoc votesRef voteDoc.1);;
  settings ← dataOf settingsSnap;
  modify (set_timer (Some (mkTimer (vote (timers settings)) TimerVoting)));;
  startTimer (vote (timers settings)) TimerVoting.

Definition transitionToVoting : M unit :=
  me ← this_currentPlayer;
  if negb (cp_isHost me) then mret tt else
  setState VOTING noPayload;;
  startVotingTimer.

Definition transitionToBreak : M unit :=
  me ← this_currentPlayer;
  if negb (cp_isHost me) then mret tt else
  setState BREAK noPayload;;
  startBreakTimer.

Definition transitionToNight : M unit :=
  me ← this_currentPlayer;
  if negb (cp_isHost me) then mret tt else
  actionsSnap ← getDocs actionsRef;
  forM_ actionsSnap (λ actionDoc, deleteDoc actionsRef actionDoc.1);;
  setState NIGHT_SPECIAL noPayload.

Definition submitVote (targetId : string) : M unit :=
  uid ← getUserId;
  ts ← serverTimestamp;
  setDoc votesRef uid (mkVote targetId ts).

(** The patch [{ isAlive: false }]. *)
Definition markDead (d : PlayerDoc) : PlayerDoc :=
  mkPlayer (name d) (isHost d) false (role d) (roleReadConfirmed d)
           (connected d).

(** The object [processVotes] resolves to. *)
Inductive VoteResult : Type :=
  | Tie (targets : list string)
  | Killed (victimId : string) (victimName : string).

Definition archiveVotes (votesSnap : list (string * VoteDoc)) : M unit :=
  roomSnap ← get room;
  r ← dataOf roomSnap;
  let day := day r in
  promiseAll votesSnap (λ doc,
    ts ← serverTimestamp;
    addHistory (mkHistory day doc.1 (vote_targetId doc.2) ts)).

Definition tiePayload (targets : list string) (voteCount : list (string * nat))
  : Payload :=
  mkPayload (Some "tie") (Some targets) (Some (list_to_map voteCount))
            None None None None.

Definition leftPayload (victimId : string) : Payload :=
  mkPayload (Some "killed") None None (Some victimId) (Some "Unknown (Left)")
            None None.

Definition killedPayload (victimId victimName : string)
    (voteCount : list (string * nat)) : Payload :=
  mkPayload (Some "killed") None (Some (list_to_map voteCount))
            (Some victimId) (Some victimName) None None.

(** The part of [processVotes] below [// Kill player]; [victim] is
    [targets[0]], [None] when that is [undefined]. *)
Definition killPlayer (voteCount : list (string * nat)) (victim : option string)
  : M (option VoteResult) :=
  victimId ← docRef victim;
  playerSnap ← getDoc playersRef victimId;
  match playerSnap with
  | None =>
      setState VOTE_RESULT (leftPayload victimId);;
      mret (Some (Killed victimId "Unknown"))
  | Some playerData =>
      updateDoc playersRef victimId markDead;;
      roomSnap ← get room;
      r ← dataOf roomSnap;
      ts ← serverTimestamp;
      setDoc deathLogRef victimId (mkDeath "vote" (day r) (role playerData) ts);;
      setState VOTE_RESULT (killedPayload victimId (name playerData) voteCount);;
      mret (Some (Killed victimId (name playerData)))
  end.

Definition processVotes : M (option VoteResult) :=
  me ← this_currentPlayer;
  if negb (cp_isHost me) then mret None else
  votesSnap ← getDocs votesRef;
  let voteCount := countVotes votesSnap in
  let '(maxVotes, targets) := tally voteCount in
  if bool_decide (1 < length targets) then
    setState VOTE_RESULT (tiePayload targets voteCount);;
    mret (Some (Tie targets))
  else
    archiveVotes votesSnap;;
    killPlayer voteCount (targets !! 0).

Definition checkAllVoted : M bool :=
  playersSnap ← getDocs playersRef;
  let alivePlayers :=
    foldl (λ alivePlayers doc,
             if isAlive doc.2 then alivePlayers ++ [doc.1] else alivePlayers)
          [] playersSnap in
  votesSnap ← getDocs votesRef;
  let allVoted := bool_decide (length alivePlayers ≤ length votesSnap) in
  (if allVoted then
     me ← this_currentPlayer;
     if cp_isHost me then _ ← processVotes; mret tt else mret tt
   else mret tt);;
  mret allVoted.

(** *** Win condition *)

Definition getAliveBug : M (option PlayerDoc) :=
  playersSnap ← getDocs playersRef;
  mret (findAliveBug playersSnap).

Definition checkWinCondition : M (option string) :=
  playersSnap ← getDocs playersRef;
  let '(aliveImpostors, aliveCitizens) := countAlive playersSnap in
  match numericWinner aliveImpostors aliveCitizens with
  | Some winner =>
      bug ← getAliveBug;
      match bug with
      | Some _ => mret (Some "bug")
      | None => mret (Some winner)
      end
  | None => mret None
  end.

Definition winnerPayload (winner : string) : Payload :=
  mkPayload None None None None None (Some winner) None.

Definition proceedAfterVote : M unit :=
  me ← this_currentPlayer;
  if negb (cp_isHost me) then mret tt else
  state ← getState;
  match state with
  | None => mret tt
  | Some state =>
      if bool_decide (p_result (payload state) = Some "tie") then
        setState MEETING_DISCUSSION noPayload;;
        startMeetingTimer
      else if bool_decide (p_result (payload state) = Some "killed") then
        winner ← checkWinCondition;
        match winner with
        | Some winner => setState GAME_RESULT (winnerPayload winner)
        | None => setState BREAK noPayload;; startBreakTimer
        end
      else mret tt
  end.

(** *** Night *)

Definition submitNightAction (type targetId : string) : M unit :=
  uid ← getUserId;
  ts ← serverTimestamp;
  setDoc actionsRef uid (mkAction type targetId (Some ts)).

Definition isNightSpecialist (data : PlayerDoc) : bool :=
  isAlive data
  && (bool_decide (role data = Some "engineer")
      || bool_decide (role data = Some "doctor")
      || bool_decide (role data = Some "fallen_angel")).

Definition checkEDSubmitted : M bool :=
  playersSnap ← getDocs playersRef;
  let edPlayers :=
    foldl (λ edPlayers doc,
             if isNightSpecialist doc.2 then edPlayers ++ [doc.1] else edPlayers)
          [] playersSnap in
  actionsSnap ← getDocs actionsRef;
  let submittedCount :=
    foldl (λ submittedCount doc,
             if bool_decide (doc.1 ∈ edPlayers) then submittedCount + 1
             else submittedCount)
          0 actionsSnap in
  let allSubmitted := bool_decide (length edPlayers ≤ submittedCount) in
  (if allSubmitted then
     me ← this_currentPlayer;
     if cp_isHost me then
       currentState ← getState;
       currentState ← dataOf currentState;
       if bool_decide (phase currentState = NIGHT_SPECIAL)
       then setState NIGHT_IMPOSTOR noPayload
       else mret tt
     else mret tt
   else mret tt);;
  mret allSubmitted.

Definition victimsPayload (victims : list Victim) : Payload :=
  mkPayload None None None None None None (Some (fst <$> victims)).

(** 4. Apply Deaths: for one victim, the player update and the death-log
    entry are both started. *)
Definition applyDeath (day : nat) (players : gmap string PlayerDoc)
    (v : Victim) : M unit :=
  promiseAll
    [ updateDoc playersRef v.1 markDead;
      (target ← dataOf (players !! v.1);
       ts ← serverTimestamp;
       setDoc deathLogRef v.1 (mkDeath v.2 day (role target) ts)) ]
    (λ p, p).

Definition processMorning : M unit :=
  me ← this_currentPlayer;
  if negb (cp_isHost me) then mret tt else
  tryCatch (
    actionsSnap ← getDocs actionsRef;
    playersSnap ← getDocs playersRef;
    now ← Date_now;
    let victims := nightVictims now playersSnap actionsSnap in
    roomSnap ← get room;
    r ← dataOf roomSnap;
    let day := day r in
    promiseAll victims (applyDeath day (playersById playersSnap));;
    updateRoom (λ r, mkRoom (hostId r) (status r) (day + 1));;
    setState MORNING_ANNOUNCEMENT (victimsPayload victims)).

Definition checkImpostorSubmitted : M bool :=
  actionsSnap ← getDocs actionsRef;
  let impostorSubmitted :=
    foldl (λ impostorSubmitted doc,
             if bool_decide (type doc.2 = "impostor") then true
             else impostorSubmitted)
          false actionsSnap in
  (if impostorSubmitted then
     me ← this_currentPlayer;
     if cp_isHost me then
       currentState ← getState;
       currentState ← dataOf currentState;
       if bool_decide (phase currentState = NIGHT_IMPOSTOR)
       then processMorning
       else mret tt
     else mret tt
   else mret tt);;
  mret impostorSubmitted.

Definition proceedAfterMorning : M unit :=
  me ← this_currentPlayer;
  if negb (cp_isHost me) then mret tt else
  tryCatch (
    winner ← checkWinCondition;
    match winner with
    | Some winner => setState GAME_RESULT (winnerPayload winner)
    | None => setState MEETING_DISCUSSION noPayload;; startMeetingTimer
    end).

(** ** The vocabulary of the specification *)

(** The collections whose [put] stores what [docs] reads. *)
Class Lawful `{Countable K} {D} (c : Collection K D) : Prop := {
  docs_put m w : docs c (put c m w) = m;
  put_put m m' w : put c m' (put c m w) = put c m' w;
  put_docs w : put c (docs c w) w = w
}.

(** The version a client reads from the authoritative record; a room
    without a record has not been stamped yet. *)
Definition versionOf (w : World) : nat :=
  match gameState w with
  | Some g => version g
  | None => 0
  end.

(** The versions a run of [setState] calls leaves in the record, one per
    call. *)
Fixpoint versionsWritten (calls : list (Phase * Payload)) (w : World)
  : list nat :=
  match calls with
  | [] => []
  | (ph, data) :: rest =>
      let w' := run (setState ph data) w in
      versionOf w' :: versionsWritten rest w'
  end.

Definition isHostOf (w : World) : Prop :=
  ∃ me, currentPlayer w = Some me ∧ cp_isHost me = true.

Definition isGuestOf (w : World) : Prop :=
  ∃ me, currentPlayer w = Some me ∧ cp_isHost me = false.

(** *** Rosters *)

Definition living (P : PlayerDoc → Prop) `{∀ d, Decision (P d)}
    (roster : gmap string PlayerDoc) : nat :=
  size (filter (λ doc, isAlive doc.2 = true ∧ P doc.2) roster).

Definition livingImpostors (roster : gmap string PlayerDoc) : nat :=
  living (λ d, role d = Some "impostor") roster.

(** Every living player whose role is not [impostor], the bug included. *)
Definition livingNonImpostors (roster : gmap string PlayerDoc) : nat :=
  living (λ d, role d ≠ Some "impostor") roster.

(** The citizen-aligned count in the words of the specification: every
    other living player except the bug. *)
Definition livingCitizensExceptBug (roster : gmap string PlayerDoc) : nat :=
  living (λ d, role d ≠ Some "impostor" ∧ role d ≠ Some "bug") roster.

Definition livingBugs (roster : gmap string PlayerDoc) : nat :=
  living (λ d, role d = Some "bug") roster.

Definition impostorsPrevail (impostors others : nat) : Prop :=
  others ≤ impostors ∧ 0 < impostors.

(** *** Votes *)

Definition votesFor (t : string) (vs : gmap string VoteDoc) : nat :=
  size (filter (λ doc, vote_targetId doc.2 = t) vs).

(** The plurality: the largest number of votes any target received. *)
Definition plurality (vs : gmap string VoteDoc) : nat :=
  max_list ((λ doc, votesFor (vote_targetId doc.2) vs) <$> map_to_list vs).

(** [voteCount[t] || 0]: what the tally object holds for a target. *)
Fixpoint counted (t : string) (voteCount : list (string * nat)) : nat :=
  match voteCount with
  | [] => 0
  | (k, c) :: rest => if bool_decide (k = t) then c else counted t rest
  end.

(** The votes for a target among the documents of a snapshot. *)
Definition cast (t : string) (votesSnap : list (string * VoteDoc)) : nat :=
  length (filter (λ doc, vote_targetId doc.2 = t) votesSnap).

(** The name [processVotes] reports for its victim. *)
Definition victimName (w : World) (victimId : string) : string :=
  match players w !! victimId with
  | Some playerData => name playerData
  | None => "Unknown"
  end.

(** *** Role decks *)

(** The configured counts written out as a deck, entry by entry. *)
Definition expand (roleSettings : list (string * nat)) : list string :=
  roleSettings ≫= λ entry, replicate entry.2 entry.1.

Definition sumCounts (roleSettings : list (string * nat)) : nat :=
  sum_list (roleSettings.*2).

Definition occurrences (r : string) (deck : list string) : nat :=
  length (filter (λ x, x = r) deck).

(** [roleCounts[r]], and zero for a role the object does not mention. *)
Definition configured (r : string) (roleSettings : list (string * nat)) : nat :=
  sum_list ((filter (λ entry, entry.1 = r) roleSettings).*2).

(** *** Night actions *)

Definition actionTime (now : Z) (a : ActionDoc) : Z :=
  default now (submittedAt a).

Definition ofType (ty : string) (actionsSnap : list (string * ActionDoc))
  : list (string * ActionDoc) :=
  filter (λ doc, type doc.2 = ty) actionsSnap.

(** Step one in the words of the specification: the targets of the
    engineer actions that are alive with role bug. *)
Definition bugDeaths (roster : gmap string PlayerDoc)
    (actionsSnap : list (string * ActionDoc)) : list Victim :=
  (λ doc, (targetId doc.2, "bug_death")) <$>
    filter (λ doc, isLivingBug (roster !! targetId doc.2) = true)
           (ofType "engineer" actionsSnap).

(** An impostor action no other impostor action precedes in time. *)
Definition earliestImpostor (now : Z) (actionsSnap : list (string * ActionDoc))
    (a : ActionDoc) : Prop :=
  a ∈ (ofType "impostor" actionsSnap).*2 ∧
  ∀ b, b ∈ (ofType "impostor" actionsSnap).*2 →
       (actionTime now a ≤ actionTime now b)%Z.

(** What the scan for the impostor target holds after a run of actions:
    nothing when none is of type impostor, otherwise the target and the
    time of an earliest one. *)
Definition identified (now : Z) (actionsSnap : list (string * ActionDoc))
    (acc : option string * option Z) : Prop :=
  match acc with
  | (Some t, Some e) =>
      ∃ a, earliestImpostor now actionsSnap a
           ∧ t = targetId a ∧ e = actionTime now a
  | (None, None) => ofType "impostor" actionsSnap = []
  | _ => False
  end.

(** Step three in the words of the specification. *)
Definition killable (roster : gmap string PlayerDoc)
    (actionsSnap : list (string * ActionDoc)) (t : string) : Prop :=
  (∃ d, roster !! t = Some d ∧ isAlive d = true ∧ role d ≠ Some "bug") ∧
  (t ∉ fst <$> bugDeaths roster actionsSnap) ∧
  t ∉ (targetId <$> (ofType "fallen_angel" actionsSnap).*2).

(** ** Example rooms *)

Definition player (n : string) (r : option string) (alive : bool) : PlayerDoc :=
  mkPlayer n false alive r true true.

Definition hostSession : CurrentPlayer := mkCurrentPlayer "u1" "Ana" true None.
Definition guestSession : CurrentPlayer := mkCurrentPlayer "u2" "Ben" false None.

Definition defaultSettings : Settings :=
  mkSettings
    [("citizen", 4); ("impostor", 2); ("engineer", 1); ("doctor", 1);
     ("fallen_angel", 1); ("guard_duty", 0); ("impostor_follower", 0);
     ("bug", 0)]
    (mkTimers 300 60 120).

(** A room in the given phase at version 3, on day 2. *)
Definition exampleRoom (me : CurrentPlayer) (ph : Phase)
    (roster : list (string * PlayerDoc)) (vs : list (string * VoteDoc))
    (acts : list (string * ActionDoc)) : World :=
  mkWorld (Some me) None (Some (mkRoom "u1" "ingame" 2))
    (list_to_map roster) (Some defaultSettings)
    (Some (mkGameState ph 3 (Some ph, 1000%Z) 1000%Z "u1" noPayload))
    (list_to_map vs) (list_to_map acts) ∅ ∅ None ∅ 2000%Z [].

(** One impostor, one citizen and the bug, all alive. *)
Definition threeAlive : list (string * PlayerDoc) :=
  [("u1", player "Ana" (Some "impostor") true);
   ("u2", player "Ben" (Some "citizen") true);
   ("u3", player "Cho" (Some "bug") true)].

(** One living impostor, one living bug, nobody else alive. *)
Definition impostorAndBug : list (string * PlayerDoc) :=
  [("u1", player "Ana" (Some "impostor") true);
   ("u2", player "Ben" (Some "citizen") false);
   ("u3", player "Cho" (Some "bug") true)].

(** Five living players, and two ballots over them: two votes for A, two
    for B and one for C; three votes for A and one for B. *)
Definition fivePlayers : list (string * PlayerDoc) :=
  [("A", player "Ana" (Some "citizen") true);
   ("B", player "Ben" (Some "impostor") true);
   ("C", player "Cho" (Some "citizen") true);
   ("D", player "Dee" (Some "engineer") true);
   ("E", player "Eli" (Some "citizen") true)].

Definition votesTied : list (string * VoteDoc) :=
  [("A", mkVote "C" 1500%Z); ("B", mkVote "A" 1501%Z);
   ("C", mkVote "A" 1502%Z); ("D", mkVote "B" 1503%Z);
   ("E", mkVote "B" 1504%Z)].

Definition votesDecided : list (string * VoteDoc) :=
  [("A", mkVote "B" 1500%Z); ("B", mkVote "A" 1501%Z);
   ("C", mkVote "A" 1502%Z); ("D", mkVote "A" 1503%Z)].

(** A night on which the engineer finds the bug and the impostor attacks a
    citizen; and the same night with the fallen angel guarding that
    citizen. *)
Definition nightRoster : list (string * PlayerDoc) :=
  [("A", player "Ana" (Some "impostor") true);
   ("B", player "Ben" (Some "bug") true);
   ("C", player "Cho" (Some "citizen") true);
   ("D", player "Dee" (Some "engineer") true);
   ("E", player "Eli" (Some "fallen_angel") true)].

Definition nightUnguarded : list (string * ActionDoc) :=
  [("A", mkAction "impostor" "C" (Some 1700%Z));
   ("D", mkAction "engineer" "B" (Some 1600%Z));
   ("E", mkAction "fallen_angel" "D" (Some 1650%Z))].

Definition nightGuarded : list (string * ActionDoc) :=
  [("A", mkAction "impostor" "C" (Some 1700%Z));
   ("D", mkAction "engineer" "B" (Some 1600%Z));
   ("E", mkAction "fallen_angel" "C" (Some 1650%Z))].

(** A ballot in which all five living players have voted, three of them
    for A. *)
Definition votesComplete : list (string * VoteDoc) :=
  votesDecided ++ [("E", mkVote "A" 1504%Z)].


(** * Further vocabulary *)

(** The document a player holds once a role is dealt to it. *)
Definition dealt (r : option string) (d : PlayerDoc) : PlayerDoc :=
  mkPlayer (name d) (isHost d) (isAlive d) r false (connected d).

(** The roles held in a room, player by player. *)
Definition rolesHeld (roster : gmap string PlayerDoc) : list (option string) :=
  role <$> (map_to_list roster).*2.

(** The history entries one ballot is archived as. *)
Definition archived (day : nat) (now : Z) (votesSnap : list (string * VoteDoc))
  : list HistoryEntry :=
  (λ doc, mkHistory day doc.1 (vote_targetId doc.2) now) <$> votesSnap.

(** The entries of the vote history, in no particular order. *)
Definition historyEntries (w : World) : list HistoryEntry :=
  (map_to_list (voteHistory w)).*2.

(** The record the host's [setState] leaves in a room. *)
Definition stamped (w : World) (me : CurrentPlayer) (ph : Phase)
    (data : Payload) : GameState :=
  mkGameState ph (versionOf w + 1) (Some ph, clock w) (clock w) (cp_id me)
    (mergePayload (default noPayload (payload <$> gameState w)) data).

(** A countdown written to the realtime database and started on the host. *)
Definition counting (duration : Z) (ph : TimerPhase) (w : World) : World :=
  set_activeTimer (Some (mkTimer duration ph))
    (set_timer (Some (mkTimer duration ph)) w).

Definition set_currentPlayer (v : option CurrentPlayer) (w : World) : World :=
  mkWorld v (activeTimer w) (room w) (players w) (settings w)
    (gameState w) (votes w) (nightActions w) (deathLog w) (voteHistory w)
    (timer w) (presence w) (clock w) (entropy w).


(** * The callers in [ui-manager.js]

    The parts of [UIManager] that drive the engine: the host monitor, the
    start button of the lobby and the choice of the victim the morning
    screen shows.  What they draw is left out; what they call and what
    they pass on is embedded. *)

(** The interval callback of the monitor that [showNightSleep] starts
    for a host who has nothing to do at night. *)
Definition hostMonitorTick : M unit :=
  state ← getState;
  match state with
  | None => mret tt
  | Some state =>
      if bool_decide (phase state = NIGHT_SPECIAL) then
        _ ← checkEDSubmitted; mret tt
      else if bool_decide (phase state = NIGHT_IMPOSTOR) then
        _ ← checkImpostorSubmitted; mret tt
      else mret tt
  end.

(** The [victimId] that [renderScreen] hands to [showMorning]:
    [state.victims && state.victims.length > 0 ? state.victims[0] : null]. *)
Definition morningVictim (state : GameState) : option string :=
  match p_victims (payload state) with
  | Some victims =>
      if bool_decide (0 < length victims) then victims !! 0 else None
  | None => None
  end.

(** The role inputs of the lobby after [parseInt], taken to hold the
    natural numbers the form allows. *)
Record RoleInputs : Type := mkRoleInputs {
  citizenCount : nat;
  impostorCount : nat;
  engineerCount : nat;
  doctorCount : nat;
  fallenAngelCount : nat;
  guardDutyCount : nat;
  impostorFollowerCount : nat;
  bugCount : nat
}.

(** The [roles] object the click handler builds, key by key. *)
Definition rolesOf (i : RoleInputs) : list (string * nat) :=
  [("citizen", citizenCount i); ("impostor", impostorCount i);
   ("engineer", engineerCount i); ("doctor", doctorCount i);
   ("fallen_angel", fallenAngelCount i); ("guard_duty", guardDutyCount i);
   ("impostor_follower", impostorFollowerCount i); ("bug", bugCount i)].

(** How a click on the start button ends: with one of the two alerts of
    the validation, with the game started, or in the handler of the
    [try] block. *)
Inductive Click : Type :=
  | AlertTotal (totalRoles players : nat)
  | AlertImpostor
  | Started
  | StartFailed (error : Error).

(** The click handler of [startGameBtn]; [allPlayers] is
    [this.allPlayers.length], the number of players the lobby lists. *)
Definition startGameClick (inputs : RoleInputs) (timers : Timers)
    (allPlayers : nat) : M Click :=
  let roles := rolesOf inputs in
  let totalRoles := foldl (λ a b, a + b) 0 roles.*2 in
  if bool_decide (totalRoles ≠ allPlayers) then
    mret (AlertTotal totalRoles allPlayers)
  else if bool_decide (impostorCount inputs < 1) then mret AlertImpostor
  else λ w,
    match (updateSettings (mkSettingsPatch (Some roles) (Some timers));;
           startGame) w with
    | (Returned _, w') => (Returned Started, w')
    | (Threw error, w') => (Returned (StartFailed error), w')
    end.

(** The players that hold a role. *)
Definition holders (r : string) (roster : gmap string PlayerDoc) : nat :=
  size (filter (λ doc, role doc.2 = Some r) roster).


(** * Sessions: joining, leaving and restoring

    The session methods of [GameManager] act on more than the room: on the
    signed-in user of [authManager], on [this.currentRoom], on the room
    code kept in [localStorage] and on the presence ping started with
    [setInterval].  A [Client] holds these next to the room.  The room is
    the one the method addresses: the [roomCode] argument of [joinRoom],
    the stored code of [restoreSession], [this.currentRoom] of
    [leaveRoom].  The listeners kept in [this.unsubscribers] and the
    [beforeunload] handler are not part of the model. *)
Record Client : Type := mkClient {
  world : World;
  authUser : option string;            (* [authManager.getUserId()] *)
  currentRoom : option string;         (* [this.currentRoom] *)
  gnosia_room : option string;         (* [localStorage.getItem('gnosia_room')] *)
  intervals : gmap nat string;         (* running presence pings, by handle *)
  nextHandle : nat;                    (* the handle [setInterval] returns next *)
  presenceInterval : option nat        (* [this.presenceInterval] *)
}.

Definition set_world (v : World) (c : Client) : Client :=
  mkClient v (authUser c) (currentRoom c) (gnosia_room c) (intervals c)
    (nextHandle c) (presenceInterval c).

Definition set_currentRoom (v : option string) (c : Client) : Client :=
  mkClient (world c) (authUser c) v (gnosia_room c) (intervals c)
    (nextHandle c) (presenceInterval c).

Definition set_gnosia_room (v : option string) (c : Client) : Client :=
  mkClient (world c) (authUser c) (currentRoom c) v (intervals c)
    (nextHandle c) (presenceInterval c).

(** [this.presenceInterval = setInterval(...)]: a new handle, and the
    ping of the old one keeps running. *)
Definition setInterval (userId : string) (c : Client) : Client :=
  mkClient (world c) (authUser c) (currentRoom c) (gnosia_room c)
    (<[nextHandle c := userId]> (intervals c)) (nextHandle c + 1)
    (Some (nextHandle c)).

(** [if (this.presenceInterval) clearInterval(this.presenceInterval)]: the
    handle itself stays in the field. *)
Definition clearPresenceInterval (c : Client) : Client :=
  match presenceInterval c with
  | Some h =>
      mkClient (world c) (authUser c) (currentRoom c) (gnosia_room c)
        (delete h (intervals c)) (nextHandle c) (presenceInterval c)
  | None => c
  end.

(** What a promise of these methods rejects with. *)
Inductive Raised : Type :=
  | Native (e : Error)
  | ErrorOf (message : string).        (* [throw new Error(message)] *)

Inductive Settled (A : Type) : Type :=
  | Resolved (a : A)
  | Rejected (r : Raised).
Arguments Resolved {A} a.
Arguments Rejected {A} r.

Definition Session (A : Type) : Type := Client → Settled A * Client.

Global Instance Session_ret : MRet Session := λ A a c, (Resolved a, c).

Global Instance Session_bind : MBind Session := λ A B f m c,
  match m c with
  | (Resolved a, c') => f a c'
  | (Rejected r, c') => (Rejected r, c')
  end.

(** An operation on the room, run on the room of the client. *)
Definition store {A} (m : M A) : Session A := λ c,
  match m (world c) with
  | (Returned a, w') => (Resolved a, set_world w' c)
  | (Threw e, w') => (Rejected (Native e), set_world w' c)
  end.

Definition throwError {A} (message : string) : Session A := λ c,
  (Rejected (ErrorOf message), c).

Definition read {A} (f : Client → A) : Session A := λ c, (Resolved (f c), c).
Definition write (f : Client → Client) : Session unit := λ c, (Resolved tt, f c).

(** [try { m } catch (e) { handler }] *)
Definition catching {A} (m handler : Session A) : Session A := λ c,
  match m c with
  | (Rejected _, c') => handler c'
  | r => r
  end.

(** A value in a condition: [null], [undefined] and the empty string are
    falsy. *)
Definition truthy (s : option string) : option string :=
  match s with
  | Some "" => None
  | _ => s
  end.

Definition persistRoom (roomCode : string) : Session unit :=
  write (set_gnosia_room (Some roomCode)).

Definition clearSession : Session unit :=
  write (set_gnosia_room None);;
  write (set_currentRoom None);;
  store (modify (set_currentPlayer None)).

Definition setupPresence (roomCode userId : string) : Session unit :=
  store (now ← Date_now;
         modify (λ w, set_presence (<[userId := (true, now)]> (presence w)) w));;
  write (setInterval userId).

(** [joinRoom(roomCode, playerName, isHost = false)]; the flag is written
    [asHost] here, [isHost] being the field of the player document. *)
Definition joinRoom (roomCode playerName : string) (asHost : bool) : Session string :=
  userId ← read authUser;
  roomSnap ← store (get room);
  match roomSnap with
  | None => throwError "Room not found"
  | Some roomData =>
      userId ← store (docRef userId);
      playerSnap ← store (getDoc playersRef userId);
      if bool_decide (status roomData ≠ "lobby")
         && negb (bool_decide (is_Some playerSnap))
      then throwError "Game already in progress. Cannot join now."
      else
        let host := asHost || default false (isHost <$> playerSnap) in
        store (setDoc playersRef userId
                 (mkPlayer playerName host
                    (default true (isAlive <$> playerSnap))
                    (playerSnap ≫= role)
                    (default false (roleReadConfirmed <$> playerSnap))
                    true));;
        write (set_currentRoom (Some roomCode));;
        store (modify (set_currentPlayer
                 (Some (mkCurrentPlayer userId playerName host
                          (truthy (playerSnap ≫= role))))));;
        setupPresence roomCode userId;;
        persistRoom roomCode;;
        mret roomCode
  end.

(** The host's part of [leaveRoom]: the room is marked closed, the
    documents of six sub-collections are deleted, then the room document
    and the two nodes of the realtime database. *)
Definition closeRoom : M unit :=
  updateRoom (λ r, mkRoom (hostId r) "closed" (day r));;
  playersSnap ← getDocs playersRef;
  promiseAll playersSnap (λ doc, deleteDoc playersRef doc.1);;
  votesSnap ← getDocs votesRef;
  promiseAll votesSnap (λ doc, deleteDoc votesRef doc.1);;
  actionsSnap ← getDocs actionsRef;
  promiseAll actionsSnap (λ doc, deleteDoc actionsRef doc.1);;
  deathLogSnap ← getDocs deathLogRef;
  promiseAll deathLogSnap (λ doc, deleteDoc deathLogRef doc.1);;
  modify (set_gameState None);;
  modify (set_settings None);;
  modify (set_room None);;
  modify (set_presence ∅);;
  modify (set_timer None).

Definition leaveRoom : Session unit :=
  roomId ← read currentRoom;
  me ← store (get currentPlayer);
  match truthy roomId, me with
  | Some roomId, Some me =>
      catching
        (if cp_isHost me then store closeRoom
         else store (deleteDoc playersRef (cp_id me)))
        (mret tt);;
      store (modify (λ w, set_presence (delete (cp_id me) (presence w)) w));;
      write clearPresenceInterval;;
      clearSession;;
      store (modify (set_activeTimer None))
  | _, _ => mret tt
  end.

Definition restoreSession : Session bool :=
  roomCode ← read gnosia_room;
  match truthy roomCode with
  | None => mret false
  | Some roomCode =>
      userId ← read authUser;
      match truthy userId with
      | None => mret false
      | Some userId =>
          catching
            (roomSnap ← store (get room);
             match roomSnap with
             | None => clearSession;; mret false
             | Some _ =>
                 playerSnap ← store (getDoc playersRef userId);
                 match playerSnap with
                 | None => clearSession;; mret false
                 | Some playerData =>
                     write (set_currentRoom (Some roomCode));;
                     store (modify (set_currentPlayer
                              (Some (mkCurrentPlayer userId (name playerData)
                                       (isHost playerData) (role playerData)))));;
                     setupPresence roomCode userId;;
                     mret true
                 end
             end)
            (clearSession;; mret false)
      end
  end.

(** [getCurrentRole]: the role kept in [this.currentPlayer] when there is
    one, else the role of the player document, else [null]. *)
Definition getCurrentRole : Session (option string) :=
  me ← store (get currentPlayer);
  match me ≫= λ me, truthy (cp_role me) with
  | Some r => mret (Some r)
  | None =>
      userId ← read authUser;
      userId ← store (docRef userId);
      snap ← store (getDoc playersRef userId);
      match snap with
      | Some d => mret (role d)
      | None => mret None
      end
  end.

(** [generateRoomCode]: four draws from the alphabet. *)
Definition chars : string := "ABCDEFGHIJKLMNOPQRSTUVWXYZ".

(** [chars.charAt(i)]: the empty string past the end. *)
Definition charAt (i : nat) (s : string) : string :=
  match String.get i s with
  | Some c => String c EmptyString
  | None => ""
  end.

Fixpoint generateFrom (n : nat) (code : string) : M string :=
  match n with
  | 0 => mret code
  | S n' =>
      i ← randomBelow (String.length chars);
      generateFrom n' (code +:+ charAt i chars)
  end.

Definition generateRoomCode : M string := generateFrom 4 "".

(** A string of capital letters of the basic alphabet. *)
Fixpoint allUpper (s : string) : bool :=
  match s with
  | EmptyString => true
  | String c s' =>
      (65 <=? Ascii.nat_of_ascii c) && (Ascii.nat_of_ascii c <=? 90) && allUpper s'
  end.


(** * The version-driven listener of [subscribeToGameState]

    The closure of [subscribeToGameState] keeps [localVersion] and
    [lastSnapshotTime]; what it hands to [renderScreen] is recorded in
    [rendered], oldest first.  A callback runs to its end before the next
    one starts: the [getDoc] of the guard and the [getCurrentRole] before a
    render are taken to resolve at once. *)
Record Listener : Type := mkListener {
  localVersion : Z;
  lastSnapshotTime : Z;
  rendered : list GameState
}.

(** [let localVersion = -1; let lastSnapshotTime = Date.now();] *)
Definition subscribed (now : Z) : Listener := mkListener (-1) now [].

(** [if (state.version !== localVersion) { localVersion = state.version;
    ... renderScreen(state.phase, role, state) }] *)
Definition renderIfNew (state : GameState) (l : Listener) : Listener :=
  if bool_decide (Z.of_nat (version state) ≠ localVersion l)
  then mkListener (Z.of_nat (version state)) (lastSnapshotTime l)
         (rendered l ++ [state])
  else l.

(** The callback of [onSnapshot]; [snap] is [snap.data()]. *)
Definition onSnapshot (now : Z) (snap : option GameState) (l : Listener)
  : Listener :=
  let l := mkListener (localVersion l) now (rendered l) in
  match snap with
  | None => l
  | Some state => renderIfNew state l
  end.

(** The callback of the guard interval; [snap] is what its [getDoc]
    resolves to. *)
Definition guardTick (now : Z) (snap : option GameState) (l : Listener)
  : Listener :=
  if bool_decide (3000 < now - lastSnapshotTime l)%Z then
    let l :=
      match snap with
      | Some state => renderIfNew state l
      | None => l
      end in
    mkListener (localVersion l) now (rendered l)
  else l.

(** What reaches the listener, in the order it does. *)
Inductive Event : Type :=
  | Snapshot (now : Z) (snap : option GameState)
  | Guard (now : Z) (snap : option GameState).

Definition deliver (l : Listener) (e : Event) : Listener :=
  match e with
  | Snapshot now snap => onSnapshot now snap l
  | Guard now snap => guardTick now snap l
  end.

Definition replay (events : list Event) (l : Listener) : Listener :=
  foldl deliver l events.

Definition stateOf (e : Event) : option GameState :=
  match e with
  | Snapshot _ snap => snap
  | Guard _ snap => snap
  end.

(** No two neighbours of a list are equal. *)
Definition adjacentDistinct (vs : list nat) : Prop :=
  ∀ i a b, vs !! i = Some a → vs !! (i + 1) = Some b → a ≠ b.

(** The version the listener holds after its renders. *)
Definition lastRendered (l : Listener) : Z :=
  default (-1)%Z ((λ g, Z.of_nat (version g)) <$> last (rendered l)).


(** * Query snapshots *)

Section snapshot.
Context {D : Type}.
Implicit Types (m : gmap string D) (id : string) (d : D).

Lemma snapshot_Permutation m : snapshot m ≡ₚ map_to_list m.
Proof. apply merge_sort_Permutation. Qed.

Lemma elem_of_snapshot m id d : (id, d) ∈ snapshot m ↔ m !! id = Some d.
Proof. rewrite snapshot_Permutation. apply elem_of_map_to_list. Qed.

Lemma NoDup_fst_snapshot m : NoDup (snapshot m).*1.
Proof. rewrite snapshot_Permutation. apply NoDup_fst_map_to_list. Qed.

Lemma length_snapshot m : length (snapshot m) = size m.
Proof. rewrite snapshot_Permutation. apply length_map_to_list. Qed.

Lemma snapshot_empty : snapshot (∅ : gmap string D) = [].
Proof. apply length_zero_iff_nil. by rewrite length_snapshot, map_size_empty. Qed.

Lemma snapshot_nil m : snapshot m = [] ↔ m = ∅.
Proof.
  split; [|intros ->; apply snapshot_empty].
  intros Hnil. apply map_size_empty_iff. by rewrite <- length_snapshot, Hnil.
Qed.

Lemma size_filter_snapshot (P : string * D → Prop) `{∀ x, Decision (P x)} m :
  size (filter P m) = length (filter P (snapshot m)).
Proof.
  rewrite snapshot_Permutation, map_filter_alt, <- length_map_to_list.
  apply Permutation_length, map_to_list_to_map.
  eapply sublist_NoDup; [apply (NoDup_fst_map_to_list m)|].
  apply fmap_sublist, sublist_filter.
Qed.
End snapshot.


(** * Role assignment *)

Section assignRoles.
Implicit Types (roles deck : list string) (roleSettings : list (string * nat)).

Lemma pushTimes_replicate count r roles :
  pushTimes count r roles = roles ++ replicate count r.
Proof.
  revert roles. induction count as [|n IH]; intros roles; simpl.
  - by rewrite app_nil_r.
  - rewrite IH. by rewrite <- app_assoc.
Qed.

Lemma expand_cons r c roleSettings :
  expand ((r, c) :: roleSettings) = replicate c r ++ expand roleSettings.
Proof. reflexivity. Qed.

Lemma sumCounts_cons r c roleSettings :
  sumCounts ((r, c) :: roleSettings) = c + sumCounts roleSettings.
Proof. reflexivity. Qed.

Lemma expand_loop roleSettings roles :
  foldl (λ roles entry, pushTimes entry.2 entry.1 roles) roles roleSettings
  = roles ++ expand roleSettings.
Proof.
  revert roles. induction roleSettings as [|[r c] rs IH]; intros roles.
  - simpl. by rewrite app_nil_r.
  - rewrite expand_cons. simpl. rewrite IH, pushTimes_replicate.
    by rewrite <- app_assoc.
Qed.

Lemma padCitizens_replicate fuel playerCount roles :
  playerCount - length roles ≤ fuel →
  padCitizens fuel playerCount roles
  = roles ++ replicate (playerCount - length roles) "citizen".
Proof.
  revert roles. induction fuel as [|fuel IH]; intros roles Hfuel; simpl.
  - replace (playerCount - length roles) with 0 by lia.
    by rewrite app_nil_r.
  - case_bool_decide as Hlt.
    + rewrite IH by (rewrite length_app; simpl; lia).
      rewrite length_app. simpl. rewrite <- app_assoc. f_equal.
      replace (playerCount - length roles)
        with (S (playerCount - (length roles + 1))) by lia.
      done.
    + replace (playerCount - length roles) with 0 by lia.
      by rewrite app_nil_r.
Qed.

Lemma length_expand roleSettings :
  length (expand roleSettings) = sumCounts roleSettings.
Proof.
  induction roleSettings as [|[r c] rs IH]; [done|].
  by rewrite expand_cons, sumCounts_cons, length_app, length_replicate, IH.
Qed.

Lemma occurrences_app r deck1 deck2 :
  occurrences r (deck1 ++ deck2) = occurrences r deck1 + occurrences r deck2.
Proof. unfold occurrences. by rewrite filter_app, length_app. Qed.

Lemma occurrences_replicate r n x :
  occurrences r (replicate n x) = if decide (x = r) then n else 0.
Proof.
  unfold occurrences. induction n as [|n IH]; simpl.
  - by case_decide.
  - rewrite filter_cons. repeat case_decide; simpl; try congruence; lia.
Qed.

Lemma configured_cons r x c roleSettings :
  configured r ((x, c) :: roleSettings)
  = (if decide (x = r) then c else 0) + configured r roleSettings.
Proof. unfold configured. rewrite filter_cons. simpl. by case_decide. Qed.

Lemma occurrences_expand r roleSettings :
  occurrences r (expand roleSettings) = configured r roleSettings.
Proof.
  induction roleSettings as [|[x c] rs IH]; [done|].
  by rewrite expand_cons, configured_cons, occurrences_app,
    occurrences_replicate, IH.
Qed.

Lemma configured_absent r roleSettings :
  r ∉ roleSettings.*1 → configured r roleSettings = 0.
Proof.
  induction roleSettings as [|[x c] rs IH]; [done|]. simpl.
  intros Hnotin. apply not_elem_of_cons in Hnotin as [Hne Hnotin].
  rewrite configured_cons, IH by done. by rewrite decide_False.
Qed.

Lemma configured_lookup r c roleSettings :
  NoDup roleSettings.*1 → (r, c) ∈ roleSettings →
  configured r roleSettings = c.
Proof.
  induction roleSettings as [|[x n] rs IH]; simpl; intros Hnd Hin.
  - by apply elem_of_nil in Hin.
  - apply NoDup_cons in Hnd as [Hx Hnd]. rewrite configured_cons.
    apply elem_of_cons in Hin as [Heq|Hin].
    + inversion Heq; subst. rewrite decide_True, configured_absent by done. lia.
    + rewrite decide_False, IH; [done..|].
      intros ->. apply Hx. apply list_elem_of_fmap. by exists (r, c).
Qed.

Lemma assignRoles_eq playerCount roleSettings :
  assignRoles playerCount roleSettings
  = take playerCount
      (expand roleSettings
       ++ replicate (playerCount - sumCounts roleSettings) "citizen").
Proof.
  unfold assignRoles. rewrite expand_loop. simpl.
  rewrite padCitizens_replicate by lia. by rewrite length_expand.
Qed.

(** C4. [assignRoles] deals exactly [playerCount] roles: the configured
    deck padded with citizens when the counts fall short, cut to
    [playerCount] when they exceed it, and, when the counts add up to
    [playerCount], the configured deck itself, every role as often as
    configured. *)
Theorem assignRoles_deck playerCount roleSettings :
  length (assignRoles playerCount roleSettings) = playerCount
  ∧ (sumCounts roleSettings ≤ playerCount →
     assignRoles playerCount roleSettings
     = expand roleSettings
       ++ replicate (playerCount - sumCounts roleSettings) "citizen")
  ∧ (playerCount ≤ sumCounts roleSettings →
     assignRoles playerCount roleSettings
     = take playerCount (expand roleSettings))
  ∧ (sumCounts roleSettings = playerCount →
     assignRoles playerCount roleSettings = expand roleSettings
     ∧ (∀ r, occurrences r (assignRoles playerCount roleSettings)
             = configured r roleSettings)
     ∧ (NoDup roleSettings.*1 → ∀ r c, (r, c) ∈ roleSettings →
          occurrences r (assignRoles playerCount roleSettings) = c)).
Proof.
  rewrite assignRoles_eq.
  assert (Hlen := length_expand roleSettings).
  split; [|split; [|split]].
  - rewrite length_take, length_app, length_replicate. lia.
  - intros Hle. apply take_ge. rewrite length_app, length_replicate. lia.
  - intros Hle. replace (playerCount - sumCounts roleSettings) with 0 by lia.
    simpl. by rewrite app_nil_r.
  - intros Heq. replace (playerCount - sumCounts roleSettings) with 0 by lia.
    simpl. rewrite app_nil_r, take_ge by lia.
    split; [done|]. split.
    + intros r. apply occurrences_expand.
    + intros Hnd r c Hin. rewrite occurrences_expand.
      by apply configured_lookup.
Qed.

Lemma assignRoles_deck_witness :
  sumCounts (roles defaultSettings) = 9
  ∧ ∀ r, occurrences r (assignRoles 9 (roles defaultSettings))
         = configured r (roles defaultSettings).
Proof.
  split; [reflexivity|].
  apply (assignRoles_deck 9 (roles defaultSettings)). reflexivity.
Defined.
End assignRoles.


(** * The win condition *)

Section checkWinCondition.
Implicit Types (roster : gmap string PlayerDoc) (w : World)
  (playersSnap : list (string * PlayerDoc)).

Lemma countAlive_fold playersSnap i o :
  foldl countStep (i, o) playersSnap
  = (i + length (filter (λ doc : string * PlayerDoc,
                           isAlive doc.2 = true ∧ role doc.2 = Some "impostor")
                        playersSnap),
     o + length (filter (λ doc : string * PlayerDoc,
                           isAlive doc.2 = true ∧ role doc.2 ≠ Some "impostor")
                        playersSnap)).
Proof.
  revert i o. induction playersSnap as [|[id d] l IH]; intros i o; simpl.
  - f_equal; lia.
  - rewrite !filter_cons. cbn [snd].
    destruct (isAlive d) eqn:Halive; [case_bool_decide as Hrole|];
      rewrite IH; repeat case_decide;
      try (exfalso; intuition congruence); simpl; f_equal; lia.
Qed.

Lemma countAlive_snapshot roster :
  countAlive (snapshot roster)
  = (livingImpostors roster, livingNonImpostors roster).
Proof.
  unfold countAlive, livingImpostors, livingNonImpostors, living.
  by rewrite countAlive_fold, !size_filter_snapshot.
Qed.

Lemma findAliveBug_fold playersSnap bug :
  is_Some (foldl (λ bug (doc : string * PlayerDoc),
                    if isAlive doc.2 && bool_decide (role doc.2 = Some "bug")
                    then Some doc.2 else bug) bug playersSnap)
  ↔ is_Some bug
    ∨ ∃ doc, doc ∈ playersSnap ∧ isAlive doc.2 = true ∧ role doc.2 = Some "bug".
Proof.
  revert bug. induction playersSnap as [|[id d] l IH]; intros bug; simpl.
  - split; [by left|]. intros [?|(doc & Hin & _)]; [done|].
    by apply elem_of_nil in Hin.
  - rewrite IH. split.
    + intros [Hsome|(doc & Hin & Hdoc)].
      * destruct (isAlive d) eqn:Ha; simpl in Hsome; [|by left].
        case_bool_decide; [|by left].
        right. exists (id, d). split; [apply list_elem_of_here|done].
      * right. exists doc. split; [by apply list_elem_of_further|done].
    + intros [Hsome|(doc & Hin & Ha & Hr)].
      * left. destruct (isAlive d && bool_decide (role d = Some "bug")); eauto.
      * apply elem_of_cons in Hin as [->|Hin].
        -- left. simpl in *. rewrite Ha, bool_decide_eq_true_2 by done. eauto.
        -- right. by exists doc.
Qed.

Lemma findAliveBug_snapshot roster :
  is_Some (findAliveBug (snapshot roster))
  ↔ ∃ id d, roster !! id = Some d ∧ isAlive d = true ∧ role d = Some "bug".
Proof.
  unfold findAliveBug. rewrite findAliveBug_fold. split.
  - intros [[? [=]]|([id d] & Hin & Ha & Hr)].
    exists id, d. by apply elem_of_snapshot in Hin.
  - intros (id & d & Hin & Ha & Hr). right. exists (id, d).
    by rewrite elem_of_snapshot.
Qed.

Lemma livingBugs_pos roster :
  0 < livingBugs roster
  ↔ ∃ id d, roster !! id = Some d ∧ isAlive d = true ∧ role d = Some "bug".
Proof.
  unfold livingBugs, living. split.
  - intros Hpos.
    destruct (map_choose (filter (λ doc : string * PlayerDoc,
                isAlive doc.2 = true ∧ role doc.2 = Some "bug") roster))
      as (id & d & Hlook).
    { intros Hempty. rewrite Hempty, map_size_empty in Hpos. lia. }
    apply map_lookup_filter_Some in Hlook as (? & ? & ?). by exists id, d.
  - intros (id & d & Hlook & Ha & Hr).
    assert (filter (λ doc : string * PlayerDoc,
              isAlive doc.2 = true ∧ role doc.2 = Some "bug") roster
            ≠ ∅) as Hne.
    { intros Hempty.
      assert (filter (λ doc : string * PlayerDoc,
                isAlive doc.2 = true ∧ role doc.2 = Some "bug") roster
              !! id = Some d) as Hin by (by apply map_lookup_filter_Some).
      by rewrite Hempty in Hin. }
    apply map_size_non_empty_iff in Hne. lia.
Qed.

Lemma living_impostors_or_not roster :
  livingImpostors roster + livingNonImpostors roster
  = living (λ _, True) roster.
Proof.
  unfold livingImpostors, livingNonImpostors, living.
  rewrite !size_filter_snapshot.
  induction (snapshot roster) as [|[id d] l IH]; [done|].
  rewrite !filter_cons. cbn [snd].
  destruct (isAlive d), (decide (role d = Some "impostor"));
    repeat case_decide; simpl; try (exfalso; intuition congruence); lia.
Qed.

Lemma livingBugs_le roster : livingBugs roster ≤ livingNonImpostors roster.
Proof.
  unfold livingBugs, livingNonImpostors, living.
  rewrite !size_filter_snapshot.
  induction (snapshot roster) as [|[id d] l IH]; [done|].
  rewrite !filter_cons. cbn [snd].
  repeat case_decide; simpl; try lia.
  exfalso. intuition congruence.
Qed.

(** What [checkWinCondition] resolves to, and that it writes nothing. *)
Lemma checkWinCondition_unfold w :
  checkWinCondition w
  = (Returned
       (match numericWinner (livingImpostors (players w))
                            (livingNonImpostors (players w)) with
        | Some winner =>
            match findAliveBug (snapshot (players w)) with
            | Some _ => Some "bug"
            | None => Some winner
            end
        | None => None
        end), w).
Proof.
  unfold checkWinCondition, getAliveBug, getDocs, get, mbind, M_bind, mret,
    M_ret. simpl.
  rewrite countAlive_snapshot.
  destruct (numericWinner _ _); [|done].
  by destruct (findAliveBug _).
Qed.

Lemma numericWinner_impostor i o :
  impostorsPrevail i o → numericWinner i o = Some "impostor".
Proof.
  intros [Hle Hpos]. unfold numericWinner.
  rewrite (bool_decide_eq_true_2 (o ≤ i)) by done.
  by rewrite (bool_decide_eq_true_2 (0 < i)).
Qed.

Lemma numericWinner_citizen i o : i = 0 → numericWinner i o = Some "citizen".
Proof.
  intros ->. unfold numericWinner.
  rewrite (bool_decide_eq_false_2 (0 < 0)) by lia.
  by rewrite andb_false_r.
Qed.

Lemma numericWinner_none i o :
  ¬ impostorsPrevail i o → i ≠ 0 → numericWinner i o = None.
Proof.
  intros Hnot Hne. unfold numericWinner, impostorsPrevail in *.
  destruct (bool_decide (o ≤ i)) eqn:H1, (bool_decide (0 < i)) eqn:H2; simpl;
    try (by rewrite bool_decide_eq_false_2).
  apply bool_decide_eq_true in H1, H2. tauto.
Qed.

(** C1, as the code has it.  [checkWinCondition] counts the living
    players with role impostor against all other living players, the bug
    among them; without a living bug it names the impostors when they are
    at least as many as the others and at least one, and the citizens when
    no impostor lives; it resolves to null when neither holds; and it
    writes nothing. *)
Theorem checkWinCondition_counts w :
  let i := livingImpostors (players w) in
  let o := livingNonImpostors (players w) in
  run checkWinCondition w = w
  ∧ i + o = living (λ _, True) (players w)
  ∧ (impostorsPrevail i o → livingBugs (players w) = 0 →
     result checkWinCondition w = Returned (Some "impostor"))
  ∧ (i = 0 → livingBugs (players w) = 0 →
     result checkWinCondition w = Returned (Some "citizen"))
  ∧ (¬ impostorsPrevail i o → i ≠ 0 →
     result checkWinCondition w = Returned None).
Proof.
  intros i o. unfold run, result. rewrite checkWinCondition_unfold. simpl.
  assert (∀ win, livingBugs (players w) = 0 →
            match findAliveBug (snapshot (players w)) with
            | Some _ => Some "bug"
            | None => Some win
            end = Some win) as Hnobug.
  { intros win Hz. destruct (findAliveBug _) eqn:Hbug; [|done].
    assert (0 < livingBugs (players w)); [|lia].
    apply livingBugs_pos, findAliveBug_snapshot. by rewrite Hbug. }
  split; [done|]. split; [|split; [|split]].
  - apply living_impostors_or_not.
  - intros Hwin Hz. fold i o. by rewrite numericWinner_impostor, Hnobug.
  - intros Hi Hz. fold i o. by rewrite numericWinner_citizen, Hnobug.
  - intros Hnot Hne. fold i o. by rewrite numericWinner_none.
Qed.

Lemma checkWinCondition_counts_witness :
  result checkWinCondition
    (exampleRoom hostSession VOTE_RESULT
       [("u1", player "Ana" (Some "impostor") true);
        ("u2", player "Ben" (Some "citizen") true);
        ("u3", player "Cho" (Some "engineer") true)] [] [])
  = Returned None.
Proof.
  apply (checkWinCondition_counts
           (exampleRoom hostSession VOTE_RESULT
              [("u1", player "Ana" (Some "impostor") true);
               ("u2", player "Ben" (Some "citizen") true);
               ("u3", player "Cho" (Some "engineer") true)] [] [])).
  - vm_compute. lia.
  - vm_compute. lia.
Defined.

(** C1, as stated, fails: with one impostor, one citizen and the bug
    alive, the impostor is level with the living players other than the
    bug, yet the evaluator names no winner. *)
Lemma checkWinCondition_counts_the_bug :
  let w := exampleRoom hostSession VOTE_RESULT threeAlive [] [] in
  impostorsPrevail (livingImpostors (players w))
                   (livingCitizensExceptBug (players w))
  ∧ result checkWinCondition w = Returned None.
Proof. vm_compute. split; [lia|done]. Qed.

(** C2, as stated, fails: with one impostor, one citizen and the bug
    alive, the impostor condition holds on the count that leaves the bug
    out and a bug is alive, yet the evaluator names no winner, the bug no
    more than anybody else. *)
Lemma checkWinCondition_bug_preempts_three_alive :
  let w := exampleRoom hostSession VOTE_RESULT threeAlive [] [] in
  impostorsPrevail (livingImpostors (players w))
                   (livingCitizensExceptBug (players w))
  ∧ (∃ id d, players w !! id = Some d ∧ isAlive d = true
             ∧ role d = Some "bug")
  ∧ result checkWinCondition w = Returned None
  ∧ result checkWinCondition w ≠ Returned (Some "bug").
Proof.
  intros w. split; [vm_compute; lia|]. split.
  - by exists "u3", (player "Cho" (Some "bug") true).
  - by vm_compute.
Qed.

(** C2. The numeric conditions are the ones the evaluator tests, with
    every living player who is not an impostor, the bug included, on the
    side the impostors are measured against.  Whenever one of the two
    holds and a bug is alive, [checkWinCondition] resolves to bug; so it
    does with one living impostor, one living bug and nobody else alive.
    When neither holds it names no winner, with or without a living bug. *)
Theorem checkWinCondition_bug_preempts :
  (∀ w,
     impostorsPrevail (livingImpostors (players w))
                      (livingNonImpostors (players w))
     ∨ livingImpostors (players w) = 0 →
     (∃ id d, players w !! id = Some d ∧ isAlive d = true
              ∧ role d = Some "bug") →
     checkWinCondition w = (Returned (Some "bug"), w))
  ∧ (∀ w,
       livingImpostors (players w) = 1 → livingBugs (players w) = 1 →
       living (λ _, True) (players w) = 2 →
       checkWinCondition w = (Returned (Some "bug"), w))
  ∧ (∀ w,
       ¬ impostorsPrevail (livingImpostors (players w))
                          (livingNonImpostors (players w)) →
       livingImpostors (players w) ≠ 0 →
       checkWinCondition w = (Returned None, w)).
Proof.
  assert (∀ w,
     impostorsPrevail (livingImpostors (players w))
                      (livingNonImpostors (players w))
     ∨ livingImpostors (players w) = 0 →
     (∃ id d, players w !! id = Some d ∧ isAlive d = true
              ∧ role d = Some "bug") →
     checkWinCondition w = (Returned (Some "bug"), w)) as Hgen.
  { intros w Hnum Hbug. rewrite checkWinCondition_unfold.
    apply findAliveBug_snapshot in Hbug as [bug Hbug]. rewrite Hbug.
    destruct Hnum as [Hwin|Hzero].
    - by rewrite numericWinner_impostor.
    - by rewrite numericWinner_citizen. }
  split; [done|]. split.
  - intros w Hi Hb Hall. apply Hgen.
    + left. pose proof (living_impostors_or_not (players w)) as Hsum.
      assert (livingBugs (players w) ≤ livingNonImpostors (players w))
        as Hbugs by apply livingBugs_le.
      unfold impostorsPrevail. lia.
    + apply livingBugs_pos. lia.
  - intros w Hnot Hne. rewrite checkWinCondition_unfold.
    by rewrite numericWinner_none.
Qed.

Lemma checkWinCondition_bug_preempts_witness :
  checkWinCondition (exampleRoom hostSession VOTE_RESULT impostorAndBug [] [])
  = (Returned (Some "bug"),
     exampleRoom hostSession VOTE_RESULT impostorAndBug [] []).
Proof.
  apply (proj1 (proj2 checkWinCondition_bug_preempts)); vm_compute;
    reflexivity.
Defined.
End checkWinCondition.


(** * Host-only operations *)

Section hostOnly.
Implicit Types (w : World) (me : CurrentPlayer).

Lemma hostOnly_guest {A} (x : A) (body : CurrentPlayer → M A) w :
  isGuestOf w →
  (me ← this_currentPlayer; if negb (cp_isHost me) then mret x else body me) w
  = (Returned x, w).
Proof.
  intros (me & Hme & Hguest).
  unfold mbind, M_bind, this_currentPlayer. by rewrite Hme, Hguest.
Qed.

Lemma hostOnly_host {A} (x : A) (body : CurrentPlayer → M A) w me :
  currentPlayer w = Some me → cp_isHost me = true →
  (me ← this_currentPlayer; if negb (cp_isHost me) then mret x else body me) w
  = body me w.
Proof.
  intros Hme Hhost.
  unfold mbind, M_bind, this_currentPlayer. by rewrite Hme, Hhost.
Qed.

(** C8. For a player who is not the host, every host-only operation
    returns normally and leaves the room, the timers and the local
    timer handle exactly as they were. *)
Theorem host_only_operations_ignore_guests w :
  isGuestOf w →
  (∀ ph data, setState ph data w = (Returned tt, w))
  ∧ resetGameState w = (Returned tt, w)
  ∧ processVotes w = (Returned None, w)
  ∧ processMorning w = (Returned tt, w)
  ∧ startGame w = (Returned tt, w)
  ∧ (∀ patch, updateSettings patch w = (Returned tt, w))
  ∧ (∀ playerId, kickPlayer playerId w = (Returned tt, w))
  ∧ transitionToVoting w = (Returned tt, w)
  ∧ transitionToBreak w = (Returned tt, w)
  ∧ transitionToNight w = (Returned tt, w)
  ∧ startMeetingTimer w = (Returned tt, w)
  ∧ startBreakTimer w = (Returned tt, w)
  ∧ startVotingTimer w = (Returned tt, w)
  ∧ proceedAfterVote w = (Returned tt, w)
  ∧ proceedAfterMorning w = (Returned tt, w).
Proof.
  intros Hguest.
  repeat split; intros; by apply hostOnly_guest.
Qed.

Lemma host_only_operations_ignore_guests_witness :
  processVotes (exampleRoom guestSession VOTING threeAlive
                  [("u1", mkVote "u2" 1500%Z)] [])
  = (Returned None,
     exampleRoom guestSession VOTING threeAlive
       [("u1", mkVote "u2" 1500%Z)] []).
Proof.
  apply (host_only_operations_ignore_guests
           (exampleRoom guestSession VOTING threeAlive
              [("u1", mkVote "u2" 1500%Z)] [])).
  exists guestSession. split; reflexivity.
Defined.
End hostOnly.

(** * The version counter *)

Section setState.
Implicit Types (w : World) (me : CurrentPlayer).

Lemma setState_host w me ph data :
  currentPlayer w = Some me → cp_isHost me = true →
  setState ph data w
  = (Returned tt,
     set_gameState
       (Some (mkGameState ph (increment1 (gameState w)) (Some ph, clock w)
                (clock w) (cp_id me)
                (mergePayload (default noPayload (payload <$> gameState w))
                              data)))
       w).
Proof. intros Hme Hhost. unfold setState. by rewrite (hostOnly_host _ _ _ me). Qed.

Lemma increment1_versionOf w : increment1 (gameState w) = versionOf w + 1.
Proof. unfold increment1, versionOf. by destruct (gameState w). Qed.

Lemma setState_version w ph data :
  isHostOf w → versionOf (run (setState ph data) w) = versionOf w + 1.
Proof.
  intros (me & Hme & Hhost). unfold run.
  rewrite (setState_host _ me) by done. simpl.
  apply increment1_versionOf.
Qed.

Lemma setState_isHostOf w ph data :
  isHostOf w → isHostOf (run (setState ph data) w).
Proof.
  intros (me & Hme & Hhost). exists me. unfold run.
  by rewrite (setState_host _ me).
Qed.

Lemma versionsWritten_lookup calls w i v :
  isHostOf w → versionsWritten calls w !! i = Some v →
  v = versionOf w + S i.
Proof.
  revert w i. induction calls as [|[ph data] calls IH]; intros w i Hhost; [done|].
  simpl. destruct i as [|i]; simpl.
  - intros [= <-]. rewrite setState_version by done. lia.
  - intros Hv. apply IH in Hv; [|by apply setState_isHostOf].
    rewrite setState_version in Hv by done. lia.
Qed.

Lemma length_versionsWritten calls w :
  length (versionsWritten calls w) = length calls.
Proof.
  revert w. induction calls as [|[ph data] calls IH]; intros w; [done|].
  simpl. by rewrite IH.
Qed.

(** C6. When the host calls [setState] any number of times, each call
    writes a version one above the version before it, so the versions
    written are strictly increasing, all above the one the run started
    from, and none is written twice. *)
Theorem setState_versions_increase w calls :
  isHostOf w →
  length (versionsWritten calls w) = length calls
  ∧ (∀ ph data, versionOf (run (setState ph data) w) = versionOf w + 1)
  ∧ (∀ i v, versionsWritten calls w !! i = Some v → v = versionOf w + S i)
  ∧ (∀ i j vi vj, versionsWritten calls w !! i = Some vi →
       versionsWritten calls w !! j = Some vj → i < j → vi < vj)
  ∧ NoDup (versionsWritten calls w).
Proof.
  intros Hhost.
  assert (∀ i v, versionsWritten calls w !! i = Some v →
            v = versionOf w + S i) as Hith
    by (intros i v; by apply versionsWritten_lookup).
  split; [apply length_versionsWritten|].
  split; [intros; by apply setState_version|].
  split; [done|]. split.
  - intros i j vi vj Hi Hj Hlt. apply Hith in Hi, Hj. lia.
  - apply NoDup_alt. intros i j v Hi Hj. apply Hith in Hi, Hj. lia.
Qed.

Lemma setState_versions_increase_witness :
  let w := exampleRoom hostSession MEETING_DISCUSSION threeAlive [] [] in
  let calls := [(VOTING, noPayload); (VOTE_RESULT, noPayload);
                (BREAK, noPayload)] in
  isHostOf w
  ∧ ∀ i j vi vj, versionsWritten calls w !! i = Some vi →
      versionsWritten calls w !! j = Some vj → i < j → vi < vj.
Proof.
  assert (isHostOf (exampleRoom hostSession MEETING_DISCUSSION threeAlive [] []))
    as Hhost by (exists hostSession; split; reflexivity).
  split; [exact Hhost|].
  apply (setState_versions_increase _ _ Hhost).
Defined.
End setState.


(** * Batches over a collection *)

Global Instance playersRef_lawful : Lawful playersRef.
Proof. split; intros; by destruct w. Qed.
Global Instance votesRef_lawful : Lawful votesRef.
Proof. split; intros; by destruct w. Qed.
Global Instance actionsRef_lawful : Lawful actionsRef.
Proof. split; intros; by destruct w. Qed.
Global Instance deathLogRef_lawful : Lawful deathLogRef.
Proof. split; intros; by destruct w. Qed.
Global Instance historyRef_lawful : Lawful historyRef.
Proof. split; intros; by destruct w. Qed.

Section batches.
Context `{Countable K} {D A : Type} (c : Collection K D) `{!Lawful c}.
Context (key : A → K).
Implicit Types (m : gmap K D) (l : list A) (w : World).

Lemma promiseAll_deleteDoc l w :
  promiseAll l (λ doc, deleteDoc c (key doc)) w
  = (Returned tt,
     put c (foldl (λ m doc, delete (key doc) m) (docs c w) l) w).
Proof.
  revert w. induction l as [|doc l IH]; intros w; simpl.
  - by rewrite put_docs.
  - unfold deleteDoc at 1, modify. rewrite IH. by rewrite docs_put, put_put.
Qed.

Lemma forM_deleteDoc l w :
  forM_ l (λ doc, deleteDoc c (key doc)) w
  = (Returned tt,
     put c (foldl (λ m doc, delete (key doc) m) (docs c w) l) w).
Proof.
  revert w. induction l as [|doc l IH]; intros w; simpl.
  - by rewrite put_docs.
  - unfold mbind, M_bind, deleteDoc at 1, modify.
    rewrite IH. by rewrite docs_put, put_put.
Qed.

Lemma lookup_foldl_delete l m k :
  foldl (λ m doc, delete (key doc) m) m l !! k
  = if decide (k ∈ key <$> l) then None else m !! k.
Proof.
  revert m. induction l as [|doc l IH]; intros m.
  - rewrite decide_False; [done|]. apply not_elem_of_nil.
  - cbn [foldl]. rewrite fmap_cons, IH. destruct (decide (k ∈ key <$> l)) as [Hin|Hnotin].
    + rewrite decide_True; [done|]. by apply list_elem_of_further.
    + destruct (decide (k = key doc)) as [->|Hne].
      * rewrite decide_True by apply list_elem_of_here.
        apply lookup_delete_eq.
      * rewrite decide_False, lookup_delete_ne; [done|congruence|].
        intros [?|?]%elem_of_cons; done.
Qed.

Lemma foldl_delete_all l m :
  (∀ k, is_Some (m !! k) → k ∈ key <$> l) →
  foldl (λ m doc, delete (key doc) m) m l = ∅.
Proof.
  intros Hall. apply map_eq. intros k.
  rewrite lookup_foldl_delete, lookup_empty. case_decide as Hin; [done|].
  apply eq_None_not_Some. intros Hsome. by apply Hin, Hall.
Qed.

Lemma updateDoc_alter (f : D → D) k w :
  is_Some (docs c w !! k) →
  updateDoc c k f w = (Returned tt, put c (alter f k (docs c w)) w).
Proof.
  intros [d Hd]. unfold updateDoc. rewrite Hd. do 2 f_equal.
  apply map_eq. intros k'. destruct (decide (k = k')) as [<-|Hne].
  - by rewrite lookup_insert_eq, lookup_alter_eq, Hd.
  - by rewrite lookup_insert_ne, lookup_alter_ne.
Qed.

Lemma promiseAll_updateDoc (f : D → D) l w :
  (∀ doc, doc ∈ l → is_Some (docs c w !! key doc)) →
  promiseAll l (λ doc, updateDoc c (key doc) f) w
  = (Returned tt,
     put c (foldl (λ m doc, alter f (key doc) m) (docs c w) l) w).
Proof.
  revert w. induction l as [|doc l IH]; intros w Hall; simpl.
  - by rewrite put_docs.
  - rewrite updateDoc_alter by apply Hall, list_elem_of_here.
    rewrite IH.
    + by rewrite docs_put, put_put.
    + intros doc' Hin. rewrite docs_put.
      apply lookup_alter_is_Some, Hall. by apply list_elem_of_further.
Qed.

Lemma lookup_foldl_alter (f : D → D) l m k :
  NoDup (key <$> l) →
  foldl (λ m doc, alter f (key doc) m) m l !! k
  = if decide (k ∈ key <$> l) then f <$> m !! k else m !! k.
Proof.
  revert m. induction l as [|doc l IH]; intros m Hnd.
  - rewrite decide_False; [done|]. apply not_elem_of_nil.
  - rewrite fmap_cons in Hnd. apply NoDup_cons in Hnd as [Hnotin Hnd].
    cbn [foldl]. rewrite fmap_cons, IH by done.
    destruct (decide (k = key doc)) as [->|Hne].
    + rewrite decide_False by done.
      rewrite decide_True by apply list_elem_of_here.
      apply lookup_alter_eq.
    + rewrite lookup_alter_ne by congruence.
      destruct (decide (k ∈ key <$> l)) as [Hin|Hnin].
      * rewrite decide_True; [done|]. by apply list_elem_of_further.
      * rewrite decide_False; [done|]. intros [?|?]%elem_of_cons; done.
Qed.
End batches.

Lemma foldl_alter_snapshot {D} (f : D → D) (m : gmap string D) :
  foldl (λ m doc, alter f doc.1 m) m (snapshot m) = f <$> m.
Proof.
  apply map_eq. intros k.
  rewrite (lookup_foldl_alter fst) by apply NoDup_fst_snapshot.
  rewrite lookup_fmap. case_decide as Hin; [done|].
  destruct (m !! k) as [d|] eqn:Hk; [|done].
  exfalso. apply Hin. apply list_elem_of_fmap. exists (k, d).
  split; [done|]. by apply elem_of_snapshot.
Qed.

Lemma foldl_delete_snapshot {D} (m : gmap string D) :
  foldl (λ m doc, delete doc.1 m) m (snapshot m) = ∅.
Proof.
  apply (foldl_delete_all fst). intros k [d Hd].
  apply list_elem_of_fmap. exists (k, d). split; [done|]. by apply elem_of_snapshot.
Qed.

Lemma foldl_delete_map_to_list `{Countable K} {D} (m : gmap K D) :
  foldl (λ m doc, delete doc.1 m) m (map_to_list m) = ∅.
Proof.
  apply (foldl_delete_all fst). intros k [d Hd].
  apply list_elem_of_fmap. exists (k, d). split; [done|].
  by apply elem_of_map_to_list.
Qed.


(** * Resetting the game *)

Section resetGameState.
Implicit Types (w : World) (me : CurrentPlayer).

Lemma resetGameState_host w me r :
  currentPlayer w = Some me → cp_isHost me = true → room w = Some r →
  resetGameState w
  = (Returned tt,
     mkWorld (Some me) (activeTimer w) (Some (mkRoom (hostId r) "lobby" 1))
       (resetPlayer <$> players w) (settings w)
       (Some (mkGameState LOBBY 0 (None, clock w) (clock w) (cp_id me)
                noPayload))
       ∅ ∅ ∅ ∅ None (presence w) (clock w) (entropy w)).
Proof.
  intros Hme Hhost Hroom. unfold resetGameState.
  rewrite (hostOnly_host _ _ _ me) by done.
  unfold tryCatch, mbind, M_bind, getDocs, get. simpl.
  rewrite (promiseAll_updateDoc playersRef fst); simpl.
  2:{ intros [id d] Hin. apply elem_of_snapshot in Hin. simpl. by rewrite Hin. }
  rewrite (promiseAll_deleteDoc votesRef fst); simpl.
  rewrite (promiseAll_deleteDoc actionsRef fst); simpl.
  rewrite (promiseAll_deleteDoc deathLogRef fst); simpl.
  rewrite (promiseAll_deleteDoc historyRef fst); simpl.
  unfold updateRoom. simpl. rewrite Hroom. simpl.
  unfold set_gameState, set_timer, set_room. simpl.
  rewrite foldl_alter_snapshot, !foldl_delete_snapshot,
    foldl_delete_map_to_list.
  by rewrite Hme.
Qed.

(** C9. When the host resets a room that exists, the game state is
    overwritten with phase LOBBY at version 0 and no payload field, every
    player is alive with no role and an unconfirmed role read, the votes,
    night actions, death log and vote history are empty, the timer is
    gone, and the room is back on day 1 in the lobby. *)
Theorem resetGameState_fresh_room w me r :
  currentPlayer w = Some me → cp_isHost me = true → room w = Some r →
  let w' := run resetGameState w in
  result resetGameState w = Returned tt
  ∧ gameState w'
    = Some (mkGameState LOBBY 0 (None, clock w) (clock w) (cp_id me) noPayload)
  ∧ players w' = resetPlayer <$> players w
  ∧ dom (players w') = dom (players w)
  ∧ (∀ id d, players w' !! id = Some d →
       isAlive d = true ∧ role d = None ∧ roleReadConfirmed d = false)
  ∧ votes w' = ∅ ∧ nightActions w' = ∅ ∧ deathLog w' = ∅
  ∧ voteHistory w' = ∅ ∧ timer w' = None
  ∧ room w' = Some (mkRoom (hostId r) "lobby" 1).
Proof.
  intros Hme Hhost Hroom. unfold run, result.
  rewrite (resetGameState_host w me r) by done. simpl.
  split; [done|]. split; [done|]. split; [done|].
  split; [apply dom_fmap_L|]. split; [|done].
  by intros id d (d' & <- & _)%lookup_fmap_Some.
Qed.

Lemma resetGameState_fresh_room_witness :
  let w := exampleRoom hostSession GAME_RESULT impostorAndBug
             [("u1", mkVote "u2" 1500%Z)]
             [("u1", mkAction "impostor" "u2" (Some 1600%Z))] in
  gameState (run resetGameState w)
  = Some (mkGameState LOBBY 0 (None, 2000%Z) 2000%Z "u1" noPayload)
  ∧ votes (run resetGameState w) = ∅
  ∧ nightActions (run resetGameState w) = ∅.
Proof.
  intros w.
  destruct (resetGameState_fresh_room w hostSession (mkRoom "u1" "ingame" 2))
    as (_ & Hstate & _ & _ & _ & Hvotes & Hactions & _);
    [reflexivity..|].
  split; [exact Hstate|]. split; [exact Hvotes|exact Hactions].
Defined.
End resetGameState.


(** * The vote tally *)

Section countVotes.
Implicit Types (t : string) (voteCount : list (string * nat))
  (votesSnap : list (string * VoteDoc)).

Lemma counted_bump t t' voteCount :
  counted t' (bump t voteCount)
  = if decide (t' = t) then counted t voteCount + 1 else counted t' voteCount.
Proof.
  induction voteCount as [|[k c] rest IH]; simpl.
  - case_bool_decide; case_decide; congruence.
  - case_bool_decide as Hk; simpl.
    + subst k. case_bool_decide; case_decide; congruence.
    + rewrite IH. repeat case_bool_decide; case_decide; congruence.
Qed.

Lemma keys_bump t voteCount :
  (bump t voteCount).*1
  = if decide (t ∈ voteCount.*1) then voteCount.*1 else voteCount.*1 ++ [t].
Proof.
  induction voteCount as [|[k c] rest IH].
  - rewrite decide_False by apply not_elem_of_nil. done.
  - cbn [bump]. case_bool_decide as Hk.
    + subst k. rewrite fmap_cons. cbn [fst].
      rewrite decide_True by apply list_elem_of_here. done.
    + rewrite !fmap_cons, IH. cbn [fst].
      destruct (decide (t ∈ rest.*1)) as [Hin|Hnotin].
      * rewrite decide_True; [done|]. by apply list_elem_of_further.
      * rewrite decide_False; [done|]. intros [?|?]%elem_of_cons; congruence.
Qed.

Lemma counted_pos t voteCount :
  (∀ e, e ∈ voteCount → 0 < e.2) → t ∈ voteCount.*1 → 0 < counted t voteCount.
Proof.
  induction voteCount as [|[k c] rest IH]; intros Hpos Hin.
  - by apply elem_of_nil in Hin.
  - simpl. case_bool_decide as Hk.
    + apply (Hpos (k, c)), list_elem_of_here.
    + apply IH.
      * intros e He. by apply Hpos, list_elem_of_further.
      * rewrite fmap_cons in Hin. apply elem_of_cons in Hin as [?|?]; [|done].
        simpl in *. congruence.
Qed.

Lemma counted_absent t voteCount : t ∉ voteCount.*1 → counted t voteCount = 0.
Proof.
  induction voteCount as [|[k c] rest IH]; [done|]. rewrite fmap_cons.
  intros [Hne Hnotin]%not_elem_of_cons. simpl in *.
  rewrite bool_decide_eq_false_2 by congruence. by apply IH.
Qed.

Lemma elem_of_counted t c voteCount :
  NoDup voteCount.*1 →
  (t, c) ∈ voteCount ↔ t ∈ voteCount.*1 ∧ counted t voteCount = c.
Proof.
  induction voteCount as [|[k n] rest IH]; intros Hnd.
  - split; [by intros ?%elem_of_nil|by intros [?%elem_of_nil _]].
  - rewrite fmap_cons in *. apply NoDup_cons in Hnd as [Hk Hnd]. simpl in *.
    rewrite !elem_of_cons, IH by done.
    case_bool_decide as Heq.
    + subst k. split.
      * intros [Hpair|[Hin _]]; [|done]. simplify_eq. by split; [left|].
      * intros [_ ->]. by left.
    + split.
      * intros [Hpair|[Hin Hc]]; [by simplify_eq|]. by split; [right|].
      * intros [[->|Hin] Hc]; [done|]. by right.
Qed.

(** The tally object after the scan: one key per target voted for, in the
    order the targets first appear, each holding its number of votes. *)
Lemma countVotes_scan votesSnap voteCount :
  let final := foldl (λ voteCount doc, bump (vote_targetId doc.2) voteCount)
                     voteCount votesSnap in
  (NoDup voteCount.*1 → NoDup final.*1)
  ∧ (∀ t, t ∈ final.*1
          ↔ t ∈ voteCount.*1 ∨ t ∈ (λ doc, vote_targetId doc.2) <$> votesSnap)
  ∧ (∀ t, counted t final = counted t voteCount + cast t votesSnap).
Proof.
  revert voteCount. induction votesSnap as [|[voter v] l IH]; intros voteCount.
  - simpl. split; [done|]. split.
    + intros t. split; [by left|]. by intros [?|?%elem_of_nil].
    + intros t. unfold cast. simpl. lia.
  - cbn [foldl]. destruct (IH (bump (vote_targetId v) voteCount))
      as (IHnd & IHkeys & IHcount).
    split; [|split].
    + intros Hnd. apply IHnd. rewrite keys_bump. case_decide as Hin; [done|].
      apply NoDup_app. split; [done|]. split; [|apply NoDup_singleton].
      intros x Hx ->%list_elem_of_singleton. done.
    + intros t. rewrite IHkeys, keys_bump, fmap_cons, elem_of_cons. simpl.
      case_decide as Hin.
      * split; [tauto|]. intros [?|[->|?]]; tauto.
      * rewrite elem_of_app, list_elem_of_singleton. tauto.
    + intros t. rewrite IHcount, counted_bump. unfold cast.
      rewrite filter_cons. simpl.
      repeat case_decide; simplify_eq; simpl; lia.
Qed.

Lemma NoDup_countVotes votesSnap : NoDup (countVotes votesSnap).*1.
Proof. apply (countVotes_scan votesSnap []). apply NoDup_nil_2. Qed.

Lemma keys_countVotes votesSnap t :
  t ∈ (countVotes votesSnap).*1 ↔ 0 < cast t votesSnap.
Proof.
  unfold countVotes.
  destruct (countVotes_scan votesSnap []) as (_ & -> & _).
  unfold cast. split.
  - intros [?%elem_of_nil|Hin]; [done|].
    apply list_elem_of_fmap in Hin as (doc & -> & Hin).
    assert (doc ∈ filter (λ doc' : string * VoteDoc,
                            vote_targetId doc'.2 = vote_targetId doc.2)
                         votesSnap)
      as Hf by (by apply list_elem_of_filter).
    destruct (filter _ _); [by apply elem_of_nil in Hf|simpl; lia].
  - intros Hpos. right.
    destruct (filter _ _) as [|doc l'] eqn:Hf; [simpl in Hpos; lia|].
    assert (doc ∈ filter (λ doc' : string * VoteDoc,
                            vote_targetId doc'.2 = t) votesSnap)
      as [Ht Hin]%list_elem_of_filter by (rewrite Hf; apply list_elem_of_here).
    apply list_elem_of_fmap. by exists doc.
Qed.

Lemma counted_countVotes votesSnap t :
  counted t (countVotes votesSnap) = cast t votesSnap.
Proof. by destruct (countVotes_scan votesSnap []) as (_ & _ & ->). Qed.

Lemma elem_of_countVotes votesSnap t c :
  (t, c) ∈ countVotes votesSnap ↔ 0 < c ∧ c = cast t votesSnap.
Proof.
  rewrite elem_of_counted by apply NoDup_countVotes.
  rewrite keys_countVotes, counted_countVotes. split.
  - intros [Hpos <-]. done.
  - intros [Hpos ->]. done.
Qed.
End countVotes.

Section tally.
Implicit Types (entries : list (string * nat)) (ns : list nat).

Lemma max_list_snoc ns n : max_list (ns ++ [n]) = max_list ns `max` n.
Proof. induction ns as [|m ns IH]; simpl; [lia|]. rewrite IH. lia. Qed.

Lemma max_list_le ns n : (∀ m, m ∈ ns → m ≤ n) → max_list ns ≤ n.
Proof.
  induction ns as [|m ns IH]; intros Hall; simpl; [lia|].
  apply Nat.max_lub.
  - apply Hall, list_elem_of_here.
  - apply IH. intros k Hk. by apply Hall, list_elem_of_further.
Qed.

Lemma max_list_ext ns1 ns2 :
  (∀ n, n ∈ ns1 ↔ n ∈ ns2) → max_list ns1 = max_list ns2.
Proof.
  intros Hext. apply Nat.le_antisymm; apply max_list_le; intros m Hm;
    apply max_list_elem_of_le; by apply Hext.
Qed.

Lemma filter_none_above entries n :
  max_list entries.*2 < n →
  filter (λ e : string * nat, e.2 = n) entries = [].
Proof.
  intros Hlt. induction entries as [|[p c] rest IH]; [done|].
  rewrite fmap_cons in Hlt. simpl in Hlt.
  rewrite filter_cons, decide_False by (simpl; lia).
  apply IH. lia.
Qed.

(** The loop leaves the largest count in [maxVotes] and, in [targets],
    the keys holding it, in the order of the entries. *)
Lemma tally_entries entries :
  tally entries
  = (max_list entries.*2,
     (filter (λ e : string * nat, e.2 = max_list entries.*2) entries).*1).
Proof.
  unfold tally. induction entries as [|[p c] rest IH] using rev_ind; [done|].
  rewrite foldl_snoc, IH, fmap_snoc, max_list_snoc, filter_app.
  rewrite (filter_cons _ _ []), filter_nil. cbn [snd tallyStep].
  case_bool_decide as Hgt.
  - rewrite Nat.max_r by lia. rewrite decide_True by done.
    by rewrite filter_none_above.
  - case_bool_decide as Heq.
    + subst c. rewrite Nat.max_l by lia. rewrite decide_True by done.
      by rewrite fmap_app.
    + rewrite Nat.max_l by lia. rewrite decide_False by done.
      by rewrite app_nil_r.
Qed.

Lemma tally_nil : tally [] = (0, []).
Proof. reflexivity. Qed.

Lemma elem_of_tally entries t :
  NoDup entries.*1 →
  t ∈ (tally entries).2 ↔ (t, (tally entries).1) ∈ entries.
Proof.
  intros Hnd. rewrite tally_entries. simpl.
  rewrite list_elem_of_fmap. split.
  - intros ([t' c] & -> & [Hc Hin]%list_elem_of_filter). simpl in *. by subst c.
  - intros Hin. exists (t, max_list entries.*2). split; [done|].
    by apply list_elem_of_filter.
Qed.

Lemma NoDup_tally entries : NoDup entries.*1 → NoDup (tally entries).2.
Proof.
  intros Hnd. rewrite tally_entries. simpl.
  eapply sublist_NoDup; [exact Hnd|]. apply fmap_sublist, sublist_filter.
Qed.

(** The outcome does not depend on the order in which the entries of the
    tally object are enumerated. *)
Lemma tally_Permutation entries entries' :
  NoDup entries.*1 → entries ≡ₚ entries' →
  (tally entries).1 = (tally entries').1
  ∧ (tally entries).2 ≡ₚ (tally entries').2.
Proof.
  intros Hnd Hperm.
  assert (NoDup entries'.*1) as Hnd' by (by rewrite <- Hperm).
  assert ((tally entries).1 = (tally entries').1) as Hmax.
  { rewrite !tally_entries. simpl. apply max_list_ext. intros n.
    by rewrite Hperm. }
  split; [done|].
  apply NoDup_Permutation; [by apply NoDup_tally..|].
  intros t. rewrite !elem_of_tally by done. by rewrite Hmax, Hperm.
Qed.
End tally.

Section plurality.
Implicit Types (vs : gmap string VoteDoc) (t : string).

Lemma votesFor_cast t vs : votesFor t vs = cast t (snapshot vs).
Proof. unfold votesFor, cast. apply size_filter_snapshot. Qed.

Lemma plurality_countVotes vs :
  max_list (countVotes (snapshot vs)).*2 = plurality vs.
Proof.
  unfold plurality. apply max_list_ext. intros n.
  rewrite !list_elem_of_fmap. split.
  - intros ([t c] & -> & Hin). simpl.
    apply elem_of_countVotes in Hin as [Hpos ->].
    assert (t ∈ (countVotes (snapshot vs)).*1) as Hkey
      by (by apply keys_countVotes).
    unfold countVotes in Hkey.
    destruct (countVotes_scan (snapshot vs) []) as (_ & Hkeys & _).
    apply Hkeys in Hkey as [?%elem_of_nil|Hkey]; [done|].
    apply list_elem_of_fmap in Hkey as ([voter v] & -> & Hdoc).
    exists (voter, v). split; [by rewrite votesFor_cast|].
    by rewrite <- snapshot_Permutation.
  - intros ([voter v] & -> & Hdoc). simpl.
    exists (vote_targetId v, cast (vote_targetId v) (snapshot vs)).
    split; [by rewrite votesFor_cast|].
    apply elem_of_countVotes. split; [|done].
    apply keys_countVotes.
    destruct (countVotes_scan (snapshot vs) []) as (_ & Hkeys & _).
    apply Hkeys. right. apply list_elem_of_fmap. exists (voter, v).
    split; [done|]. by rewrite snapshot_Permutation.
Qed.

(** The tally of a vote collection: the plurality, and the targets that
    reach it. *)
Lemma tally_votes vs :
  ∃ targets,
    tally (countVotes (snapshot vs)) = (plurality vs, targets)
    ∧ NoDup targets
    ∧ (∀ t, t ∈ targets
            ↔ 0 < votesFor t vs ∧ votesFor t vs = plurality vs)
    ∧ (vs ≠ ∅ → targets ≠ []).
Proof.
  exists (tally (countVotes (snapshot vs))).2.
  assert (tally (countVotes (snapshot vs))
          = (plurality vs, (tally (countVotes (snapshot vs))).2)) as Htally.
  { rewrite tally_entries at 1. simpl. rewrite plurality_countVotes.
    by rewrite tally_entries, plurality_countVotes. }
  assert (∀ t, t ∈ (tally (countVotes (snapshot vs))).2
            ↔ 0 < votesFor t vs ∧ votesFor t vs = plurality vs) as Hmem.
  { intros t. rewrite elem_of_tally by apply NoDup_countVotes.
    rewrite Htally. simpl. rewrite elem_of_countVotes, votesFor_cast.
    split; intros [Hpos Heq]; split; lia. }
  split; [done|]. split; [apply NoDup_tally, NoDup_countVotes|].
  split; [done|].
  intros Hne Hnil.
  assert (map_to_list vs ≠ []) as Hl
    by (intros Hl; by apply map_to_list_empty_iff in Hl).
  assert ((λ doc, votesFor (vote_targetId doc.2) vs) <$> map_to_list vs ≠ [])
    as Hvalues by (by destruct (map_to_list vs)).
  apply max_list_elem_of, list_elem_of_fmap in Hvalues
    as ([voter v] & Heq & Hdoc).
  fold (plurality vs) in Heq. simpl in Heq.
  assert (vote_targetId v ∈ (tally (countVotes (snapshot vs))).2) as Hin.
  { apply Hmem. split; [|done].
    rewrite votesFor_cast. apply keys_countVotes.
    destruct (countVotes_scan (snapshot vs) []) as (_ & Hkeys & _).
    apply Hkeys. right. apply list_elem_of_fmap. exists (voter, v).
    split; [done|]. by rewrite snapshot_Permutation. }
  rewrite Hnil in Hin. by apply elem_of_nil in Hin.
Qed.
End plurality.

Section processVotes.
Implicit Types (w : World) (me : CurrentPlayer) (r : RoomDoc).

Lemma processVotes_host w me :
  currentPlayer w = Some me → cp_isHost me = true →
  processVotes w
  = (let votesSnap := snapshot (votes w) in
     let voteCount := countVotes votesSnap in
     let targets := (tally voteCount).2 in
     if bool_decide (1 < length targets) then
       (setState VOTE_RESULT (tiePayload targets voteCount);;
        mret (Some (Tie targets))) w
     else
       (archiveVotes votesSnap;; killPlayer voteCount (targets !! 0)) w).
Proof.
  intros Hme Hhost. unfold processVotes.
  rewrite (hostOnly_host _ _ _ me) by done.
  unfold mbind at 1, M_bind at 1, getDocs, get. simpl.
  destruct (tally (countVotes (snapshot (votes w)))) as [maxVotes targets].
  simpl. by case_bool_decide.
Qed.

Lemma archiveVotes_history votesSnap w r :
  room w = Some r →
  ∃ history, archiveVotes votesSnap w = (Returned tt, set_voteHistory history w).
Proof.
  intros Hroom. unfold archiveVotes, mbind, M_bind, get, dataOf. simpl.
  rewrite Hroom. simpl. clear Hroom.
  assert (∀ history, ∃ history',
    promiseAll votesSnap
      (λ doc, λ w0,
         match serverTimestamp w0 with
         | (Returned ts, w') =>
             addHistory (mkHistory (day r) doc.1 (vote_targetId doc.2) ts) w'
         | (Threw e, w') => (Threw e, w')
         end)
      (set_voteHistory history w)
    = (Returned tt, set_voteHistory history' w)) as Hloop.
  { induction votesSnap as [|doc l IH]; intros history; simpl.
    - by exists history.
    - apply IH. }
  destruct (Hloop (voteHistory w)) as [history Heq].
  exists history. rewrite <- Heq. by destruct w.
Qed.

Lemma killPlayer_victim voteCount victimId w me r :
  currentPlayer w = Some me → cp_isHost me = true → room w = Some r →
  ∃ w' g,
    killPlayer voteCount (Some victimId) w
    = (Returned (Some (Killed victimId (victimName w victimId))), w')
    ∧ gameState w' = Some g
    ∧ phase g = VOTE_RESULT
    ∧ version g = versionOf w + 1
    ∧ p_result (payload g) = Some "killed"
    ∧ p_victimId (payload g) = Some victimId.
Proof.
  intros Hme Hhost Hroom.
  unfold killPlayer, victimName, mbind, M_bind, docRef, getDoc, get. simpl.
  destruct (players w !! victimId) as [playerData|] eqn:Hplayer.
  - unfold updateDoc. simpl. rewrite Hplayer. simpl. rewrite Hroom. simpl.
    rewrite (setState_host _ me) by done. simpl.
    eexists _, _. split; [reflexivity|]. simpl.
    by rewrite increment1_versionOf.
  - rewrite (setState_host _ me) by done. simpl.
    eexists _, _. split; [reflexivity|]. simpl.
    by rewrite increment1_versionOf.
Qed.

(** What [processVotes] does with a ballot that is not empty. *)
Lemma processVotes_outcome w me r :
  currentPlayer w = Some me → cp_isHost me = true → room w = Some r →
  votes w ≠ ∅ →
  ∃ targets,
    tally (countVotes (snapshot (votes w))) = (plurality (votes w), targets)
    ∧ (∀ t, counted t (countVotes (snapshot (votes w)))
            = votesFor t (votes w))
    ∧ NoDup targets
    ∧ (∀ t, t ∈ targets
            ↔ 0 < votesFor t (votes w)
              ∧ votesFor t (votes w) = plurality (votes w))
    ∧ (1 < length targets →
       result processVotes w = Returned (Some (Tie targets))
       ∧ ∃ g, gameState (run processVotes w) = Some g
              ∧ phase g = VOTE_RESULT
              ∧ p_result (payload g) = Some "tie"
              ∧ p_tiedPlayers (payload g) = Some targets)
    ∧ (length targets ≤ 1 →
       ∃ victimId,
         targets = [victimId]
         ∧ result processVotes w
           = Returned (Some (Killed victimId (victimName w victimId)))
         ∧ ∃ g, gameState (run processVotes w) = Some g
                ∧ phase g = VOTE_RESULT
                ∧ p_result (payload g) = Some "killed"
                ∧ p_victimId (payload g) = Some victimId).
Proof.
  intros Hme Hhost Hroom Hvotes.
  destruct (tally_votes (votes w)) as (targets & Htally & Hnd & Hmem & Hne).
  exists targets. split; [done|].
  split; [intros t; by rewrite counted_countVotes, votesFor_cast|].
  split; [done|]. split; [done|].
  unfold result, run. rewrite (processVotes_host w me) by done.
  cbv zeta. rewrite Htally. cbn [snd]. split.
  - intros Hlen. rewrite bool_decide_eq_true_2 by done.
    unfold mbind, M_bind. rewrite (setState_host _ me) by done. simpl.
    split; [done|]. eexists. split; [reflexivity|]. done.
  - intros Hlen. rewrite bool_decide_eq_false_2 by lia.
    destruct targets as [|victimId [|? ?]]; [by destruct Hne| |simpl in Hlen; lia].
    exists victimId. split; [done|].
    destruct (archiveVotes_history (snapshot (votes w)) w r Hroom)
      as [history Harchive].
    unfold mbind, M_bind. rewrite Harchive. simpl.
    destruct (killPlayer_victim (countVotes (snapshot (votes w))) victimId
                (set_voteHistory history w) me r)
      as (w' & g & Hkill & Hg & Hphase & _ & Hresult & Hvictim); [done..|].
    rewrite Hkill. simpl. split; [done|]. by exists g.
Qed.

Lemma processVotes_returns w me r :
  currentPlayer w = Some me → cp_isHost me = true → room w = Some r →
  votes w ≠ ∅ → ∃ res, result processVotes w = Returned res.
Proof.
  intros Hme Hhost Hroom Hvotes.
  destruct (processVotes_outcome w me r)
    as (targets & _ & _ & _ & _ & Htie & Hkill); [done..|].
  destruct (decide (1 < length targets)) as [Hlen|Hlen].
  - destruct (Htie Hlen) as [-> _]. eauto.
  - destruct Hkill as (victimId & _ & -> & _); [lia|eauto].
Qed.

(** C3. For a host in a room with at least one vote, [processVotes]
    counts the votes per target, finds the plurality and the targets that
    reach it; with more than one such target it reports a tie naming
    exactly those targets, and with a single one it reports that target
    killed.  Two votes for A, two for B and one for C give a tie between A
    and B; three votes for A and one for B kill A. *)
Theorem processVotes_plurality :
  (∀ w me r,
     currentPlayer w = Some me → cp_isHost me = true → room w = Some r →
     votes w ≠ ∅ →
     ∃ targets,
       tally (countVotes (snapshot (votes w))) = (plurality (votes w), targets)
       ∧ (∀ t, counted t (countVotes (snapshot (votes w)))
               = votesFor t (votes w))
       ∧ NoDup targets
       ∧ (∀ t, t ∈ targets
               ↔ 0 < votesFor t (votes w)
                 ∧ votesFor t (votes w) = plurality (votes w))
       ∧ (1 < length targets →
          result processVotes w = Returned (Some (Tie targets))
          ∧ ∃ g, gameState (run processVotes w) = Some g
                 ∧ phase g = VOTE_RESULT
                 ∧ p_result (payload g) = Some "tie"
                 ∧ p_tiedPlayers (payload g) = Some targets)
       ∧ (length targets ≤ 1 →
          ∃ victimId,
            targets = [victimId]
            ∧ result processVotes w
              = Returned (Some (Killed victimId (victimName w victimId)))
            ∧ ∃ g, gameState (run processVotes w) = Some g
                   ∧ phase g = VOTE_RESULT
                   ∧ p_result (payload g) = Some "killed"
                   ∧ p_victimId (payload g) = Some victimId))
  ∧ result processVotes (exampleRoom hostSession VOTING fivePlayers votesTied [])
    = Returned (Some (Tie ["A"; "B"]))
  ∧ result processVotes
      (exampleRoom hostSession VOTING fivePlayers votesDecided [])
    = Returned (Some (Killed "A" "Ana")).
Proof.
  split; [exact processVotes_outcome|split; reflexivity].
Qed.

Lemma processVotes_plurality_witness :
  let w := exampleRoom hostSession VOTING fivePlayers votesDecided [] in
  ∃ targets,
    tally (countVotes (snapshot (votes w))) = (plurality (votes w), targets)
    ∧ ∀ t, t ∈ targets
           ↔ 0 < votesFor t (votes w)
             ∧ votesFor t (votes w) = plurality (votes w).
Proof.
  intros w.
  destruct (proj1 processVotes_plurality w hostSession
              (mkRoom "u1" "ingame" 2))
    as (targets & Htally & _ & _ & Hmem & _);
    [reflexivity| reflexivity| reflexivity| |].
  { intros Hempty. apply (f_equal (λ m, m !! "A")) in Hempty.
    vm_compute in Hempty. discriminate Hempty. }
  exists targets. split; [exact Htally|exact Hmem].
Defined.

(** C10. With no votes at all the tally ends with [maxVotes] zero and no
    target, the tie test fails, and [processVotes] goes on to archive the
    votes and to the kill with [targets[0]], which is undefined; a tie is
    never what it reports. *)
Theorem processVotes_no_votes w me :
  currentPlayer w = Some me → cp_isHost me = true → votes w = ∅ →
  countVotes (snapshot (votes w)) = []
  ∧ tally (countVotes (snapshot (votes w))) = (0, [])
  ∧ bool_decide (1 < length (tally (countVotes (snapshot (votes w)))).2)
    = false
  ∧ (tally (countVotes (snapshot (votes w)))).2 !! 0 = None
  ∧ processVotes w = (archiveVotes [];; killPlayer [] None) w
  ∧ ∀ targets, result processVotes w ≠ Returned (Some (Tie targets)).
Proof.
  intros Hme Hhost Hvotes.
  assert (snapshot (votes w) = []) as Hsnap
    by (rewrite Hvotes; apply snapshot_empty).
  unfold result. rewrite (processVotes_host w me) by done. cbv zeta.
  rewrite Hsnap. simpl.
  repeat (split; [done|]).
  intros targets. unfold archiveVotes, mbind, M_bind, get, dataOf.
  simpl. by destruct (room w).
Qed.

(** Past the tally, the reference to the victim's document is built from
    an undefined path segment, so the kill is not carried out. *)
Lemma killPlayer_undefined voteCount w :
  killPlayer voteCount None w = (Threw TypeError, w).
Proof. reflexivity. Qed.

Lemma processVotes_no_votes_witness :
  processVotes (exampleRoom hostSession VOTING fivePlayers [] [])
  = (archiveVotes [];; killPlayer [] None)
      (exampleRoom hostSession VOTING fivePlayers [] []).
Proof.
  apply (processVotes_no_votes
           (exampleRoom hostSession VOTING fivePlayers [] []) hostSession);
    reflexivity.
Defined.
End processVotes.


(** * Night resolution *)

Section nightVictims.
Implicit Types (roster : gmap string PlayerDoc) (now : Z)
  (actionsSnap : list (string * ActionDoc)) (victims : list Victim).

Lemma ofType_snoc ty actionsSnap doc :
  ofType ty (actionsSnap ++ [doc])
  = ofType ty actionsSnap ++ (if decide (type doc.2 = ty) then [doc] else []).
Proof. unfold ofType. by rewrite filter_app, (filter_cons _ _ []), filter_nil. Qed.

(** Step one. *)
Lemma engineerVictims_bugDeaths roster actionsSnap :
  engineerVictims roster actionsSnap = bugDeaths roster actionsSnap.
Proof.
  unfold engineerVictims, bugDeaths.
  induction actionsSnap as [|doc l IH] using rev_ind; [done|].
  rewrite foldl_snoc, IH, ofType_snoc. clear IH.
  case_bool_decide as Hty.
  - rewrite decide_True by done.
    rewrite filter_app, (filter_cons _ _ []), filter_nil, fmap_app.
    destruct (isLivingBug (roster !! targetId doc.2)) eqn:Hbug.
    + by rewrite decide_True.
    + rewrite decide_False by done. by rewrite app_nil_r.
  - rewrite decide_False by done. by rewrite app_nil_r.
Qed.

(** Step two. *)
Lemma identifyImpostorTarget_earliest now actionsSnap :
  (∀ doc, doc ∈ ofType "impostor" actionsSnap → actionTime now doc.2 ≠ 0%Z) →
  identified now actionsSnap (identifyImpostorTarget now actionsSnap).
Proof.
  unfold identifyImpostorTarget.
  induction actionsSnap as [|doc l IH] using rev_ind; intros Hnz; [done|].
  rewrite foldl_snoc.
  assert (identified now l (foldl (identifyStep now) (None, None) l)) as Hl.
  { apply IH. intros d Hd. apply Hnz. rewrite ofType_snoc.
    apply elem_of_app. by left. }
  clear IH.
  destruct (foldl (identifyStep now) (None, None) l) as [[t|] [e|]];
    simpl in Hl; try done; unfold identifyStep.
  - (* a target is held already *)
    destruct Hl as (a & [Ha Hmin] & -> & ->).
    case_bool_decide as Hty; cbn [unset earlier fst snd].
    + assert (actionTime now a ≠ 0%Z) as Hane.
      { apply list_elem_of_fmap in Ha as (da & -> & Hda).
        apply Hnz. rewrite ofType_snoc. apply elem_of_app. by left. }
      rewrite (bool_decide_eq_false_2 (actionTime now a = 0%Z)) by done.
      cbn [orb]. fold (actionTime now doc.2).
      case_bool_decide as Hlt.
      * exists doc.2. split; [|done]. unfold earliestImpostor.
        rewrite ofType_snoc, decide_True, fmap_app by done. split.
        -- apply elem_of_app. right. apply list_elem_of_here.
        -- intros b [Hb|Hb]%elem_of_app.
           ++ apply Hmin in Hb. lia.
           ++ apply list_elem_of_singleton in Hb as ->. lia.
      * exists a. split; [|done]. unfold earliestImpostor.
        rewrite ofType_snoc, decide_True, fmap_app by done. split.
        -- apply elem_of_app. by left.
        -- intros b [Hb|Hb]%elem_of_app.
           ++ by apply Hmin.
           ++ apply list_elem_of_singleton in Hb as ->. lia.
    + exists a. split; [|done]. unfold earliestImpostor.
      rewrite ofType_snoc, decide_False, app_nil_r by done. done.
  - (* nothing is held yet *)
    case_bool_decide as Hty; simpl.
    + exists doc.2. split; [|done]. unfold earliestImpostor.
      rewrite ofType_snoc, decide_True, Hl by done. simpl. split.
      * apply list_elem_of_here.
      * intros b Hb. apply list_elem_of_singleton in Hb as ->. lia.
    + rewrite ofType_snoc, decide_False, app_nil_r by done. done.
Qed.

(** Why the times are taken to be nonzero: the scan tests [!earliestTime],
    so an earliest time of zero is read as no time at all and the next
    impostor action replaces it. *)
Lemma identifyImpostorTarget_zero_time :
  identifyImpostorTarget 2000
    [("A", mkAction "impostor" "C" (Some 0%Z));
     ("B", mkAction "impostor" "D" (Some 5%Z))]
  = (Some "D", Some 5%Z).
Proof. reflexivity. Qed.

Lemma isProtected_fallen_angel actionsSnap t :
  isProtected actionsSnap t = true
  ↔ t ∈ targetId <$> (ofType "fallen_angel" actionsSnap).*2.
Proof.
  unfold isProtected.
  induction actionsSnap as [|doc l IH] using rev_ind.
  - split; [done|]. by intros ?%elem_of_nil.
  - rewrite foldl_snoc, ofType_snoc, !fmap_app, elem_of_app, <- IH. clear IH.
    destruct (bool_decide (type doc.2 = "fallen_angel")) eqn:Hty;
      [apply bool_decide_eq_true in Hty|apply bool_decide_eq_false in Hty].
    + rewrite decide_True by done. simpl.
      case_bool_decide as Ht.
      * split; [|done]. intros _. right. rewrite <- Ht. apply list_elem_of_here.
      * split; [by left|]. intros [?|Hin]; [done|].
        apply list_elem_of_singleton in Hin. congruence.
    + rewrite decide_False by done. simpl.
      split; [by left|]. by intros [?|?%elem_of_nil].
Qed.

Lemma isAlreadyDead_victim victims t :
  isAlreadyDead victims t = true ↔ t ∈ victims.*1.
Proof.
  unfold isAlreadyDead. rewrite bool_decide_eq_true. split.
  - intros [[i v] Hfind]. apply list_find_Some in Hfind as (Hv & <- & _).
    apply list_elem_of_fmap. exists v. split; [done|].
    by eapply list_elem_of_lookup_2.
  - intros ([t' c] & -> & Hin)%list_elem_of_fmap.
    by eapply list_find_elem_of.
Qed.

(** Step three. *)
Lemma impostorKill_killable roster actionsSnap t :
  let victims := bugDeaths roster actionsSnap in
  (t ≠ "" → killable roster actionsSnap t →
   impostorKill roster actionsSnap victims (Some t) = victims ++ [(t, "impostor")])
  ∧ (t = "" ∨ ¬ killable roster actionsSnap t →
     impostorKill roster actionsSnap victims (Some t) = victims).
Proof.
  intros victims. unfold impostorKill, killable. fold victims.
  destruct (decide (t = "")) as [->|Hne].
  { split; [done|]. intros _. by rewrite bool_decide_eq_false_2 by naive_solver. }
  rewrite bool_decide_eq_true_2 by done.
  destruct (roster !! t) as [target|] eqn:Htarget.
  2:{ split; [by intros _ [(d & [=] & _) _]|done]. }
  destruct (isAlive target) eqn:Halive; simpl.
  2:{ split; [|done]. intros _ [(d & [= <-] & Hd & _) _]. congruence. }
  destruct (isAlreadyDead victims t) eqn:Hdead; simpl.
  { apply isAlreadyDead_victim in Hdead. split; [|done].
    by intros _ (_ & Hnot & _). }
  destruct (isProtected actionsSnap t) eqn:Hprot.
  { apply isProtected_fallen_angel in Hprot. split; [|done].
    by intros _ (_ & _ & Hnot). }
  case_bool_decide as Hbug.
  { split; [|done]. intros _ [(d & [= <-] & _ & Hd) _]. done. }
  split; [done|]. intros [?|Hnot]; [done|]. exfalso. apply Hnot.
  split; [by exists target|]. split.
  - intros Hin. apply isAlreadyDead_victim in Hin. congruence.
  - intros Hin. apply isProtected_fallen_angel in Hin. congruence.
Qed.
End nightVictims.

Section applyDeaths.
Implicit Types (roster : gmap string PlayerDoc) (w : World)
  (victims : list Victim) (v : Victim).

Lemma lookup_playersById (playersSnap : list (string * PlayerDoc))
    (acc : gmap string PlayerDoc) id :
  foldl (λ players (doc : string * PlayerDoc), <[doc.1 := doc.2]> players)
        acc playersSnap !! id
  = match list_find (λ doc : string * PlayerDoc, doc.1 = id)
                    (reverse playersSnap) with
    | Some (_, doc) => Some doc.2
    | None => acc !! id
    end.
Proof.
  induction playersSnap as [|doc l IH] using rev_ind; [done|].
  rewrite foldl_snoc, reverse_snoc. cbn [list_find]. case_decide as Hid.
  - simpl. rewrite <- Hid. apply lookup_insert_eq.
  - rewrite lookup_insert_ne by done. rewrite IH.
    by destruct (list_find _ (reverse l)) as [[i d]|].
Qed.

Lemma playersById_snapshot roster : playersById (snapshot roster) = roster.
Proof.
  apply map_eq. intros id. unfold playersById. rewrite lookup_playersById.
  destruct (list_find _ _) as [[i [id' d]]|] eqn:Hfind.
  - apply list_find_Some in Hfind as (Hdoc & Hid & _). simpl in Hid. subst id'.
    symmetry. apply elem_of_snapshot. apply elem_of_reverse.
    by eapply list_elem_of_lookup_2.
  - rewrite lookup_empty. symmetry. apply eq_None_not_Some. intros [d Hd].
    apply list_find_None in Hfind.
    apply elem_of_snapshot, elem_of_reverse in Hd.
    by eapply (proj1 (Forall_forall _ _) Hfind) in Hd.
Qed.

Lemma lookup_foldl_markDead victims (m : gmap string PlayerDoc) id :
  foldl (λ m v, alter markDead v.1 m) m victims !! id
  = if decide (id ∈ victims.*1) then markDead <$> m !! id else m !! id.
Proof.
  induction victims as [|v l IH] using rev_ind.
  - rewrite decide_False; [done|]. apply not_elem_of_nil.
  - rewrite foldl_snoc, fmap_snoc.
    destruct (decide (id = v.1)) as [->|Hne].
    + rewrite lookup_alter_eq, IH.
      rewrite (decide_True (P := v.1 ∈ l.*1 ++ [v.1]))
        by (apply elem_of_app; right; apply list_elem_of_here).
      case_decide; [|done]. by destruct (m !! v.1).
    + rewrite lookup_alter_ne, IH by done.
      destruct (decide (id ∈ l.*1)) as [Hin|Hnotin].
      * rewrite decide_True; [done|]. apply elem_of_app. by left.
      * rewrite decide_False; [done|].
        intros [?|?%list_elem_of_singleton]%elem_of_app; done.
Qed.

Lemma lookup_foldl_deathLog (entry : Victim → DeathLogEntry) victims
    (m : gmap string DeathLogEntry) id :
  (id ∉ victims.*1 →
   foldl (λ m v, <[v.1 := entry v]> m) m victims !! id = m !! id)
  ∧ (∀ e, id ∈ victims.*1 → (∀ v, v ∈ victims → v.1 = id → entry v = e) →
     foldl (λ m v, <[v.1 := entry v]> m) m victims !! id = Some e).
Proof.
  induction victims as [|v l [IHout IHin]] using rev_ind.
  - split; [done|]. by intros e ?%elem_of_nil.
  - rewrite fmap_snoc. split.
    + intros [Hl Hv]%not_elem_of_app. rewrite foldl_snoc.
      rewrite lookup_insert_ne; [by apply IHout|].
      intros Hid. apply Hv. rewrite <- Hid. apply list_elem_of_here.
    + intros e Hin Hsame. rewrite foldl_snoc.
      destruct (decide (v.1 = id)) as [Hid|Hne].
      * rewrite <- Hid, lookup_insert_eq. f_equal. apply Hsame; [|done].
        apply elem_of_app. right. apply list_elem_of_here.
      * rewrite lookup_insert_ne by done. apply IHin.
        -- apply elem_of_app in Hin as [?|Hin]; [done|].
           apply list_elem_of_singleton in Hin. congruence.
        -- intros v' Hv'. apply Hsame, elem_of_app. by left.
Qed.

(** The death-log entry [processMorning] writes for a victim. *)
Lemma applyDeath_known day roster v w d target :
  players w !! v.1 = Some d → roster !! v.1 = Some target →
  applyDeath day roster v w
  = (Returned tt,
     set_deathLog
       (<[v.1 := mkDeath v.2 day (role target) (clock w)]> (deathLog w))
       (set_players (alter markDead v.1 (players w)) w)).
Proof.
  intros Hd Htarget. unfold applyDeath. cbn [promiseAll].
  rewrite (updateDoc_alter playersRef) by (simpl; by rewrite Hd).
  unfold mbind, M_bind, dataOf. rewrite Htarget. done.
Qed.

Lemma promiseAll_applyDeath day roster victims w :
  (∀ v, v ∈ victims → is_Some (players w !! v.1) ∧ is_Some (roster !! v.1)) →
  promiseAll victims (applyDeath day roster) w
  = (Returned tt,
     set_deathLog
       (foldl (λ m v, <[v.1 := mkDeath v.2 day
                                (default None (role <$> roster !! v.1))
                                (clock w)]> m)
              (deathLog w) victims)
       (set_players (foldl (λ m v, alter markDead v.1 m) (players w) victims)
                    w)).
Proof.
  revert w. induction victims as [|v l IH]; intros w Hknown.
  - by destruct w.
  - destruct (Hknown v) as [[d Hd] [target Htarget]];
      [apply list_elem_of_here|].
    cbn [promiseAll foldl].
    rewrite (applyDeath_known day roster v w d target) by done.
    rewrite IH.
    + simpl. by rewrite Htarget.
    + intros v' Hv'. simpl. split; [|by apply Hknown, list_elem_of_further].
      apply lookup_alter_is_Some. by apply Hknown, list_elem_of_further.
Qed.
End applyDeaths.

Section processMorning.
Implicit Types (roster : gmap string PlayerDoc) (w : World) (now : Z)
  (actionsSnap : list (string * ActionDoc))
  (playersSnap : list (string * PlayerDoc)).

Lemma elem_of_bugDeaths roster actionsSnap id c :
  (id, c) ∈ bugDeaths roster actionsSnap →
  c = "bug_death"
  ∧ ∃ d, roster !! id = Some d ∧ isAlive d = true ∧ role d = Some "bug".
Proof.
  unfold bugDeaths.
  intros (doc & [= -> ->] & [Hbug _]%list_elem_of_filter)%list_elem_of_fmap.
  split; [done|]. unfold isLivingBug in Hbug.
  destruct (roster !! targetId doc.2) as [d|]; [|done].
  apply andb_true_iff in Hbug as [Halive Hrole%bool_decide_eq_true].
  by exists d.
Qed.

(** The victims of a night: the bugs the engineers found, then at most
    one living player the impostors reached. *)
Lemma nightVictims_cases now playersSnap actionsSnap :
  let roster := playersById playersSnap in
  nightVictims now playersSnap actionsSnap = bugDeaths roster actionsSnap
  ∨ ∃ t, (identifyImpostorTarget now actionsSnap).1 = Some t
         ∧ t ≠ "" ∧ killable roster actionsSnap t
         ∧ nightVictims now playersSnap actionsSnap
           = bugDeaths roster actionsSnap ++ [(t, "impostor")].
Proof.
  intros roster. unfold nightVictims. fold roster.
  rewrite engineerVictims_bugDeaths.
  destruct (identifyImpostorTarget now actionsSnap).1 as [t|]; [|by left].
  destruct (impostorKill_killable roster actionsSnap t) as [Hkill Hkeep].
  destruct (decide (t = "")) as [->|Hne]; [left; apply Hkeep; by left|].
  destruct (decide
    (impostorKill roster actionsSnap (bugDeaths roster actionsSnap) (Some t)
     = bugDeaths roster actionsSnap)) as [Heq|Hneq]; [by left|].
  assert (killable roster actionsSnap t) as Hkillable.
  { unfold impostorKill, killable in *.
    rewrite bool_decide_eq_true_2 in Hneq by done.
    destruct (roster !! t) as [target|]; [|done].
    destruct (isAlive target) eqn:Halive; [|done].
    destruct (isAlreadyDead _ t) eqn:Hdead; [done|].
    destruct (isProtected actionsSnap t) eqn:Hprot; [done|].
    simpl in Hneq. case_bool_decide as Hbug; [done|].
    split; [by exists target|]. split.
    - intros Hin. apply isAlreadyDead_victim in Hin. congruence.
    - intros Hin. apply isProtected_fallen_angel in Hin. congruence. }
  right. exists t. repeat (split; [done|]). by apply Hkill.
Qed.

Lemma nightVictims_alive now playersSnap actionsSnap id c :
  (id, c) ∈ nightVictims now playersSnap actionsSnap →
  ∃ d, playersById playersSnap !! id = Some d ∧ isAlive d = true.
Proof.
  destruct (nightVictims_cases now playersSnap actionsSnap)
    as [->|(t & _ & _ & [(d & Hd & Halive & _) _] & ->)].
  - intros (_ & d & Hd & Halive & _)%elem_of_bugDeaths. by exists d.
  - intros [Hin|Hin]%elem_of_app.
    + apply elem_of_bugDeaths in Hin as (_ & d' & Hd' & Halive' & _).
      by exists d'.
    + apply list_elem_of_singleton in Hin as [= -> ->]. by exists d.
Qed.

Lemma nightVictims_one_cause now playersSnap actionsSnap id c c' :
  (id, c) ∈ nightVictims now playersSnap actionsSnap →
  (id, c') ∈ nightVictims now playersSnap actionsSnap → c = c'.
Proof.
  destruct (nightVictims_cases now playersSnap actionsSnap)
    as [->|(t & _ & _ & (_ & Hfresh & _) & ->)].
  - intros [-> _]%elem_of_bugDeaths [-> _]%elem_of_bugDeaths. done.
  - assert (∀ x, (t, x) ∉ bugDeaths (playersById playersSnap) actionsSnap)
      as Hnot.
    { intros x Hx. apply Hfresh. apply list_elem_of_fmap. by exists (t, x). }
    intros [Hin|Hin]%elem_of_app [Hin'|Hin']%elem_of_app.
    + apply elem_of_bugDeaths in Hin as [-> _].
      by apply elem_of_bugDeaths in Hin' as [-> _].
    + apply list_elem_of_singleton in Hin' as [= -> ->]. by apply Hnot in Hin.
    + apply list_elem_of_singleton in Hin as [= -> ->]. by apply Hnot in Hin'.
    + apply list_elem_of_singleton in Hin as [= -> ->].
      by apply list_elem_of_singleton in Hin' as [= ->].
Qed.

Lemma processMorning_host w me r :
  currentPlayer w = Some me → cp_isHost me = true → room w = Some r →
  let victims :=
    nightVictims (clock w) (snapshot (players w)) (snapshot (nightActions w)) in
  processMorning w
  = (Returned tt,
     mkWorld (Some me) (activeTimer w)
       (Some (mkRoom (hostId r) (status r) (day r + 1)))
       (foldl (λ m v, alter markDead v.1 m) (players w) victims)
       (settings w)
       (Some (mkGameState MORNING_ANNOUNCEMENT (versionOf w + 1)
                (Some MORNING_ANNOUNCEMENT, clock w) (clock w) (cp_id me)
                (mergePayload (default noPayload (payload <$> gameState w))
                              (victimsPayload victims))))
       (votes w) (nightActions w)
       (foldl (λ m v, <[v.1 := mkDeath v.2 (day r)
                                (default None (role <$> players w !! v.1))
                                (clock w)]> m)
              (deathLog w) victims)
       (voteHistory w) (timer w) (presence w) (clock w) (entropy w)).
Proof.
  intros Hme Hhost Hroom victims. unfold processMorning.
  rewrite (hostOnly_host _ _ _ me) by done.
  unfold tryCatch, mbind at 1 2 3 4 5, M_bind at 1 2 3 4 5, getDocs, get,
    Date_now, dataOf.
  simpl. rewrite Hroom. fold victims.
  unfold mret at 1, M_ret at 1. cbn beta iota.
  unfold mbind at 1, M_bind at 1.
  rewrite promiseAll_applyDeath.
  - rewrite playersById_snapshot.
    unfold mbind, M_bind, updateRoom. simpl. rewrite Hroom.
    rewrite (setState_host _ me) by done.
    unfold set_gameState, set_room, set_deathLog, set_players. simpl.
    by rewrite increment1_versionOf, Hme.
  - intros [id c] Hv. rewrite playersById_snapshot. simpl.
    apply nightVictims_alive in Hv as (d & Hd & _).
    rewrite playersById_snapshot in Hd. rewrite Hd. eauto.
Qed.

(** C5. The victims of a night are, in this order, the targets of the
    engineer actions that are alive with role bug, each with cause
    bug_death, and then at most one victim with cause impostor: the target
    of an impostor action that no other impostor action precedes in time,
    added exactly when it is alive, not a victim of step one, not the
    target of a fallen-angel action and not the bug.  [processMorning]
    announces these victims, marks them dead and logs their deaths, and
    leaves every other player and death-log entry as it was.  The times of
    the impostor actions are taken to be nonzero, as server timestamps
    are. *)
Theorem processMorning_resolution :
  (∀ now playersSnap actionsSnap,
     (∀ doc, doc ∈ ofType "impostor" actionsSnap →
             actionTime now doc.2 ≠ 0%Z) →
     let roster := playersById playersSnap in
     let victims := nightVictims now playersSnap actionsSnap in
     (ofType "impostor" actionsSnap = [] →
      victims = bugDeaths roster actionsSnap)
     ∧ (ofType "impostor" actionsSnap ≠ [] →
        ∃ a, earliestImpostor now actionsSnap a
             ∧ (identifyImpostorTarget now actionsSnap).1 = Some (targetId a)
             ∧ (targetId a ≠ "" → killable roster actionsSnap (targetId a) →
                victims = bugDeaths roster actionsSnap
                          ++ [(targetId a, "impostor")])
             ∧ (targetId a = "" ∨ ¬ killable roster actionsSnap (targetId a) →
                victims = bugDeaths roster actionsSnap)))
  ∧ (∀ w me r,
       currentPlayer w = Some me → cp_isHost me = true → room w = Some r →
       let victims :=
         nightVictims (clock w) (snapshot (players w))
                      (snapshot (nightActions w)) in
       let w' := run processMorning w in
       result processMorning w = Returned tt
       ∧ playersById (snapshot (players w)) = players w
       ∧ (∃ g, gameState w' = Some g ∧ phase g = MORNING_ANNOUNCEMENT
               ∧ p_victims (payload g) = Some victims.*1)
       ∧ (∀ id, id ∉ victims.*1 →
            players w' !! id = players w !! id
            ∧ deathLog w' !! id = deathLog w !! id)
       ∧ (∀ id c, (id, c) ∈ victims →
            ∃ d, players w !! id = Some d ∧ isAlive d = true
                 ∧ players w' !! id = Some (markDead d)
                 ∧ deathLog w' !! id
                   = Some (mkDeath c (day r) (role d) (clock w)))).
Proof.
  split.
  - intros now playersSnap actionsSnap Hnz roster victims.
    pose proof (identifyImpostorTarget_earliest now actionsSnap Hnz) as Hid.
    subst victims. unfold nightVictims. fold roster.
    rewrite engineerVictims_bugDeaths.
    destruct (identifyImpostorTarget now actionsSnap) as [[t|] [e|]];
      simpl in Hid; try done.
    destruct Hid as (a & Ha & -> & ->). split.
    + intros Hnone. destruct Ha as [Ha _]. rewrite Hnone in Ha.
      by apply elem_of_nil in Ha.
    + intros _. exists a. split; [done|]. split; [done|].
      apply impostorKill_killable.
  - intros w me r Hme Hhost Hroom victims w'.
    subst w'. unfold run, result.
    rewrite (processMorning_host w me r) by done. fold victims. simpl.
    split; [done|]. split; [apply playersById_snapshot|].
    split; [eexists; split; [reflexivity|done]|]. split.
    + intros id Hid. rewrite lookup_foldl_markDead, decide_False by done.
      split; [done|]. by apply lookup_foldl_deathLog.
    + intros id c Hv.
      destruct (nightVictims_alive _ _ _ _ _ Hv) as (d & Hd & Halive).
      rewrite playersById_snapshot in Hd.
      assert (id ∈ victims.*1) as Hin
        by (apply list_elem_of_fmap; by exists (id, c)).
      exists d. split; [done|]. split; [done|]. split.
      * by rewrite lookup_foldl_markDead, decide_True, Hd.
      * apply lookup_foldl_deathLog; [done|].
        intros [id' c'] Hv' Hid'. simpl in Hid'. subst id'. simpl.
        rewrite Hd. simpl. f_equal.
        by eapply nightVictims_one_cause.
Qed.

Lemma processMorning_resolution_witness :
  nightVictims 2000 nightRoster nightUnguarded
  = [("B", "bug_death"); ("C", "impostor")]
  ∧ nightVictims 2000 nightRoster nightGuarded = [("B", "bug_death")].
Proof.
  assert (∀ acts, ofType "impostor" acts
                  = [("A", mkAction "impostor" "C" (Some 1700%Z))] →
            ∀ doc, doc ∈ ofType "impostor" acts →
                   actionTime 2000 doc.2 ≠ 0%Z) as Hnz.
  { intros acts -> doc ->%list_elem_of_singleton. discriminate. }
  split.
  - destruct (proj1 processMorning_resolution 2000%Z nightRoster
                nightUnguarded (Hnz nightUnguarded eq_refl)) as [_ Hsome].
    destruct Hsome as (a & _ & Ha & Hkill & _); [discriminate|].
    change (Some "C" = Some (targetId a)) in Ha.
    injection Ha as Ha. rewrite <- Ha in Hkill.
    apply Hkill; [discriminate|].
    split; [|split].
    + eexists. split; [reflexivity|]. split; [reflexivity|discriminate].
    + vm_compute. by intros [[= ]|?%elem_of_nil]%elem_of_cons.
    + vm_compute. by intros [[= ]|?%elem_of_nil]%elem_of_cons.
  - destruct (proj1 processMorning_resolution 2000%Z nightRoster
                nightGuarded (Hnz nightGuarded eq_refl)) as [_ Hsome].
    destruct Hsome as (a & _ & Ha & _ & Hkeep); [discriminate|].
    change (Some "C" = Some (targetId a)) in Ha.
    injection Ha as Ha. rewrite <- Ha in Hkeep.
    apply Hkeep. right.
    intros (_ & _ & Hfree). apply Hfree. vm_compute. apply list_elem_of_here.
Defined.
End processMorning.


(** * The all-submitted checks *)

Section checks.
Implicit Types (w : World) (me : CurrentPlayer).

(** The check of the night specialists reads the phase before it moves
    on: outside NIGHT_SPECIAL it writes nothing. *)
Lemma checkEDSubmitted_guarded w :
  (∀ g, gameState w = Some g → phase g ≠ NIGHT_SPECIAL) →
  run checkEDSubmitted w = w.
Proof.
  intros Hphase. unfold run, checkEDSubmitted, mbind, M_bind, getDocs, get,
    getState, this_currentPlayer. simpl.
  case_bool_decide as Hall; [|done].
  destruct (currentPlayer w) as [me|]; [|done].
  destruct (cp_isHost me); [|done]. simpl.
  destruct (gameState w) as [g|] eqn:Hg; [|done]. simpl.
  rewrite bool_decide_eq_false_2; [done|]. by apply Hphase.
Qed.

Lemma checkEDSubmitted_effect w :
  run checkEDSubmitted w = w
  ∨ ∃ g, gameState (run checkEDSubmitted w) = Some g
         ∧ phase g = NIGHT_IMPOSTOR
         ∧ versionOf (run checkEDSubmitted w) = versionOf w + 1.
Proof.
  unfold run, checkEDSubmitted, mbind, M_bind, getDocs, get, getState,
    this_currentPlayer. simpl.
  case_bool_decide as Hall; [|by left].
  destruct (currentPlayer w) as [me|] eqn:Hme; [|by left].
  destruct (cp_isHost me) eqn:Hhost; [|by left]. simpl.
  destruct (gameState w) as [g|] eqn:Hg; [|by left]. simpl.
  case_bool_decide as Hphase; [|by left].
  right. rewrite (setState_host _ me) by done. simpl.
  eexists. split; [reflexivity|]. split; [done|].
  by rewrite increment1_versionOf.
Qed.

Lemma checkEDSubmitted_once w :
  versionOf (run checkEDSubmitted (run checkEDSubmitted w)) ≤ versionOf w + 1.
Proof.
  destruct (checkEDSubmitted_effect w) as [Hsame|(g & Hg & Hphase & Hv)].
  - rewrite Hsame.
    destruct (checkEDSubmitted_effect w) as [->|(_ & _ & _ & ->)]; lia.
  - rewrite checkEDSubmitted_guarded; [lia|].
    intros g' Hg'. rewrite Hg in Hg'. injection Hg' as <-. by rewrite Hphase.
Qed.

Lemma processMorning_effect w :
  gameState (run processMorning w) = gameState w
  ∨ ∃ g, gameState (run processMorning w) = Some g
         ∧ phase g = MORNING_ANNOUNCEMENT
         ∧ versionOf (run processMorning w) = versionOf w + 1.
Proof.
  destruct (currentPlayer w) as [me|] eqn:Hme.
  2:{ left. unfold run, processMorning, mbind, M_bind, this_currentPlayer.
      by rewrite Hme. }
  destruct (cp_isHost me) eqn:Hhost.
  2:{ left. unfold run, processMorning.
      rewrite hostOnly_guest; [done|]. by exists me. }
  destruct (room w) as [r|] eqn:Hroom.
  - right. unfold run. rewrite (processMorning_host w me r) by done. simpl.
    eexists. split; [reflexivity|]. done.
  - left. unfold run, processMorning.
    rewrite (hostOnly_host _ _ _ me) by done.
    unfold tryCatch, mbind, M_bind, getDocs, get, Date_now, dataOf. simpl.
    by rewrite Hroom.
Qed.

(** The check of the impostor reads the phase as well. *)
Lemma checkImpostorSubmitted_guarded w :
  (∀ g, gameState w = Some g → phase g ≠ NIGHT_IMPOSTOR) →
  run checkImpostorSubmitted w = w.
Proof.
  intros Hphase. unfold run, checkImpostorSubmitted, mbind, M_bind, getDocs,
    get, getState, this_currentPlayer. simpl.
  destruct (foldl _ false _); [|done].
  destruct (currentPlayer w) as [me|]; [|done].
  destruct (cp_isHost me); [|done]. simpl.
  destruct (gameState w) as [g|] eqn:Hg; [|done]. simpl.
  rewrite bool_decide_eq_false_2; [done|]. by apply Hphase.
Qed.

Lemma checkImpostorSubmitted_effect w :
  run checkImpostorSubmitted w = w
  ∨ run checkImpostorSubmitted w = run processMorning w.
Proof.
  unfold run at 1 2, checkImpostorSubmitted, mbind, M_bind, getDocs,
    get, getState, this_currentPlayer. simpl.
  destruct (foldl _ false _); [|by left].
  destruct (currentPlayer w) as [me|]; [|by left].
  destruct (cp_isHost me); [|by left]. simpl.
  destruct (gameState w) as [g|] eqn:Hg; [|by left]. simpl.
  case_bool_decide as Hphase; [|by left].
  right. unfold run. by destruct (processMorning w) as [[[]|e] w'].
Qed.

Lemma versionOf_gameState w w' :
  gameState w' = gameState w → versionOf w' = versionOf w.
Proof. unfold versionOf. by intros ->. Qed.

Lemma checkImpostorSubmitted_once w :
  versionOf (run checkImpostorSubmitted (run checkImpostorSubmitted w))
  ≤ versionOf w + 1.
Proof.
  assert (∀ w0, versionOf (run checkImpostorSubmitted w0) ≤ versionOf w0 + 1)
    as Hstep.
  { intros w0. destruct (checkImpostorSubmitted_effect w0) as [->| ->]; [lia|].
    destruct (processMorning_effect w0) as [Hsame|(_ & _ & _ & ->)]; [|lia].
    rewrite (versionOf_gameState _ _ Hsame). lia. }
  destruct (checkImpostorSubmitted_effect w) as [Hsame|Hmorning].
  - rewrite Hsame. apply Hstep.
  - rewrite Hmorning.
    destruct (processMorning_effect w) as [Hsame|(g & Hg & Hphase & Hv)].
    + rewrite <- (versionOf_gameState _ _ Hsame). apply Hstep.
    + rewrite checkImpostorSubmitted_guarded; [lia|].
      intros g' Hg'. rewrite Hg in Hg'. injection Hg' as <-. by rewrite Hphase.
Qed.

Lemma checkAllPlayersReadRole_host w me s :
  currentPlayer w = Some me → cp_isHost me = true → settings w = Some s →
  (∀ id d, players w !! id = Some d → roleReadConfirmed d = true) →
  checkAllPlayersReadRole w
  = (Returned true,
     set_activeTimer (Some (mkTimer (meeting (timers s)) TimerMeeting))
       (set_timer (Some (mkTimer (meeting (timers s)) TimerMeeting))
          (set_gameState
             (Some (mkGameState MEETING_DISCUSSION (versionOf w + 1)
                      (Some MEETING_DISCUSSION, clock w) (clock w) (cp_id me)
                      (mergePayload
                         (default noPayload (payload <$> gameState w))
                         noPayload)))
             w))).
Proof.
  intros Hme Hhost Hsettings Hread.
  unfold checkAllPlayersReadRole, mbind at 1 2, M_bind at 1 2,
    getDocs, get. simpl.
  assert (foldl (λ (allRead : bool) (doc : string * PlayerDoc),
                   if negb (roleReadConfirmed doc.2) then false else allRead)
                true (snapshot (players w)) = true) as ->.
  { assert (∀ doc, doc ∈ snapshot (players w) →
              roleReadConfirmed doc.2 = true) as Hall.
    { intros [id d] Hin. apply elem_of_snapshot in Hin. by eapply Hread. }
    induction (snapshot (players w)) as [|doc l IH]; [done|].
    simpl. rewrite (Hall doc) by apply list_elem_of_here. simpl.
    apply IH. intros d Hd. by apply Hall, list_elem_of_further. }
  unfold mbind, M_bind, this_currentPlayer. rewrite Hme, Hhost.
  rewrite (setState_host _ me) by done.
  unfold startMeetingTimer, mbind, M_bind, this_currentPlayer, get, dataOf.
  simpl. rewrite Hme, Hhost. simpl. rewrite Hsettings. simpl.
  by rewrite increment1_versionOf.
Qed.

(** The check of the confirmed role reads does not read the phase: as
    long as everybody has confirmed, every call by the host moves the
    room to MEETING_DISCUSSION again. *)
Lemma checkAllPlayersReadRole_unguarded w me s :
  currentPlayer w = Some me → cp_isHost me = true → settings w = Some s →
  (∀ id d, players w !! id = Some d → roleReadConfirmed d = true) →
  versionOf (run checkAllPlayersReadRole w) = versionOf w + 1
  ∧ (phase <$> gameState (run checkAllPlayersReadRole w))
    = Some MEETING_DISCUSSION
  ∧ currentPlayer (run checkAllPlayersReadRole w) = Some me
  ∧ settings (run checkAllPlayersReadRole w) = Some s
  ∧ players (run checkAllPlayersReadRole w) = players w.
Proof.
  intros Hme Hhost Hsettings Hread. unfold run.
  by rewrite (checkAllPlayersReadRole_host w me s).
Qed.

Lemma checkAllPlayersReadRole_twice w me s :
  currentPlayer w = Some me → cp_isHost me = true → settings w = Some s →
  (∀ id d, players w !! id = Some d → roleReadConfirmed d = true) →
  versionOf (run checkAllPlayersReadRole (run checkAllPlayersReadRole w))
  = versionOf w + 2.
Proof.
  intros Hme Hhost Hsettings Hread.
  destruct (checkAllPlayersReadRole_unguarded w me s)
    as (Hv & _ & Hme' & Hs' & Hp'); [done..|].
  destruct (checkAllPlayersReadRole_unguarded
              (run checkAllPlayersReadRole w) me s) as (Hv' & _);
    [done..| |].
  - rewrite Hp'. done.
  - rewrite Hv', Hv. lia.
Qed.

Lemma processVotes_version w me r :
  currentPlayer w = Some me → cp_isHost me = true → room w = Some r →
  votes w ≠ ∅ →
  versionOf (run processVotes w) = versionOf w + 1.
Proof.
  intros Hme Hhost Hroom Hvotes.
  destruct (tally_votes (votes w)) as (targets & Htally & _ & _ & Hne).
  unfold run. rewrite (processVotes_host w me) by done.
  cbv zeta. rewrite Htally. cbn [snd]. case_bool_decide as Hlen.
  - unfold mbind, M_bind. rewrite (setState_host _ me) by done. simpl.
    apply increment1_versionOf.
  - destruct targets as [|victimId rest]; [by destruct Hne|].
    destruct (archiveVotes_history (snapshot (votes w)) w r Hroom)
      as [history Harchive].
    unfold mbind, M_bind. rewrite Harchive. simpl.
    destruct (killPlayer_victim (countVotes (snapshot (votes w))) victimId
                (set_voteHistory history w) me r)
      as (w' & g & Hkill & Hg & _ & Hv & _); [done..|].
    rewrite Hkill. simpl. unfold versionOf at 1. by rewrite Hg, Hv.
Qed.

Lemma length_alivePlayers (playersSnap : list (string * PlayerDoc)) acc :
  length (foldl (λ alivePlayers (doc : string * PlayerDoc),
                   if isAlive doc.2 then alivePlayers ++ [doc.1]
                   else alivePlayers) acc playersSnap)
  = length acc
    + length (filter (λ doc : string * PlayerDoc,
                        isAlive doc.2 = true ∧ True) playersSnap).
Proof.
  revert acc. induction playersSnap as [|[id d] l IH]; intros acc; simpl.
  - lia.
  - rewrite IH, filter_cons. simpl. destruct (isAlive d).
    + rewrite decide_True by done. rewrite length_app. simpl. lia.
    + by rewrite decide_False by (by intros [? _]).
Qed.

Lemma checkAllVoted_host w me r :
  currentPlayer w = Some me → cp_isHost me = true → room w = Some r →
  votes w ≠ ∅ → living (λ _, True) (players w) ≤ size (votes w) →
  checkAllVoted w = (Returned true, run processVotes w).
Proof.
  intros Hme Hhost Hroom Hvotes Hall.
  unfold checkAllVoted, mbind at 1 2 3, M_bind at 1 2 3, getDocs, get. simpl.
  rewrite bool_decide_eq_true_2.
  2:{ rewrite (length_alivePlayers _ []), length_snapshot. simpl.
      unfold living in Hall. by rewrite size_filter_snapshot in Hall. }
  unfold mbind, M_bind, this_currentPlayer. rewrite Hme, Hhost.
  destruct (processVotes_returns w me r) as [res Hres]; [done..|].
  unfold result in Hres. unfold run.
  destruct (processVotes w) as [out w'] eqn:Hrun. simpl in *. by subst out.
Qed.

(** Neither does the check of the votes: as long as every living player
    has voted, every call by the host tallies the votes and writes the
    result again, whatever the phase. *)
Lemma checkAllVoted_unguarded w me r :
  currentPlayer w = Some me → cp_isHost me = true → room w = Some r →
  votes w ≠ ∅ → living (λ _, True) (players w) ≤ size (votes w) →
  result checkAllVoted w = Returned true
  ∧ versionOf (run checkAllVoted w) = versionOf w + 1.
Proof.
  intros Hme Hhost Hroom Hvotes Hall. unfold result, run at 1.
  rewrite (checkAllVoted_host w me r) by done. simpl.
  split; [done|]. by eapply processVotes_version.
Qed.

(** C7, at the two checks that miss the guard.  In a room where all five
    living players have voted, the host's first [checkAllVoted] moves the
    room to VOTE_RESULT at version 4 and archives the five votes; the
    second call, made after the phase has advanced, tallies and archives
    the same votes again and writes version 5.  In a room where every
    player has confirmed the role, two calls of
    [checkAllPlayersReadRole] enter MEETING_DISCUSSION twice, at
    versions 4 and 5. *)
Theorem aggregation_checks_retrigger :
  (let w := exampleRoom hostSession VOTING fivePlayers votesComplete [] in
   let w1 := run checkAllVoted w in
   let w2 := run checkAllVoted w1 in
   versionOf w = 3
   ∧ (phase <$> gameState w1) = Some VOTE_RESULT ∧ versionOf w1 = 4
   ∧ size (voteHistory w1) = 5
   ∧ (phase <$> gameState w2) = Some VOTE_RESULT ∧ versionOf w2 = 5
   ∧ size (voteHistory w2) = 10)
  ∧ (let w := exampleRoom hostSession ROLE_REVEAL fivePlayers [] [] in
     let w1 := run checkAllPlayersReadRole w in
     let w2 := run checkAllPlayersReadRole w1 in
     versionOf w = 3
     ∧ (phase <$> gameState w1) = Some MEETING_DISCUSSION ∧ versionOf w1 = 4
     ∧ (phase <$> gameState w2) = Some MEETING_DISCUSSION
     ∧ versionOf w2 = 5).
Proof. vm_compute. repeat split. Qed.
End checks.


(** * Dealing the roles *)

Section shuffleArray.
Context {A : Type}.
Implicit Types (l array : list A) (w : World).

Lemma set_entropy_id w : set_entropy (entropy w) w = w.
Proof. by destruct w. Qed.

Lemma randomBelow_draw n w :
  randomBelow n w
  = (Returned (default 0 ((λ x, x mod n) <$> head (entropy w))),
     set_entropy (drop 1 (entropy w)) w).
Proof.
  unfold randomBelow. destruct (entropy w) as [|x rest] eqn:He; simpl.
  - by rewrite <- He, set_entropy_id.
  - by rewrite drop_0.
Qed.

Lemma swap_Permutation i j l : swap i j l ≡ₚ l.
Proof.
  unfold swap. destruct (l !! i) as [xi|] eqn:Hi; [|done].
  destruct (l !! j) as [xj|] eqn:Hj; [|done].
  by apply Permutation_insert_swap.
Qed.

Lemma shuffleFrom_Permutation i l w :
  ∃ shuffled,
    shuffleFrom i l w
    = (Returned shuffled, set_entropy (drop i (entropy w)) w)
    ∧ shuffled ≡ₚ l.
Proof.
  revert l w. induction i as [|i IH]; intros l w.
  - exists l. split; [|done]. simpl. by rewrite drop_0, set_entropy_id.
  - cbn [shuffleFrom]. unfold mbind, M_bind. rewrite randomBelow_draw.
    destruct (IH (swap (S i)
                    (default 0 ((λ x, x mod (S i + 1)) <$> head (entropy w))) l)
                 (set_entropy (drop 1 (entropy w)) w))
      as (shuffled & -> & Hperm).
    exists shuffled. split.
    + simpl. by rewrite drop_drop.
    + by rewrite Hperm, swap_Permutation.
Qed.

(** X1. Whatever [Math.random] yields, [shuffleArray] returns a rearrangement
    of its argument: nothing is lost, duplicated or invented.  An array of
    [n] elements costs [n - 1] draws. *)
Theorem shuffleArray_Permutation array w :
  ∃ shuffled,
    shuffleArray array w
    = (Returned shuffled,
       set_entropy (drop (length array - 1) (entropy w)) w)
    ∧ shuffled ≡ₚ array
    ∧ length shuffled = length array.
Proof.
  destruct (shuffleFrom_Permutation (length array - 1) array w)
    as (shuffled & Heq & Hperm).
  exists shuffled. split; [done|]. split; [done|]. by rewrite Hperm.
Qed.
End shuffleArray.

Section startGame.
Implicit Types (w : World) (me : CurrentPlayer) (s : Settings) (r : RoomDoc)
  (shuffled : list string) (all : list (string * PlayerDoc)).

Lemma startGame_step all k id d (patch : PlayerDoc → PlayerDoc) w :
  all !! k = Some (id, d) → players w !! id = Some d →
  (id ← docRef (fst <$> all !! k); updateDoc playersRef id patch) w
  = (Returned tt, set_players (<[id := patch d]> (players w)) w).
Proof.
  intros Hk Hd. unfold mbind, M_bind. rewrite Hk. simpl.
  unfold updateDoc. simpl. by rewrite Hd.
Qed.

(** The loop of [startGame] from index [k] on: the players from [k] on get
    their role, the others keep their document. *)
Lemma startGame_loop shuffled all n k w :
  NoDup all.*1 → k + n = length all →
  (∀ j id d, k ≤ j → all !! j = Some (id, d) → players w !! id = Some d) →
  ∃ roster,
    forM_ (seq k n) (λ i,
      id ← docRef (fst <$> all !! i);
      updateDoc playersRef id (λ d,
        mkPlayer (name d) (isHost d) (isAlive d) (shuffled !! i) false
                 (connected d))) w
    = (Returned tt, set_players roster w)
    ∧ (∀ j id d, k ≤ j → all !! j = Some (id, d) →
         roster !! id = Some (dealt (shuffled !! j) d))
    ∧ (∀ id, (∀ j d, k ≤ j → all !! j ≠ Some (id, d)) →
         roster !! id = players w !! id).
Proof.
  intros Hnd. revert k w. induction n as [|n IH]; intros k w Hlen Hknown.
  - exists (players w). split; [by destruct w|]. split; [|done].
    intros j id d Hj Hdoc. apply lookup_lt_Some in Hdoc. lia.
  - destruct (lookup_lt_is_Some_2 all k) as [[id d] Hk]; [lia|].
    cbn [seq forM_]. unfold mbind at 1, M_bind at 1.
    rewrite (startGame_step all k id d) by (done || by apply (Hknown k)).
    set (w1 := set_players _ w).
    assert (∀ j id' d', S k ≤ j → all !! j = Some (id', d') → id' ≠ id)
      as Hfresh.
    { intros j id' d' Hj Hdoc ->.
      assert (k = j); [|lia].
      eapply NoDup_lookup; [exact Hnd| |];
        rewrite list_lookup_fmap; [by rewrite Hk|by rewrite Hdoc]. }
    destruct (IH (S k) w1) as (roster & Hrun & Hdealt & Hkept).
    { lia. }
    { intros j id' d' Hj Hdoc. unfold w1. simpl.
      rewrite lookup_insert_ne; [apply (Hknown j); [lia|done]|].
      intros ->. by eapply Hfresh. }
    exists roster. split; [by rewrite Hrun|]. split.
    + intros j id' d' Hj Hdoc. destruct (decide (j = k)) as [->|Hne].
      * rewrite Hk in Hdoc. injection Hdoc as <- <-.
        rewrite Hkept.
        -- unfold w1. simpl. by rewrite lookup_insert_eq.
        -- intros j d' Hj' Hdoc. by eapply Hfresh.
      * apply Hdealt; [lia|done].
    + intros id' Hout. rewrite Hkept.
      * unfold w1. simpl. rewrite lookup_insert_ne; [done|].
        intros ->. by eapply (Hout k).
      * intros j d' Hj. apply Hout. lia.
Qed.

Lemma lookup_seq_roles shuffled n :
  length shuffled = n →
  (λ i, shuffled !! i) <$> seq 0 n = Some <$> shuffled.
Proof.
  intros <-. apply list_eq. intros i. rewrite !list_lookup_fmap.
  destruct (decide (i < length shuffled)) as [Hlt|Hge].
  - rewrite lookup_seq_lt by done. simpl.
    by destruct (lookup_lt_is_Some_2 shuffled i Hlt) as [x ->].
  - rewrite lookup_seq_ge by lia. by rewrite lookup_ge_None_2 by lia.
Qed.

(** [startGame] up to the last player update: the roles are shuffled and
    dealt in the order of the snapshot. *)
Lemma startGame_dealing w me s :
  currentPlayer w = Some me → cp_isHost me = true → settings w = Some s →
  ∃ shuffled roster,
    shuffled ≡ₚ assignRoles (size (players w)) (roles s)
    ∧ roster
      = list_to_map (imap (λ i doc, (doc.1, dealt (shuffled !! i) doc.2))
                          (snapshot (players w)))
    ∧ startGame w
      = (updateRoom (λ r, mkRoom (hostId r) "ingame" (day r));;
         setState ROLE_REVEAL noPayload)
          (set_players roster
             (set_entropy (drop (size (players w) - 1) (entropy w)) w)).
Proof.
  intros Hme Hhost Hsettings. unfold startGame.
  rewrite (hostOnly_host _ _ _ me) by done.
  unfold mbind at 1 2 3, M_bind at 1 2 3, getDocs, get, dataOf. simpl.
  rewrite Hsettings. simpl. rewrite length_snapshot.
  unfold mbind at 1, M_bind at 1, shuffleArray.
  destruct (shuffleFrom_Permutation
              (length (assignRoles (size (players w)) (roles s)) - 1)
              (assignRoles (size (players w)) (roles s)) w)
    as (shuffled & -> & Hperm).
  assert (length shuffled = size (players w)) as Hlen.
  { rewrite Hperm, assignRoles_eq, length_take, length_app, length_replicate,
      length_expand. lia. }
  assert (length (assignRoles (size (players w)) (roles s)) = size (players w))
    as -> by (by rewrite <- Hperm).
  set (w0 := set_entropy _ w).
  destruct (startGame_loop shuffled (snapshot (players w))
              (size (players w)) 0 w0)
    as (roster & Hloop & Hdealt & Hkept).
  { apply NoDup_fst_snapshot. }
  { by rewrite length_snapshot. }
  { intros j id d _ Hdoc. unfold w0. simpl. apply elem_of_snapshot.
    by eapply list_elem_of_lookup_2. }
  exists shuffled, roster. split; [done|].
  assert (roster
          = list_to_map (imap (λ i doc, (doc.1, dealt (shuffled !! i) doc.2))
                              (snapshot (players w)))) as Hroster.
  { assert ((imap (λ i (doc : string * PlayerDoc),
                     (doc.1, dealt (shuffled !! i) doc.2))
                  (snapshot (players w))).*1 = (snapshot (players w)).*1)
      as Hkeys.
    { rewrite fmap_imap. rewrite <- (imap_const fst). by apply imap_ext. }
    apply map_eq. intros id.
    destruct (decide (id ∈ (snapshot (players w)).*1)) as [Hin|Hout].
    - apply list_elem_of_fmap in Hin as ([id' d] & -> & Hin).
      apply list_elem_of_lookup in Hin as [j Hj]. simpl.
      rewrite (Hdealt j id' d) by (lia || done). symmetry.
      apply elem_of_list_to_map_1.
      + rewrite Hkeys. apply NoDup_fst_snapshot.
      + apply elem_of_lookup_imap. by exists j, (id', d).
    - rewrite Hkept.
      + unfold w0. simpl. rewrite (not_elem_of_list_to_map_1 _ id)
          by (by rewrite Hkeys).
        apply eq_None_not_Some. intros [d Hd]. apply Hout.
        apply list_elem_of_fmap. exists (id, d). split; [done|].
        by apply elem_of_snapshot.
      + intros j d _ Hdoc. apply Hout. apply list_elem_of_fmap.
        exists (id, d). split; [done|]. by eapply list_elem_of_lookup_2. }
  split; [done|].
  unfold mbind at 1, M_bind at 1. by rewrite Hloop.
Qed.

(** What the players hold after the deal. *)
Lemma dealt_roster shuffled (roster : gmap string PlayerDoc) :
  length shuffled = size roster →
  let roster' : gmap string PlayerDoc :=
    list_to_map (imap (λ i doc, (doc.1, dealt (shuffled !! i) doc.2))
                      (snapshot roster)) in
  rolesHeld roster' ≡ₚ Some <$> shuffled
  ∧ dom roster' = dom roster
  ∧ ∀ id d, roster !! id = Some d →
            ∃ ro, roster' !! id = Some (dealt (Some ro) d).
Proof.
  intros Hlen roster'.
  assert ((imap (λ i (doc : string * PlayerDoc),
                   (doc.1, dealt (shuffled !! i) doc.2))
                (snapshot roster)).*1 = (snapshot roster).*1) as Hkeys.
  { rewrite fmap_imap. rewrite <- (imap_const fst). by apply imap_ext. }
  assert (NoDup (imap (λ i (doc : string * PlayerDoc),
                         (doc.1, dealt (shuffled !! i) doc.2))
                      (snapshot roster)).*1) as Hnd
    by (rewrite Hkeys; apply NoDup_fst_snapshot).
  split; [|split].
  - unfold rolesHeld, roster'. rewrite (map_to_list_to_map _ Hnd).
    rewrite <- list_fmap_compose, fmap_imap.
    rewrite (imap_ext _ (λ i _, shuffled !! i)) by done.
    rewrite imap_seq_0, length_snapshot. by rewrite lookup_seq_roles.
  - unfold roster'. rewrite dom_list_to_map_L, Hkeys.
    apply set_eq. intros id. rewrite elem_of_list_to_set, elem_of_dom.
    rewrite list_elem_of_fmap. split.
    + intros ([id' d] & -> & Hin). apply elem_of_snapshot in Hin. eauto.
    + intros [d Hd]. exists (id, d). split; [done|]. by apply elem_of_snapshot.
  - intros id d Hd. apply elem_of_snapshot, list_elem_of_lookup in Hd as [j Hj].
    destruct (lookup_lt_is_Some_2 shuffled j) as [ro Hro].
    { rewrite Hlen, <- length_snapshot. by eapply lookup_lt_Some. }
    exists ro. unfold roster'. apply elem_of_list_to_map_1; [done|].
    apply elem_of_lookup_imap. exists j, (id, d). by rewrite Hro.
Qed.

Lemma occurrences_Some (ro : string) (deck : list string) :
  length (filter (λ x, x = Some ro) (Some <$> deck)) = occurrences ro deck.
Proof.
  unfold occurrences. induction deck as [|x deck IH]; [done|].
  rewrite fmap_cons, !filter_cons.
  repeat case_decide; simplify_eq; simpl; by rewrite IH.
Qed.

(** X2. When the host starts a game in a room that has its settings, every
    player is dealt one role of the deck [assignRoles] builds for the
    number of players, each card of the deck going to exactly one player;
    the players otherwise keep their documents, with the role read
    unconfirmed; the room is in game and the phase is ROLE_REVEAL.  When the
    configured counts add up to the number of players, every role is held
    by exactly as many players as configured. *)
Theorem startGame_deals_the_deck w me s r :
  currentPlayer w = Some me → cp_isHost me = true →
  settings w = Some s → room w = Some r →
  result startGame w = Returned tt
  ∧ rolesHeld (players (run startGame w))
    ≡ₚ Some <$> assignRoles (size (players w)) (roles s)
  ∧ dom (players (run startGame w)) = dom (players w)
  ∧ (∀ id d, players w !! id = Some d →
       ∃ ro, players (run startGame w) !! id = Some (dealt (Some ro) d))
  ∧ room (run startGame w) = Some (mkRoom (hostId r) "ingame" (day r))
  ∧ (phase <$> gameState (run startGame w)) = Some ROLE_REVEAL
  ∧ versionOf (run startGame w) = versionOf w + 1
  ∧ (sumCounts (roles s) = size (players w) →
     ∀ ro, length (filter (λ x, x = Some ro)
                          (rolesHeld (players (run startGame w))))
           = configured ro (roles s)).
Proof.
  intros Hme Hhost Hsettings Hroom.
  destruct (startGame_dealing w me s) as (shuffled & roster & Hperm & -> & Hrun);
    [done..|].
  assert (length shuffled = size (players w)) as Hlen.
  { rewrite Hperm, assignRoles_eq, length_take, length_app, length_replicate,
      length_expand. lia. }
  destruct (dealt_roster shuffled (players w) Hlen) as (Hroles & Hdom & Hdocs).
  unfold result, run. rewrite Hrun.
  unfold mbind, M_bind, updateRoom. simpl. rewrite Hroom.
  rewrite (setState_host _ me) by done. simpl.
  split; [done|]. split; [by rewrite Hroles, Hperm|].
  split; [done|]. split; [done|]. split; [done|]. split; [done|].
  split; [apply increment1_versionOf|].
  intros Hsum ro.
  assert (length (filter (λ x, x = Some ro) (Some <$> shuffled))
          = configured ro (roles s)) as <-.
  { rewrite occurrences_Some. unfold occurrences.
    rewrite Hperm, assignRoles_eq.
    replace (size (players w) - sumCounts (roles s)) with 0 by lia.
    simpl. rewrite app_nil_r, take_ge by (rewrite length_expand; lia).
    apply occurrences_expand. }
  apply Permutation_length. by rewrite Hroles.
Qed.

Lemma startGame_deals_the_deck_witness :
  let w := exampleRoom hostSession LOBBY fivePlayers [] [] in
  rolesHeld (players (run startGame w))
  ≡ₚ Some <$> assignRoles 5 (roles defaultSettings).
Proof.
  intros w.
  apply (startGame_deals_the_deck w hostSession defaultSettings
           (mkRoom "u1" "ingame" 2)); reflexivity.
Defined.

(** X3. [startGame] has no handler of its own.  Without a settings document it
    rejects before it writes anything; without a room document it rejects
    when the roles are dealt already, and the phase stays where it was. *)
Theorem startGame_rejects w me :
  currentPlayer w = Some me → cp_isHost me = true →
  (settings w = None → startGame w = (Threw TypeError, w))
  ∧ (∀ s, settings w = Some s → room w = None →
       result startGame w = Threw NotFound
       ∧ gameState (run startGame w) = gameState w
       ∧ rolesHeld (players (run startGame w))
         ≡ₚ Some <$> assignRoles (size (players w)) (roles s)).
Proof.
  intros Hme Hhost. split.
  - intros Hsettings. unfold startGame.
    rewrite (hostOnly_host _ _ _ me) by done.
    unfold mbind, M_bind, getDocs, get, dataOf. simpl. by rewrite Hsettings.
  - intros s Hsettings Hroom.
    destruct (startGame_dealing w me s)
      as (shuffled & roster & Hperm & -> & Hrun); [done..|].
    assert (length shuffled = size (players w)) as Hlen.
    { rewrite Hperm, assignRoles_eq, length_take, length_app, length_replicate,
        length_expand. lia. }
    destruct (dealt_roster shuffled (players w) Hlen) as (Hroles & _).
    unfold result, run. rewrite Hrun.
    unfold mbind, M_bind, updateRoom. simpl. rewrite Hroom. simpl.
    split; [done|]. split; [done|]. by rewrite Hroles, Hperm.
Qed.

Lemma startGame_rejects_witness :
  let w := set_settings None (exampleRoom hostSession LOBBY fivePlayers [] []) in
  startGame w = (Threw TypeError, w).
Proof.
  intros w. by apply (startGame_rejects w hostSession).
Defined.
End startGame.


(** * What a vote leaves in the room *)

Section ballot.
Implicit Types (w : World) (me : CurrentPlayer) (r : RoomDoc)
  (vs : gmap string VoteDoc).

Lemma sum_bump t voteCount :
  sum_list (bump t voteCount).*2 = sum_list voteCount.*2 + 1.
Proof.
  induction voteCount as [|[k c] rest IH]; [done|]. cbn [bump].
  case_bool_decide; rewrite !fmap_cons; cbn [sum_list_with];
    rewrite ?IH; simpl; lia.
Qed.

(** X4. Every vote document is counted once: the counts of the tally object
    add up to the number of votes. *)
Theorem countVotes_total vs :
  sum_list (countVotes (snapshot vs)).*2 = size vs.
Proof.
  rewrite <- length_snapshot. unfold countVotes.
  induction (snapshot vs) as [|doc l IH] using rev_ind; [done|].
  rewrite foldl_snoc, sum_bump, IH, length_app. simpl. lia.
Qed.

Lemma votesFor_voter vs t :
  0 < votesFor t vs → ∃ voter v, vs !! voter = Some v ∧ vote_targetId v = t.
Proof.
  unfold votesFor. intros Hpos.
  destruct (map_choose (filter (λ doc, vote_targetId doc.2 = t) vs))
    as (voter & v & Hv).
  { intros Hempty. rewrite Hempty, map_size_empty in Hpos. lia. }
  apply map_lookup_filter_Some in Hv as [Hv Ht]. by exists voter, v.
Qed.

Lemma votesFor_le_plurality vs t : votesFor t vs ≤ plurality vs.
Proof.
  destruct (decide (0 < votesFor t vs)) as [Hpos|]; [|lia].
  destruct (votesFor_voter vs t Hpos) as (voter & v & Hv & <-).
  unfold plurality. apply max_list_elem_of_le, list_elem_of_fmap.
  exists (voter, v). split; [done|]. by apply elem_of_map_to_list.
Qed.

Lemma votesFor_empty t : votesFor t ∅ = 0.
Proof. unfold votesFor. by rewrite map_filter_empty, map_size_empty. Qed.

(** Being ahead of every target somebody voted for is being ahead of
    every target. *)
Lemma ahead_of_the_voted vs victimId :
  0 < votesFor victimId vs →
  Forall (λ doc, vote_targetId doc.2 = victimId
                 ∨ votesFor (vote_targetId doc.2) vs < votesFor victimId vs)
         (map_to_list vs) →
  ∀ t, t ≠ victimId → votesFor t vs < votesFor victimId vs.
Proof.
  intros Hpos Hall t Hneq.
  destruct (decide (0 < votesFor t vs)) as [Ht|]; [|lia].
  destruct (votesFor_voter vs t Ht) as (voter & v & Hv & <-).
  rewrite Forall_forall in Hall.
  destruct (Hall (voter, v)) as [|]; [by apply elem_of_map_to_list|done..].
Qed.

(** One target ahead of every other one is the only entry of [targets]. *)
Lemma tally_single vs victimId :
  0 < votesFor victimId vs →
  (∀ t, t ≠ victimId → votesFor t vs < votesFor victimId vs) →
  (tally (countVotes (snapshot vs))).2 = [victimId].
Proof.
  intros Hpos Hahead.
  destruct (tally_votes vs) as (targets & -> & Hnd & Hmem & Hne). simpl.
  assert (vs ≠ ∅) as Hvs.
  { intros ->. rewrite votesFor_empty in Hpos. lia. }
  specialize (Hne Hvs).
  assert (∀ t, t ∈ targets → t = victimId) as Hall.
  { intros t [_ Ht]%Hmem. destruct (decide (t = victimId)) as [|Hneq]; [done|].
    specialize (Hahead t Hneq). pose proof (votesFor_le_plurality vs victimId).
    lia. }
  destruct targets as [|a [|b l]]; [done| |].
  - f_equal. apply Hall, list_elem_of_here.
  - assert (a = victimId) as -> by apply Hall, list_elem_of_here.
    assert (b = victimId) as ->
      by apply Hall, list_elem_of_further, list_elem_of_here.
    apply NoDup_cons in Hnd as [Hnotin _]. destruct Hnotin.
    apply list_elem_of_here.
Qed.

(** Two targets that share the plurality make [targets] a tie. *)
Lemma tally_tied vs a b :
  a ≠ b → 0 < plurality vs →
  votesFor a vs = plurality vs → votesFor b vs = plurality vs →
  a ∈ (tally (countVotes (snapshot vs))).2
  ∧ b ∈ (tally (countVotes (snapshot vs))).2
  ∧ 1 < length (tally (countVotes (snapshot vs))).2.
Proof.
  intros Hab Hpos Ha Hb.
  destruct (tally_votes vs) as (targets & -> & Hnd & Hmem & _). simpl.
  assert (a ∈ targets) as Hina by (apply Hmem; lia).
  assert (b ∈ targets) as Hinb by (apply Hmem; lia).
  split; [done|]. split; [done|].
  destruct targets as [|x [|y l]]; simpl; [|
    apply list_elem_of_singleton in Hina, Hinb; congruence | lia].
  by apply elem_of_nil in Hina.
Qed.

(** The entries [archiveVotes] adds. *)
Lemma archiveVotes_entries votesSnap w r :
  room w = Some r →
  ∃ history,
    archiveVotes votesSnap w = (Returned tt, set_voteHistory history w)
    ∧ (map_to_list history).*2
      ≡ₚ historyEntries w ++ archived (day r) (clock w) votesSnap.
Proof.
  intros Hroom. unfold archiveVotes, mbind, M_bind, get, dataOf. simpl.
  rewrite Hroom. simpl. clear Hroom. unfold historyEntries.
  assert (∀ history, ∃ history',
    promiseAll votesSnap
      (λ doc, λ w0,
         match serverTimestamp w0 with
         | (Returned ts, w') =>
             addHistory (mkHistory (day r) doc.1 (vote_targetId doc.2) ts) w'
         | (Threw e, w') => (Threw e, w')
         end)
      (set_voteHistory history w)
    = (Returned tt, set_voteHistory history' w)
    ∧ (map_to_list history').*2
      ≡ₚ (map_to_list history).*2 ++ archived (day r) (clock w) votesSnap)
    as Hloop.
  { induction votesSnap as [|doc l IH]; intros history; simpl.
    - exists history. by rewrite app_nil_r.
    - destruct (IH (<[fresh (dom history)
                      := mkHistory (day r) doc.1 (vote_targetId doc.2) (clock w)]>
                      history)) as (history' & Heq & Hperm).
      exists history'. split; [exact Heq|].
      rewrite Hperm, map_to_list_insert
        by apply not_elem_of_dom, is_fresh.
      simpl. by rewrite <- Permutation_middle. }
  destruct (Hloop (voteHistory w)) as (history & Heq & Hperm).
  exists history. split; [|done]. rewrite <- Heq. by destruct w.
Qed.

Lemma processVotes_kill w me r victimId playerData :
  currentPlayer w = Some me → cp_isHost me = true → room w = Some r →
  0 < votesFor victimId (votes w) →
  (∀ t, t ≠ victimId → votesFor t (votes w) < votesFor victimId (votes w)) →
  players w !! victimId = Some playerData →
  ∃ history,
    (map_to_list history).*2
    ≡ₚ historyEntries w ++ archived (day r) (clock w) (snapshot (votes w))
    ∧ processVotes w
      = (Returned (Some (Killed victimId (name playerData))),
         set_gameState
           (Some (mkGameState VOTE_RESULT (versionOf w + 1)
                    (Some VOTE_RESULT, clock w) (clock w) (cp_id me)
                    (mergePayload (default noPayload (payload <$> gameState w))
                       (killedPayload victimId (name playerData)
                          (countVotes (snapshot (votes w)))))))
           (set_deathLog
              (<[victimId := mkDeath "vote" (day r) (role playerData) (clock w)]>
                 (deathLog w))
              (set_players (<[victimId := markDead playerData]> (players w))
                 (set_voteHistory history w)))).
Proof.
  intros Hme Hhost Hroom Hpos Hahead Hplayer.
  rewrite (processVotes_host w me) by done. simpl.
  rewrite (tally_single _ victimId) by done. simpl.
  destruct (archiveVotes_entries (snapshot (votes w)) w r Hroom)
    as (history & Harchive & Hperm).
  exists history. split; [done|].
  unfold mbind at 1, M_bind at 1. rewrite Harchive.
  unfold killPlayer, mbind, M_bind, getDoc, get, updateDoc, dataOf. simpl.
  rewrite Hplayer. simpl. rewrite Hplayer. simpl. rewrite Hroom. simpl.
  rewrite (setState_host _ me) by done. simpl.
  by rewrite increment1_versionOf.
Qed.

Lemma processVotes_left w me r victimId :
  currentPlayer w = Some me → cp_isHost me = true → room w = Some r →
  0 < votesFor victimId (votes w) →
  (∀ t, t ≠ victimId → votesFor t (votes w) < votesFor victimId (votes w)) →
  players w !! victimId = None →
  ∃ history,
    (map_to_list history).*2
    ≡ₚ historyEntries w ++ archived (day r) (clock w) (snapshot (votes w))
    ∧ processVotes w
      = (Returned (Some (Killed victimId "Unknown")),
         set_gameState
           (Some (mkGameState VOTE_RESULT (versionOf w + 1)
                    (Some VOTE_RESULT, clock w) (clock w) (cp_id me)
                    (mergePayload (default noPayload (payload <$> gameState w))
                       (leftPayload victimId))))
           (set_voteHistory history w)).
Proof.
  intros Hme Hhost Hroom Hpos Hahead Hplayer.
  rewrite (processVotes_host w me) by done. simpl.
  rewrite (tally_single _ victimId) by done. simpl.
  destruct (archiveVotes_entries (snapshot (votes w)) w r Hroom)
    as (history & Harchive & Hperm).
  exists history. split; [done|].
  unfold mbind at 1, M_bind at 1. rewrite Harchive.
  unfold killPlayer, mbind, M_bind, getDoc, get. simpl.
  rewrite Hplayer. simpl.
  rewrite (setState_host _ me) by done. simpl.
  by rewrite increment1_versionOf.
Qed.

(** X5. When one player is ahead of every other target and still has a
    document, the host's [processVotes] marks that player dead and nobody
    else, logs the death with cause vote, the day of the room and the
    victim's role, adds one history entry per vote and leaves the votes
    themselves in place; the record carries the victim and the counts. *)
Theorem processVotes_kill_effects w me r victimId playerData :
  currentPlayer w = Some me → cp_isHost me = true → room w = Some r →
  0 < votesFor victimId (votes w) →
  (∀ t, t ≠ victimId → votesFor t (votes w) < votesFor victimId (votes w)) →
  players w !! victimId = Some playerData →
  let w' := run processVotes w in
  result processVotes w = Returned (Some (Killed victimId (name playerData)))
  ∧ players w' = <[victimId := markDead playerData]> (players w)
  ∧ deathLog w'
    = <[victimId := mkDeath "vote" (day r) (role playerData) (clock w)]>
        (deathLog w)
  ∧ historyEntries w'
    ≡ₚ historyEntries w ++ archived (day r) (clock w) (snapshot (votes w))
  ∧ votes w' = votes w
  ∧ room w' = Some r
  ∧ gameState w'
    = Some (mkGameState VOTE_RESULT (versionOf w + 1)
              (Some VOTE_RESULT, clock w) (clock w) (cp_id me)
              (mergePayload (default noPayload (payload <$> gameState w))
                 (killedPayload victimId (name playerData)
                    (countVotes (snapshot (votes w)))))).
Proof.
  intros Hme Hhost Hroom Hpos Hahead Hplayer w'. subst w'.
  destruct (processVotes_kill w me r victimId playerData)
    as (history & Hperm & Heq); [done..|].
  unfold result, run, historyEntries. rewrite Heq. simpl.
  by repeat split.
Qed.

Lemma processVotes_kill_effects_witness :
  let w := exampleRoom hostSession VOTING fivePlayers votesDecided [] in
  players (run processVotes w)
  = <[ "A" := markDead (player "Ana" (Some "citizen") true) ]> (players w).
Proof.
  intros w.
  apply (processVotes_kill_effects w hostSession (mkRoom "u1" "ingame" 2) "A"
           (player "Ana" (Some "citizen") true)); try reflexivity.
  - vm_compute. lia.
  - apply ahead_of_the_voted; [vm_compute; lia|].
    apply (bool_decide_unpack _). by vm_compute.
Defined.

(** X6. When the player ahead of every other target has no document any more,
    the host's [processVotes] kills nobody and logs no death; the ballot
    is archived all the same, the method answers with the name Unknown and
    the record holds Unknown (Left), with the vote counts of the record
    left as they were. *)
Theorem processVotes_victim_left w me r victimId :
  currentPlayer w = Some me → cp_isHost me = true → room w = Some r →
  0 < votesFor victimId (votes w) →
  (∀ t, t ≠ victimId → votesFor t (votes w) < votesFor victimId (votes w)) →
  players w !! victimId = None →
  let w' := run processVotes w in
  result processVotes w = Returned (Some (Killed victimId "Unknown"))
  ∧ players w' = players w
  ∧ deathLog w' = deathLog w
  ∧ historyEntries w'
    ≡ₚ historyEntries w ++ archived (day r) (clock w) (snapshot (votes w))
  ∧ ∃ g, gameState w' = Some g
         ∧ phase g = VOTE_RESULT
         ∧ version g = versionOf w + 1
         ∧ p_result (payload g) = Some "killed"
         ∧ p_victimId (payload g) = Some victimId
         ∧ p_victimName (payload g) = Some "Unknown (Left)"
         ∧ p_voteCounts (payload g)
           = ((gameState w) ≫= (λ g0, p_voteCounts (payload g0))).
Proof.
  intros Hme Hhost Hroom Hpos Hahead Hplayer w'. subst w'.
  destruct (processVotes_left w me r victimId)
    as (history & Hperm & Heq); [done..|].
  unfold result, run, historyEntries. rewrite Heq. simpl.
  split; [done|]. split; [done|]. split; [done|]. split; [done|].
  eexists. split; [done|]. simpl.
  repeat split. by destruct (gameState w).
Qed.

Lemma processVotes_victim_left_witness :
  let w := exampleRoom hostSession VOTING [("B", player "Ben" None true)]
             [("B", mkVote "A" 1500%Z)] [] in
  result processVotes w = Returned (Some (Killed "A" "Unknown")).
Proof.
  intros w.
  apply (processVotes_victim_left w hostSession (mkRoom "u1" "ingame" 2) "A");
    try reflexivity.
  - vm_compute. lia.
  - apply ahead_of_the_voted; [vm_compute; lia|].
    apply (bool_decide_unpack _). by vm_compute.
Defined.

(** X7. When two targets share the plurality, the host's [processVotes] only
    writes the game-state record: no player dies, no death is logged, the
    ballot is not archived and the votes stay; the room document is not
    even read. *)
Theorem processVotes_tie_effects w me a b :
  currentPlayer w = Some me → cp_isHost me = true →
  a ≠ b → 0 < plurality (votes w) →
  votesFor a (votes w) = plurality (votes w) →
  votesFor b (votes w) = plurality (votes w) →
  ∃ targets,
    a ∈ targets ∧ b ∈ targets
    ∧ processVotes w
      = (Returned (Some (Tie targets)),
         set_gameState
           (Some (mkGameState VOTE_RESULT (versionOf w + 1)
                    (Some VOTE_RESULT, clock w) (clock w) (cp_id me)
                    (mergePayload (default noPayload (payload <$> gameState w))
                       (tiePayload targets (countVotes (snapshot (votes w)))))))
           w).
Proof.
  intros Hme Hhost Hab Hpos Ha Hb.
  destruct (tally_tied (votes w) a b) as (Hina & Hinb & Hlen); [done..|].
  exists (tally (countVotes (snapshot (votes w)))).2.
  split; [done|]. split; [done|].
  rewrite (processVotes_host w me) by done. simpl.
  rewrite bool_decide_eq_true_2 by done.
  unfold mbind, M_bind. rewrite (setState_host _ me) by done.
  by rewrite increment1_versionOf.
Qed.

Lemma processVotes_tie_effects_witness :
  let w := exampleRoom hostSession VOTING fivePlayers votesTied [] in
  ∃ targets, "A" ∈ targets ∧ "B" ∈ targets
             ∧ result processVotes w = Returned (Some (Tie targets)).
Proof.
  intros w.
  destruct (processVotes_tie_effects w hostSession "A" "B")
    as (targets & Ha & Hb & Heq); try (vm_compute; (done || lia)).
  exists targets. split; [done|]. split; [done|].
  unfold result. by rewrite Heq.
Defined.
End ballot.


(** * From one phase to the next *)

Section flow.
Implicit Types (w : World) (me : CurrentPlayer) (s : Settings) (g : GameState).

Lemma setState_stamped w me ph data :
  currentPlayer w = Some me → cp_isHost me = true →
  setState ph data w = (Returned tt, set_gameState (Some (stamped w me ph data)) w).
Proof.
  intros Hme Hhost. rewrite (setState_host w me) by done.
  unfold stamped. by rewrite increment1_versionOf.
Qed.

Lemma startMeetingTimer_host w me :
  currentPlayer w = Some me → cp_isHost me = true →
  startMeetingTimer w
  = match settings w with
    | Some s => (Returned tt, counting (meeting (timers s)) TimerMeeting w)
    | None => (Threw TypeError, w)
    end.
Proof.
  intros Hme Hhost. unfold startMeetingTimer.
  rewrite (hostOnly_host _ _ _ me) by done.
  unfold mbind, M_bind, get, dataOf. simpl. by destruct (settings w).
Qed.

Lemma startBreakTimer_host w me :
  currentPlayer w = Some me → cp_isHost me = true →
  startBreakTimer w
  = match settings w with
    | Some s => (Returned tt, counting (break (timers s)) TimerBreak w)
    | None => (Threw TypeError, w)
    end.
Proof.
  intros Hme Hhost. unfold startBreakTimer.
  rewrite (hostOnly_host _ _ _ me) by done.
  unfold mbind, M_bind, get, dataOf. simpl. by destruct (settings w).
Qed.

Lemma startVotingTimer_host w me :
  currentPlayer w = Some me → cp_isHost me = true →
  startVotingTimer w
  = match settings w with
    | Some s =>
        (Returned tt, counting (vote (timers s)) TimerVoting (set_votes ∅ w))
    | None => (Threw TypeError, set_votes ∅ w)
    end.
Proof.
  intros Hme Hhost. unfold startVotingTimer.
  rewrite (hostOnly_host _ _ _ me) by done.
  unfold mbind at 1 2 3, M_bind at 1 2 3, getDocs, get. simpl.
  rewrite (forM_deleteDoc votesRef fst). simpl.
  rewrite foldl_delete_snapshot.
  unfold mbind, M_bind, dataOf. by destruct (settings w).
Qed.

(** X8. The host's [proceedAfterVote] looks at the result stored in the record
    and at nothing else, whatever the phase: after a tie the room is back
    in MEETING_DISCUSSION with the meeting countdown; after a kill it is in
    GAME_RESULT under the winner [checkWinCondition] names, or in BREAK
    with the break countdown when there is none; with any other result
    nothing is written.  Without a settings document the tie branch rejects
    once the phase is written. *)
Theorem proceedAfterVote_routes w me g :
  currentPlayer w = Some me → cp_isHost me = true → gameState w = Some g →
  (p_result (payload g) = Some "tie" →
   ∀ s, settings w = Some s →
     proceedAfterVote w
     = (Returned tt,
        counting (meeting (timers s)) TimerMeeting
          (set_gameState (Some (stamped w me MEETING_DISCUSSION noPayload)) w)))
  ∧ (p_result (payload g) = Some "killed" →
     ∀ winner, result checkWinCondition w = Returned (Some winner) →
       proceedAfterVote w
       = (Returned tt,
          set_gameState
            (Some (stamped w me GAME_RESULT (winnerPayload winner))) w))
  ∧ (p_result (payload g) = Some "killed" →
     result checkWinCondition w = Returned None →
     ∀ s, settings w = Some s →
       proceedAfterVote w
       = (Returned tt,
          counting (break (timers s)) TimerBreak
            (set_gameState (Some (stamped w me BREAK noPayload)) w)))
  ∧ (p_result (payload g) ≠ Some "tie" →
     p_result (payload g) ≠ Some "killed" →
     proceedAfterVote w = (Returned tt, w))
  ∧ (p_result (payload g) = Some "tie" → settings w = None →
     proceedAfterVote w
     = (Threw TypeError,
        set_gameState (Some (stamped w me MEETING_DISCUSSION noPayload)) w)).
Proof.
  intros Hme Hhost Hg.
  assert (proceedAfterVote w
          = if bool_decide (p_result (payload g) = Some "tie") then
              (setState MEETING_DISCUSSION noPayload;; startMeetingTimer) w
            else if bool_decide (p_result (payload g) = Some "killed") then
              (winner ← checkWinCondition;
               match winner with
               | Some winner => setState GAME_RESULT (winnerPayload winner)
               | None => setState BREAK noPayload;; startBreakTimer
               end) w
            else (Returned tt, w)) as Heq.
  { unfold proceedAfterVote. rewrite (hostOnly_host _ _ _ me) by done.
    unfold mbind at 1, M_bind at 1, getState, get. rewrite Hg.
    by repeat case_bool_decide. }
  rewrite Heq. clear Heq.
  split; [|split; [|split; [|split]]].
  - intros Htie s Hs. rewrite bool_decide_eq_true_2 by done.
    unfold mbind, M_bind. rewrite (setState_stamped w me) by done.
    rewrite (startMeetingTimer_host _ me) by done. simpl. by rewrite Hs.
  - intros Hkilled winner Hwin.
    rewrite bool_decide_eq_false_2 by congruence.
    rewrite bool_decide_eq_true_2 by done.
    unfold result in Hwin. rewrite checkWinCondition_unfold in Hwin.
    simpl in Hwin. unfold mbind, M_bind. rewrite checkWinCondition_unfold.
    injection Hwin as ->. by rewrite (setState_stamped w me).
  - intros Hkilled Hwin s Hs.
    rewrite bool_decide_eq_false_2 by congruence.
    rewrite bool_decide_eq_true_2 by done.
    unfold result in Hwin. rewrite checkWinCondition_unfold in Hwin.
    simpl in Hwin. unfold mbind at 1, M_bind at 1.
    rewrite checkWinCondition_unfold.
    injection Hwin as ->.
    unfold mbind, M_bind. rewrite (setState_stamped w me) by done.
    rewrite (startBreakTimer_host _ me) by done. simpl. by rewrite Hs.
  - intros Htie Hkilled. by rewrite !bool_decide_eq_false_2.
  - intros Htie Hs. rewrite bool_decide_eq_true_2 by done.
    unfold mbind, M_bind. rewrite (setState_stamped w me) by done.
    rewrite (startMeetingTimer_host _ me) by done. simpl. by rewrite Hs.
Qed.

Lemma proceedAfterVote_routes_witness :
  let w := run processVotes
             (exampleRoom hostSession VOTING fivePlayers votesTied []) in
  (phase <$> gameState w) = Some VOTE_RESULT
  ∧ proceedAfterVote w
    = (Returned tt,
       counting 300 TimerMeeting
         (set_gameState
            (Some (stamped w hostSession MEETING_DISCUSSION noPayload)) w)).
Proof.
  intros w. split; [reflexivity|].
  destruct (proceedAfterVote_routes w hostSession
              (default (stamped w hostSession VOTE_RESULT noPayload)
                       (gameState w)) eq_refl eq_refl eq_refl)
    as [Htie _].
  apply (Htie eq_refl defaultSettings eq_refl).
Defined.

(** X9. The host's [proceedAfterMorning] ends the game under the winner
    [checkWinCondition] names and otherwise reopens the discussion with
    the meeting countdown.  Whatever is thrown on the way is caught: without
    a settings document the method still returns, the phase written and no
    countdown running. *)
Theorem proceedAfterMorning_routes w me :
  currentPlayer w = Some me → cp_isHost me = true →
  (∀ winner, result checkWinCondition w = Returned (Some winner) →
     proceedAfterMorning w
     = (Returned tt,
        set_gameState (Some (stamped w me GAME_RESULT (winnerPayload winner))) w))
  ∧ (result checkWinCondition w = Returned None →
     ∀ s, settings w = Some s →
       proceedAfterMorning w
       = (Returned tt,
          counting (meeting (timers s)) TimerMeeting
            (set_gameState
               (Some (stamped w me MEETING_DISCUSSION noPayload)) w)))
  ∧ (result checkWinCondition w = Returned None → settings w = None →
     proceedAfterMorning w
     = (Returned tt,
        set_gameState (Some (stamped w me MEETING_DISCUSSION noPayload)) w)).
Proof.
  intros Hme Hhost.
  assert (proceedAfterMorning w
          = tryCatch (winner ← checkWinCondition;
                      match winner with
                      | Some winner => setState GAME_RESULT (winnerPayload winner)
                      | None => setState MEETING_DISCUSSION noPayload;;
                                startMeetingTimer
                      end) w) as ->.
  { unfold proceedAfterMorning. by rewrite (hostOnly_host _ _ _ me). }
  unfold tryCatch, result. rewrite checkWinCondition_unfold. simpl.
  split; [|split].
  - intros winner Hwin. injection Hwin as Hwin.
    unfold mbind, M_bind. rewrite checkWinCondition_unfold, Hwin.
    by rewrite (setState_stamped w me).
  - intros Hwin s Hs. injection Hwin as Hwin.
    unfold mbind at 1, M_bind at 1. rewrite checkWinCondition_unfold, Hwin.
    unfold mbind, M_bind. rewrite (setState_stamped w me) by done.
    rewrite (startMeetingTimer_host _ me) by done. simpl. by rewrite Hs.
  - intros Hwin Hs. injection Hwin as Hwin.
    unfold mbind at 1, M_bind at 1. rewrite checkWinCondition_unfold, Hwin.
    unfold mbind, M_bind. rewrite (setState_stamped w me) by done.
    rewrite (startMeetingTimer_host _ me) by done. simpl. by rewrite Hs.
Qed.

Lemma proceedAfterMorning_routes_witness :
  let w := exampleRoom hostSession MORNING_ANNOUNCEMENT impostorAndBug [] [] in
  proceedAfterMorning w
  = (Returned tt,
     set_gameState
       (Some (stamped w hostSession GAME_RESULT (winnerPayload "bug"))) w).
Proof.
  intros w. by apply (proceedAfterMorning_routes w hostSession).
Defined.

(** X10. The host's [transitionToVoting] writes VOTING, empties the ballot and
    starts the vote countdown of the settings.  Without a settings document
    it rejects, with the phase written and the ballot emptied, and no
    countdown to end the vote. *)
Theorem transitionToVoting_opens_ballot w me :
  currentPlayer w = Some me → cp_isHost me = true →
  (∀ s, settings w = Some s →
     transitionToVoting w
     = (Returned tt,
        counting (vote (timers s)) TimerVoting
          (set_votes ∅
             (set_gameState (Some (stamped w me VOTING noPayload)) w))))
  ∧ (settings w = None →
     transitionToVoting w
     = (Threw TypeError,
        set_votes ∅ (set_gameState (Some (stamped w me VOTING noPayload)) w))).
Proof.
  intros Hme Hhost.
  assert (transitionToVoting w
          = (setState VOTING noPayload;; startVotingTimer) w) as ->.
  { unfold transitionToVoting. by rewrite (hostOnly_host _ _ _ me). }
  unfold mbind, M_bind. rewrite (setState_stamped w me) by done.
  rewrite (startVotingTimer_host _ me) by done. simpl.
  split; [intros s Hs|intros Hs]; by rewrite Hs.
Qed.

Lemma transitionToVoting_opens_ballot_witness :
  let w := exampleRoom hostSession MEETING_DISCUSSION fivePlayers votesTied [] in
  votes (run transitionToVoting w) = ∅
  ∧ timer (run transitionToVoting w) = Some (mkTimer 60 TimerVoting).
Proof.
  intros w.
  destruct (transitionToVoting_opens_ballot w hostSession eq_refl eq_refl)
    as [Hopen _].
  unfold run. by rewrite (Hopen defaultSettings eq_refl).
Defined.

(** The host's [transitionToNight] empties the night actions and writes
    NIGHT_SPECIAL; it reads no settings and starts no countdown, and the
    countdown of the break stays as it was. *)
Theorem transitionToNight_clears_actions w me :
  currentPlayer w = Some me → cp_isHost me = true →
  transitionToNight w
  = (Returned tt,
     set_gameState
       (Some (stamped (set_nightActions ∅ w) me NIGHT_SPECIAL noPayload))
       (set_nightActions ∅ w)).
Proof.
  intros Hme Hhost. unfold transitionToNight.
  rewrite (hostOnly_host _ _ _ me) by done.
  unfold mbind at 1 2, M_bind at 1 2, getDocs, get. simpl.
  rewrite (forM_deleteDoc actionsRef fst). simpl.
  rewrite foldl_delete_snapshot.
  by rewrite (setState_stamped _ me).
Qed.

Lemma transitionToNight_clears_actions_witness :
  let w := exampleRoom hostSession BREAK nightRoster [] nightUnguarded in
  nightActions (run transitionToNight w) = ∅
  ∧ (phase <$> gameState (run transitionToNight w)) = Some NIGHT_SPECIAL.
Proof.
  intros w. unfold run.
  by rewrite (transitionToNight_clears_actions w hostSession).
Defined.
End flow.


(** * What the night checks wait for *)

Section counting.
Context {D : Type}.
Implicit Types (ed ks : list string) (l : list (string * D)).

Lemma length_filter_fst (P : string → Prop) `{∀ k, Decision (P k)} l :
  length (filter (λ doc, P doc.1) l) = length (filter P l.*1).
Proof.
  induction l as [|[k d] l IH]; [done|].
  rewrite fmap_cons, !filter_cons. simpl.
  case_decide; simpl; by rewrite IH.
Qed.

(** As many of the keys lie in [ed] as [ed] has members exactly when every
    member is a key. *)
Lemma length_filter_elem_of ed ks :
  NoDup ed → NoDup ks →
  length ed ≤ length (filter (λ k, k ∈ ed) ks) ↔ ∀ k, k ∈ ed → k ∈ ks.
Proof.
  intros Hed Hks.
  assert (filter (λ k, k ∈ ed) ks ⊆+ ed) as Hsub.
  { apply NoDup_submseteq; [by apply NoDup_filter|].
    by intros k [Hin _]%list_elem_of_filter. }
  split.
  - intros Hlen k Hin.
    apply submseteq_length_Permutation in Hsub; [|done].
    rewrite <- Hsub in Hin. by apply list_elem_of_filter in Hin as [_ ?].
  - intros Hall. apply submseteq_length, NoDup_submseteq; [done|].
    intros k Hin. apply list_elem_of_filter. split; [done|]. by apply Hall.
Qed.

Lemma submittedCount_filter ed l n :
  foldl (λ submittedCount (doc : string * D),
           if bool_decide (doc.1 ∈ ed) then submittedCount + 1
           else submittedCount) n l
  = n + length (filter (λ doc, doc.1 ∈ ed) l).
Proof.
  revert n. induction l as [|doc l IH]; intros n; simpl; [lia|].
  rewrite IH, filter_cons. case_bool_decide.
  - rewrite decide_True by done. simpl. lia.
  - by rewrite decide_False by done.
Qed.
End counting.

Section checks.
Implicit Types (w : World) (me : CurrentPlayer) (g : GameState).

Lemma edPlayers_filter (playersSnap : list (string * PlayerDoc)) acc :
  foldl (λ edPlayers (doc : string * PlayerDoc),
           if isNightSpecialist doc.2 then edPlayers ++ [doc.1] else edPlayers)
        acc playersSnap
  = acc ++ (filter (λ doc, isNightSpecialist doc.2 = true) playersSnap).*1.
Proof.
  revert acc. induction playersSnap as [|[id d] l IH]; intros acc; simpl.
  - by rewrite app_nil_r.
  - rewrite IH, filter_cons. simpl. destruct (isNightSpecialist d).
    + rewrite decide_True by done. by rewrite fmap_cons, <- app_assoc.
    + by rewrite decide_False by done.
Qed.

(** The test [submittedCount >= edPlayers.length] of [checkEDSubmitted]. *)
Lemma allSubmitted_iff w :
  let edPlayers :=
    foldl (λ edPlayers (doc : string * PlayerDoc),
             if isNightSpecialist doc.2 then edPlayers ++ [doc.1]
             else edPlayers) [] (snapshot (players w)) in
  let submittedCount :=
    foldl (λ submittedCount (doc : string * ActionDoc),
             if bool_decide (doc.1 ∈ edPlayers) then submittedCount + 1
             else submittedCount) 0 (snapshot (nightActions w)) in
  length edPlayers ≤ submittedCount
  ↔ ∀ id d, players w !! id = Some d → isNightSpecialist d = true →
            is_Some (nightActions w !! id).
Proof.
  intros edPlayers submittedCount. subst submittedCount.
  rewrite submittedCount_filter, Nat.add_0_l.
  pose proof (length_filter_fst (λ k, k ∈ edPlayers)
                (snapshot (nightActions w))) as Hlen.
  cbn beta in Hlen. rewrite Hlen. clear Hlen.
  assert (∀ id, id ∈ edPlayers
                ↔ ∃ d, players w !! id = Some d ∧ isNightSpecialist d = true)
    as Hed.
  { intros id. subst edPlayers. rewrite edPlayers_filter. simpl.
    rewrite list_elem_of_fmap. split.
    - intros ([id' d] & -> & [Hsp Hin%elem_of_snapshot]%list_elem_of_filter).
      by exists d.
    - intros (d & Hd & Hsp). exists (id, d). split; [done|].
      apply list_elem_of_filter. split; [done|]. by apply elem_of_snapshot. }
  rewrite length_filter_elem_of.
  - split.
    + intros Hall id d Hd Hsp.
      assert (id ∈ edPlayers) as Hin by (apply Hed; by exists d).
      apply Hall, list_elem_of_fmap in Hin
        as ([id' a] & -> & Hin%elem_of_snapshot).
      by exists a.
    + intros Hall id (d & Hd & Hsp)%Hed.
      destruct (Hall id d Hd Hsp) as [a Ha].
      apply list_elem_of_fmap. exists (id, a). split; [done|].
      by apply elem_of_snapshot.
  - subst edPlayers. rewrite edPlayers_filter. simpl.
    eapply sublist_NoDup; [apply (NoDup_fst_snapshot (players w))|].
    apply fmap_sublist, sublist_filter.
  - apply NoDup_fst_snapshot.
Qed.

(** X11. In a room that has its game-state record, [checkEDSubmitted] answers
    true exactly when every living engineer, doctor and fallen angel has a
    night action, whatever its type; with no such player alive it answers
    true at once. *)
Theorem checkEDSubmitted_waits_for_specialists w me g :
  currentPlayer w = Some me → gameState w = Some g →
  ∃ allSubmitted,
    result checkEDSubmitted w = Returned allSubmitted
    ∧ (allSubmitted = true
       ↔ ∀ id d, players w !! id = Some d → isNightSpecialist d = true →
                 is_Some (nightActions w !! id)).
Proof.
  intros Hme Hg. pose proof (allSubmitted_iff w) as Hiff. simpl in Hiff.
  unfold result, checkEDSubmitted, mbind at 1 2 3, M_bind at 1 2 3,
    getDocs, get. simpl.
  match goal with
  | |- context [bool_decide (length ?e ≤ ?c)] =>
      exists (bool_decide (length e ≤ c))
  end.
  split; [|by rewrite bool_decide_eq_true].
  case_bool_decide as Hall; [|done].
  unfold mbind, M_bind, this_currentPlayer, getState, get, dataOf.
  rewrite Hme. destruct (cp_isHost me) eqn:Hhost; [|done].
  rewrite Hg. simpl. case_bool_decide; [|done].
  by rewrite (setState_host w me).
Qed.

Lemma checkEDSubmitted_waits_for_specialists_witness :
  let w := exampleRoom guestSession NIGHT_SPECIAL nightRoster []
             [("D", mkAction "engineer" "B" (Some 1600%Z))] in
  result checkEDSubmitted w = Returned false.
Proof.
  intros w.
  destruct (checkEDSubmitted_waits_for_specialists w guestSession
              (mkGameState NIGHT_SPECIAL 3 (Some NIGHT_SPECIAL, 1000%Z) 1000%Z
                 "u1" noPayload) eq_refl eq_refl) as (b & -> & Hb).
  f_equal. destruct b; [|done]. exfalso.
  destruct (proj1 Hb eq_refl "E" (player "Eli" (Some "fallen_angel") true)
              eq_refl eq_refl) as [a Ha].
  vm_compute in Ha. discriminate.
Defined.

Lemma processMorning_returns w me :
  currentPlayer w = Some me → result processMorning w = Returned tt.
Proof.
  intros Hme.
  unfold result, processMorning, mbind at 1, M_bind at 1, this_currentPlayer.
  rewrite Hme. destruct (cp_isHost me); [|done]. simpl.
  unfold tryCatch.
  match goal with
  | |- (match ?m with _ => _ end).1 = _ => by destruct m as [[[]|e] w']
  end.
Qed.

Lemma impostorSubmitted_iff (actionsSnap : list (string * ActionDoc)) acc :
  foldl (λ impostorSubmitted (doc : string * ActionDoc),
           if bool_decide (type doc.2 = "impostor") then true
           else impostorSubmitted) acc actionsSnap = true
  ↔ acc = true ∨ ∃ doc, doc ∈ actionsSnap ∧ type doc.2 = "impostor".
Proof.
  revert acc. induction actionsSnap as [|doc l IH]; intros acc; simpl.
  - split; [by left|]. intros [?|(doc & Hin & _)]; [done|].
    by apply elem_of_nil in Hin.
  - rewrite IH. case_bool_decide as Hty.
    + split; [|by left]. intros _. right. exists doc.
      split; [apply list_elem_of_here|done].
    + split.
      * intros [?|(doc' & Hin & Hty')]; [by left|]. right. exists doc'.
        split; [by apply list_elem_of_further|done].
      * intros [?|(doc' & [->|Hin]%elem_of_cons & Hty')]; [by left|done|].
        right. by exists doc'.
Qed.

(** X12. In a room that has its game-state record, [checkImpostorSubmitted]
    answers true exactly when some night action has type impostor; who
    submitted it is not looked at. *)
Theorem checkImpostorSubmitted_any_impostor_action w me g :
  currentPlayer w = Some me → gameState w = Some g →
  ∃ impostorSubmitted,
    result checkImpostorSubmitted w = Returned impostorSubmitted
    ∧ (impostorSubmitted = true
       ↔ ∃ id a, nightActions w !! id = Some a ∧ type a = "impostor").
Proof.
  intros Hme Hg.
  unfold result, checkImpostorSubmitted, mbind at 1 2, M_bind at 1 2,
    getDocs, get. simpl.
  match goal with
  | |- context [foldl ?f false ?l] => exists (foldl f false l)
  end.
  split.
  - destruct (foldl _ false _) eqn:Hsub; [|done].
    unfold mbind, M_bind, this_currentPlayer, getState, get, dataOf.
    rewrite Hme. destruct (cp_isHost me) eqn:Hhost; [|done].
    rewrite Hg. simpl. case_bool_decide; [|done].
    pose proof (processMorning_returns w me Hme) as Hret.
    unfold result in Hret. by destruct (processMorning w) as [[[]|e] w'].
  - rewrite impostorSubmitted_iff. split.
    + intros [?|([id a] & Hin%elem_of_snapshot & Hty)]; [done|].
      by exists id, a.
    + intros (id & a & Ha & Hty). right. exists (id, a).
      split; [by apply elem_of_snapshot|done].
Qed.

Lemma checkImpostorSubmitted_any_impostor_action_witness :
  let w := exampleRoom hostSession NIGHT_IMPOSTOR nightRoster []
             [("C", mkAction "impostor" "D" (Some 1700%Z))] in
  result checkImpostorSubmitted w = Returned true.
Proof.
  intros w.
  destruct (checkImpostorSubmitted_any_impostor_action w hostSession
              (mkGameState NIGHT_IMPOSTOR 3 (Some NIGHT_IMPOSTOR, 1000%Z)
                 1000%Z "u1" noPayload) eq_refl eq_refl) as (b & -> & Hb).
  f_equal. apply Hb. by exists "C", (mkAction "impostor" "D" (Some 1700%Z)).
Defined.
End checks.


(** * Missing documents, repeated calls and players who left *)

Section edges.
Implicit Types (w : World) (me : CurrentPlayer) (r : RoomDoc).

Lemma hostOnly_outside {A} (x : A) (body : CurrentPlayer → M A) w :
  currentPlayer w = None →
  (me ← this_currentPlayer; if negb (cp_isHost me) then mret x else body me) w
  = (Threw TypeError, w).
Proof.
  intros Hme. unfold mbind, M_bind, this_currentPlayer. by rewrite Hme.
Qed.

(** X13. Outside a room, where [this.currentPlayer] is null, every host-only
    method rejects on its first line, the [try] blocks of
    [resetGameState], [processMorning] and [proceedAfterMorning] included,
    and nothing is written. *)
Theorem host_only_operations_outside_a_room w :
  currentPlayer w = None →
  (∀ ph data, setState ph data w = (Threw TypeError, w))
  ∧ resetGameState w = (Threw TypeError, w)
  ∧ processVotes w = (Threw TypeError, w)
  ∧ processMorning w = (Threw TypeError, w)
  ∧ startGame w = (Threw TypeError, w)
  ∧ (∀ patch, updateSettings patch w = (Threw TypeError, w))
  ∧ (∀ playerId, kickPlayer playerId w = (Threw TypeError, w))
  ∧ transitionToVoting w = (Threw TypeError, w)
  ∧ transitionToBreak w = (Threw TypeError, w)
  ∧ transitionToNight w = (Threw TypeError, w)
  ∧ startMeetingTimer w = (Threw TypeError, w)
  ∧ startBreakTimer w = (Threw TypeError, w)
  ∧ startVotingTimer w = (Threw TypeError, w)
  ∧ proceedAfterVote w = (Threw TypeError, w)
  ∧ proceedAfterMorning w = (Threw TypeError, w).
Proof.
  intros Hme.
  repeat split; intros; by apply hostOnly_outside.
Qed.

Lemma host_only_operations_outside_a_room_witness :
  let w := set_currentPlayer None
             (exampleRoom hostSession VOTING fivePlayers votesDecided []) in
  processVotes w = (Threw TypeError, w).
Proof.
  intros w. by apply (host_only_operations_outside_a_room w).
Defined.

(** X14. The host's [processMorning] moves the room to the next day and keeps
    its host and status; the night actions, the votes and the countdown
    are left as they were.  Without a room document nothing at all is
    written and the method still returns. *)
Theorem processMorning_turns_the_day w me :
  currentPlayer w = Some me → cp_isHost me = true →
  (∀ r, room w = Some r →
     let w' := run processMorning w in
     room w' = Some (mkRoom (hostId r) (status r) (day r + 1))
     ∧ versionOf w' = versionOf w + 1
     ∧ nightActions w' = nightActions w ∧ votes w' = votes w
     ∧ voteHistory w' = voteHistory w
     ∧ timer w' = timer w ∧ activeTimer w' = activeTimer w)
  ∧ (room w = None → processMorning w = (Returned tt, w)).
Proof.
  intros Hme Hhost. split.
  - intros r Hroom w'. subst w'. unfold run.
    by rewrite (processMorning_host w me r).
  - intros Hroom. unfold processMorning.
    rewrite (hostOnly_host _ _ _ me) by done.
    unfold tryCatch, mbind, M_bind, getDocs, get, Date_now, dataOf. simpl.
    by rewrite Hroom.
Qed.

Lemma processMorning_turns_the_day_witness :
  let w := exampleRoom hostSession NIGHT_IMPOSTOR nightRoster [] nightUnguarded in
  room (run processMorning w) = Some (mkRoom "u1" "ingame" 3).
Proof.
  intros w.
  destruct (processMorning_turns_the_day w hostSession eq_refl eq_refl)
    as [Hday _].
  by destruct (Hday (mkRoom "u1" "ingame" 2) eq_refl) as [-> _].
Defined.

(** X15. When the host resets a room whose room document is gone, the reset
    stops at the room update and the error is swallowed: the players are
    reset and the votes, night actions, death log and vote history are
    empty, but the game-state record and the timer are what they were. *)
Theorem resetGameState_without_room w me :
  currentPlayer w = Some me → cp_isHost me = true → room w = None →
  let w' := run resetGameState w in
  result resetGameState w = Returned tt
  ∧ players w' = resetPlayer <$> players w
  ∧ votes w' = ∅ ∧ nightActions w' = ∅ ∧ deathLog w' = ∅
  ∧ voteHistory w' = ∅
  ∧ gameState w' = gameState w ∧ timer w' = timer w ∧ room w' = None.
Proof.
  intros Hme Hhost Hroom w'.
  assert (resetGameState w
          = (Returned tt,
             set_voteHistory ∅
               (set_deathLog ∅
                  (set_nightActions ∅
                     (set_votes ∅
                        (set_players (resetPlayer <$> players w) w))))))
    as Heq.
  { unfold resetGameState.
    rewrite (hostOnly_host _ _ _ me) by done.
    unfold tryCatch, mbind, M_bind, getDocs, get. simpl.
    rewrite (promiseAll_updateDoc playersRef fst); simpl.
    2:{ intros [id d] Hin. apply elem_of_snapshot in Hin. simpl.
        by rewrite Hin. }
    rewrite (promiseAll_deleteDoc votesRef fst); simpl.
    rewrite (promiseAll_deleteDoc actionsRef fst); simpl.
    rewrite (promiseAll_deleteDoc deathLogRef fst); simpl.
    rewrite (promiseAll_deleteDoc historyRef fst); simpl.
    unfold updateRoom. simpl. rewrite Hroom. simpl.
    rewrite foldl_alter_snapshot, !foldl_delete_snapshot,
      foldl_delete_map_to_list.
    done. }
  subst w'. unfold result, run. rewrite Heq. simpl. by rewrite Hroom.
Qed.

Lemma resetGameState_without_room_witness :
  let w := set_room None
             (exampleRoom hostSession GAME_RESULT impostorAndBug
                [("u1", mkVote "u2" 1500%Z)] []) in
  votes (run resetGameState w) = ∅
  ∧ gameState (run resetGameState w) = gameState w.
Proof.
  intros w.
  destruct (resetGameState_without_room w hostSession eq_refl eq_refl eq_refl)
    as (_ & _ & Hvotes & _ & _ & _ & Hstate & _).
  by split.
Defined.

(** X16. A player has one vote: [submitVote] stores the target under the
    voter's own id, so a second vote replaces the first and the ballot
    grows by at most one document; the method looks neither at the phase
    nor at whether the voter or the target is alive. *)
Theorem submitVote_replaces w me targetId targetId' :
  currentPlayer w = Some me →
  submitVote targetId w
  = (Returned tt,
     set_votes (<[cp_id me := mkVote targetId (clock w)]> (votes w)) w)
  ∧ run (submitVote targetId') (run (submitVote targetId) w)
    = run (submitVote targetId') w
  ∧ size (votes (run (submitVote targetId) w)) ≤ size (votes w) + 1
  ∧ (is_Some (votes w !! cp_id me) →
     size (votes (run (submitVote targetId) w)) = size (votes w)).
Proof.
  intros Hme.
  assert (∀ t w0, currentPlayer w0 = Some me →
            submitVote t w0
            = (Returned tt,
               set_votes (<[cp_id me := mkVote t (clock w0)]> (votes w0)) w0))
    as Heq.
  { intros t w0 Hme0.
    unfold submitVote, getUserId, mbind, M_bind, this_currentPlayer,
      serverTimestamp, get, setDoc, modify. by rewrite Hme0. }
  split; [by apply Heq|]. unfold run.
  rewrite (Heq targetId w), (Heq targetId' w) by done. simpl.
  split.
  { rewrite Heq by done. unfold set_votes. simpl. by rewrite insert_insert_eq. }
  destruct (votes w !! cp_id me) as [v|] eqn:Hv.
  - rewrite <- (insert_delete_id (votes w) (cp_id me) v) by done.
    rewrite insert_insert_eq, !map_size_insert_None by apply lookup_delete_eq.
    split; [lia|done].
  - rewrite map_size_insert_None by done. split; [lia|]. by intros [? ?].
Qed.

Lemma submitVote_replaces_witness :
  let w := exampleRoom guestSession VOTING fivePlayers votesDecided [] in
  votes (run (submitVote "A") (run (submitVote "B") w))
  = votes (run (submitVote "A") w).
Proof.
  intros w.
  destruct (submitVote_replaces w guestSession "B" "A" eq_refl)
    as (_ & -> & _).
  done.
Defined.

(** X17. A player the host has kicked can still win the vote: the votes for the
    player stay in the ballot, and [processVotes] then reports the victim
    under the name Unknown, kills nobody and logs no death. *)
Theorem kicked_player_is_voted_out_unknown w me r victimId :
  currentPlayer w = Some me → cp_isHost me = true → room w = Some r →
  0 < votesFor victimId (votes w) →
  (∀ t, t ≠ victimId → votesFor t (votes w) < votesFor victimId (votes w)) →
  let w1 := run (kickPlayer victimId) w in
  let w2 := run processVotes w1 in
  players w1 = delete victimId (players w)
  ∧ votes w1 = votes w
  ∧ result processVotes w1 = Returned (Some (Killed victimId "Unknown"))
  ∧ players w2 = players w1
  ∧ deathLog w2 = deathLog w
  ∧ ∃ g, gameState w2 = Some g
         ∧ phase g = VOTE_RESULT
         ∧ p_victimName (payload g) = Some "Unknown (Left)".
Proof.
  intros Hme Hhost Hroom Hpos Hahead w1 w2.
  assert (kickPlayer victimId w
          = (Returned tt,
             set_presence (delete victimId (presence w))
               (set_players (delete victimId (players w)) w))) as Hkick.
  { unfold kickPlayer. by rewrite (hostOnly_host _ _ _ me). }
  assert (w1 = set_presence (delete victimId (presence w))
                 (set_players (delete victimId (players w)) w)) as Hw1.
  { subst w1. unfold run. by rewrite Hkick. }
  subst w2. clearbody w1. subst w1.
  destruct (processVotes_left
              (set_presence (delete victimId (presence w))
                 (set_players (delete victimId (players w)) w)) me r victimId)
    as (history & _ & Heq); [done..| |].
  { simpl. apply lookup_delete_eq. }
  unfold result, run. rewrite Heq. simpl.
  split; [done|]. split; [done|]. split; [done|]. split; [done|].
  split; [done|]. by eexists.
Qed.

Lemma kicked_player_is_voted_out_unknown_witness :
  let w := exampleRoom hostSession VOTING fivePlayers votesDecided [] in
  result processVotes (run (kickPlayer "A") w)
  = Returned (Some (Killed "A" "Unknown")).
Proof.
  intros w.
  apply (kicked_player_is_voted_out_unknown w hostSession
           (mkRoom "u1" "ingame" 2) "A"); try reflexivity.
  - vm_compute. lia.
  - apply ahead_of_the_voted; [vm_compute; lia|].
    apply (bool_decide_unpack _). by vm_compute.
Defined.
End edges.


(** * The host monitor, the start button and the morning screen *)

Section monitor.
Implicit Types (w : World) (me : CurrentPlayer) (r : RoomDoc) (g : GameState).

Lemma checkEDSubmitted_advances w me g :
  currentPlayer w = Some me → cp_isHost me = true →
  gameState w = Some g → phase g = NIGHT_SPECIAL →
  (∀ id d, players w !! id = Some d → isNightSpecialist d = true →
           is_Some (nightActions w !! id)) →
  checkEDSubmitted w
  = (Returned true,
     set_gameState (Some (stamped w me NIGHT_IMPOSTOR noPayload)) w).
Proof.
  intros Hme Hhost Hg Hphase Hall.
  apply (allSubmitted_iff w) in Hall. simpl in Hall.
  unfold checkEDSubmitted, mbind at 1 2 3, M_bind at 1 2 3, getDocs, get.
  simpl. rewrite bool_decide_eq_true_2 by done.
  unfold mbind, M_bind, this_currentPlayer, getState, get, dataOf.
  rewrite Hme, Hhost, Hg. simpl. rewrite bool_decide_eq_true_2 by done.
  by rewrite (setState_stamped w me).
Qed.

Lemma checkImpostorSubmitted_advances w me g :
  currentPlayer w = Some me → cp_isHost me = true →
  gameState w = Some g → phase g = NIGHT_IMPOSTOR →
  (∃ id a, nightActions w !! id = Some a ∧ type a = "impostor") →
  checkImpostorSubmitted w = (Returned true, run processMorning w).
Proof.
  intros Hme Hhost Hg Hphase (id & a & Ha & Hty).
  unfold checkImpostorSubmitted, mbind at 1 2, M_bind at 1 2, getDocs, get.
  simpl.
  assert (foldl (λ impostorSubmitted (doc : string * ActionDoc),
                   if bool_decide (type doc.2 = "impostor") then true
                   else impostorSubmitted) false (snapshot (nightActions w))
          = true) as ->.
  { apply impostorSubmitted_iff. right. exists (id, a).
    split; [by apply elem_of_snapshot|done]. }
  unfold mbind, M_bind, this_currentPlayer, getState, get, dataOf.
  rewrite Hme, Hhost, Hg. simpl. rewrite bool_decide_eq_true_2 by done.
  pose proof (processMorning_returns w me Hme) as Hret.
  unfold result in Hret. unfold run.
  by destruct (processMorning w) as [[[]|e] w'].
Qed.

Lemma hostMonitorTick_unfold w :
  hostMonitorTick w
  = match gameState w with
    | None => (Returned tt, w)
    | Some g =>
        if bool_decide (phase g = NIGHT_SPECIAL) then
          (_ ← checkEDSubmitted; mret tt) w
        else if bool_decide (phase g = NIGHT_IMPOSTOR) then
          (_ ← checkImpostorSubmitted; mret tt) w
        else (Returned tt, w)
    end.
Proof.
  unfold hostMonitorTick, mbind at 1, M_bind at 1, getState, get.
  destruct (gameState w) as [g|]; [|done]. by repeat case_bool_decide.
Qed.

(** X18. A tick of the host monitor writes nothing in a room without a
    game-state record or in a phase other than the two night phases, and in
    no case does it take the version more than one step further. *)
Theorem hostMonitorTick_one_step w :
  (gameState w = None → hostMonitorTick w = (Returned tt, w))
  ∧ (∀ g, gameState w = Some g →
       phase g ≠ NIGHT_SPECIAL → phase g ≠ NIGHT_IMPOSTOR →
       hostMonitorTick w = (Returned tt, w))
  ∧ versionOf w ≤ versionOf (run hostMonitorTick w) ≤ versionOf w + 1.
Proof.
  split; [|split].
  - intros Hg. by rewrite hostMonitorTick_unfold, Hg.
  - intros g Hg Hs Hi. rewrite hostMonitorTick_unfold, Hg.
    by rewrite !bool_decide_eq_false_2.
  - unfold run at 1 2. rewrite hostMonitorTick_unfold.
    destruct (gameState w) as [g|] eqn:Hg; [|simpl; lia].
    case_bool_decide as Hs; [|case_bool_decide as Hi; [|simpl; lia]].
    + assert (((_ ← checkEDSubmitted; mret tt) w).2 = run checkEDSubmitted w)
        as ->.
      { unfold run, mbind, M_bind. by destruct (checkEDSubmitted w) as [[b|e] w']. }
      destruct (checkEDSubmitted_effect w) as [->|(_ & _ & _ & ->)]; lia.
    + assert (((_ ← checkImpostorSubmitted; mret tt) w).2
              = run checkImpostorSubmitted w) as ->.
      { unfold run, mbind, M_bind.
        by destruct (checkImpostorSubmitted w) as [[b|e] w']. }
      destruct (checkImpostorSubmitted_effect w) as [->| ->]; [lia|].
      destruct (processMorning_effect w) as [Hsame|(_ & _ & _ & ->)]; [|lia].
      rewrite (versionOf_gameState _ _ Hsame). lia.
Qed.

(** X19. With the night actions of every living specialist and an impostor
    action in, the host monitor takes a room from NIGHT_SPECIAL to
    NIGHT_IMPOSTOR with its first tick, resolves the night with its second
    tick exactly as [processMorning] does, and leaves the morning alone
    with its third. *)
Theorem hostMonitorTick_runs_the_night w me r g :
  currentPlayer w = Some me → cp_isHost me = true → room w = Some r →
  gameState w = Some g → phase g = NIGHT_SPECIAL →
  (∀ id d, players w !! id = Some d → isNightSpecialist d = true →
           is_Some (nightActions w !! id)) →
  (∃ id a, nightActions w !! id = Some a ∧ type a = "impostor") →
  let w1 := run hostMonitorTick w in
  let w2 := run hostMonitorTick w1 in
  let w3 := run hostMonitorTick w2 in
  w1 = set_gameState (Some (stamped w me NIGHT_IMPOSTOR noPayload)) w
  ∧ w2 = run processMorning w1
  ∧ (phase <$> gameState w2) = Some MORNING_ANNOUNCEMENT
  ∧ versionOf w2 = versionOf w + 2
  ∧ w3 = w2.
Proof.
  intros Hme Hhost Hroom Hg Hphase Hall Himp w1 w2 w3.
  assert (w1 = set_gameState (Some (stamped w me NIGHT_IMPOSTOR noPayload)) w)
    as Hw1.
  { subst w1. unfold run. rewrite hostMonitorTick_unfold, Hg.
    rewrite bool_decide_eq_true_2 by done.
    unfold mbind, M_bind. by rewrite (checkEDSubmitted_advances w me g). }
  assert (w2 = run processMorning w1) as Hw2.
  { subst w2. unfold run at 1. rewrite hostMonitorTick_unfold.
    clearbody w1. subst w1. cbn [gameState set_gameState].
    rewrite bool_decide_eq_false_2 by done.
    rewrite bool_decide_eq_true_2 by done.
    unfold mbind, M_bind.
    by erewrite (checkImpostorSubmitted_advances _ me). }
  clearbody w1. subst w1.
  pose proof (processMorning_host
                (set_gameState (Some (stamped w me NIGHT_IMPOSTOR noPayload)) w)
                me r Hme Hhost Hroom) as Hmorning.
  cbv zeta in Hmorning.
  assert (gameState w2
          = Some (mkGameState MORNING_ANNOUNCEMENT (versionOf w + 1 + 1)
                    (Some MORNING_ANNOUNCEMENT, clock w) (clock w) (cp_id me)
                    (mergePayload
                       (mergePayload (default noPayload (payload <$> gameState w))
                          noPayload)
                       (victimsPayload
                          (nightVictims (clock w) (snapshot (players w))
                             (snapshot (nightActions w))))))) as Hg2.
  { rewrite Hw2. unfold run. by rewrite Hmorning. }
  split; [done|]. split; [done|]. split; [by rewrite Hg2|].
  split; [unfold versionOf at 1; rewrite Hg2; simpl; lia|].
  subst w3. unfold run. rewrite hostMonitorTick_unfold, Hg2.
  by rewrite !bool_decide_eq_false_2.
Qed.

Lemma hostMonitorTick_runs_the_night_witness :
  let w := exampleRoom hostSession NIGHT_SPECIAL nightRoster [] nightUnguarded in
  (phase <$> gameState (run hostMonitorTick (run hostMonitorTick w)))
  = Some MORNING_ANNOUNCEMENT.
Proof.
  intros w.
  apply (hostMonitorTick_runs_the_night w hostSession (mkRoom "u1" "ingame" 2)
           (mkGameState NIGHT_SPECIAL 3 (Some NIGHT_SPECIAL, 1000%Z) 1000%Z
              "u1" noPayload)); try reflexivity.
  - intros id d Hd Hsp.
    apply elem_of_map_to_list in Hd. vm_compute in Hd.
    repeat (apply elem_of_cons in Hd as [Hd|Hd];
            [injection Hd as -> ->; first [discriminate Hsp | by eexists]|]).
    by apply elem_of_nil in Hd.
  - by exists "A", (mkAction "impostor" "C" (Some 1700%Z)).
Defined.

(** X20. After the host's [processMorning] the morning screen is handed the
    first victim of the night and no other: the first bug an engineer
    found, else the impostor's victim, else nobody.  The victims of an
    earlier night are never handed on, for the record's victims are always
    written anew. *)
Theorem morningVictim_first_of_the_night w me r :
  currentPlayer w = Some me → cp_isHost me = true → room w = Some r →
  let victims :=
    nightVictims (clock w) (snapshot (players w)) (snapshot (nightActions w)) in
  ∃ g, gameState (run processMorning w) = Some g
       ∧ p_victims (payload g) = Some victims.*1
       ∧ morningVictim g = head victims.*1.
Proof.
  intros Hme Hhost Hroom victims. unfold run.
  rewrite (processMorning_host w me r) by done. cbv zeta. fold victims.
  eexists. split; [done|]. unfold morningVictim. simpl. split; [done|].
  destruct (victims.*1) as [|v l]; [done|].
  by rewrite bool_decide_eq_true_2 by (simpl; lia).
Qed.

Lemma morningVictim_first_of_the_night_witness :
  let w := exampleRoom hostSession NIGHT_IMPOSTOR nightRoster [] nightUnguarded in
  ∃ g, gameState (run processMorning w) = Some g
       ∧ p_victims (payload g) = Some ["B"; "C"]
       ∧ morningVictim g = Some "B".
Proof.
  intros w.
  apply (morningVictim_first_of_the_night w hostSession
           (mkRoom "u1" "ingame" 2)); reflexivity.
Defined.
End monitor.

Section startButton.
Implicit Types (w : World) (me : CurrentPlayer) (r : RoomDoc) (s : Settings).

Lemma length_filter_role (ro : string) (l : list (string * PlayerDoc)) :
  length (filter (λ x, x = Some ro) (role <$> l.*2))
  = length (filter (λ doc : string * PlayerDoc, role doc.2 = Some ro) l).
Proof.
  induction l as [|[id d] l IH]; [done|].
  rewrite !fmap_cons, !filter_cons. simpl.
  repeat case_decide; simpl; try done; by rewrite IH.
Qed.

Lemma holders_rolesHeld ro (roster : gmap string PlayerDoc) :
  holders ro roster = length (filter (λ x, x = Some ro) (rolesHeld roster)).
Proof.
  unfold holders, rolesHeld.
  rewrite size_filter_snapshot, length_filter_role.
  apply Permutation_length. by rewrite snapshot_Permutation.
Qed.

Lemma totalRoles_sumCounts (counts : list nat) n :
  foldl (λ a b, a + b) n counts = n + sum_list counts.
Proof.
  revert n. induction counts as [|c l IH]; intros n; simpl; [lia|].
  rewrite IH. lia.
Qed.

(** X21. A click on the start button that fails the validation alerts and
    writes nothing.  A click by the host that passes it, in a room with its
    settings and room documents and as many players as the lobby lists,
    stores the settings of the form and starts the game so that every role
    is held by exactly as many players as the form says, at least one of
    them an impostor. *)
Theorem startGameClick_deals_as_configured inputs tm allPlayers w :
  let totalRoles := sumCounts (rolesOf inputs) in
  (totalRoles ≠ allPlayers →
   startGameClick inputs tm allPlayers w
   = (Returned (AlertTotal totalRoles allPlayers), w))
  ∧ (totalRoles = allPlayers → impostorCount inputs < 1 →
     startGameClick inputs tm allPlayers w = (Returned AlertImpostor, w))
  ∧ (totalRoles = allPlayers → 1 ≤ impostorCount inputs →
     ∀ me s r,
       currentPlayer w = Some me → cp_isHost me = true →
       settings w = Some s → room w = Some r →
       allPlayers = size (players w) →
       let w' := run (startGameClick inputs tm allPlayers) w in
       result (startGameClick inputs tm allPlayers) w = Returned Started
       ∧ settings w' = Some (mkSettings (rolesOf inputs) tm)
       ∧ (phase <$> gameState w') = Some ROLE_REVEAL
       ∧ (∀ ro, holders ro (players w') = configured ro (rolesOf inputs))
       ∧ holders "impostor" (players w') = impostorCount inputs
       ∧ 1 ≤ holders "impostor" (players w')).
Proof.
  intros totalRoles.
  assert (foldl (λ a b, a + b) 0 (rolesOf inputs).*2 = totalRoles) as Htotal.
  { by rewrite totalRoles_sumCounts. }
  split; [|split].
  - intros Hne. unfold startGameClick. cbv zeta. rewrite Htotal.
    by rewrite bool_decide_eq_true_2.
  - intros Heq Himp. unfold startGameClick. cbv zeta. rewrite Htotal.
    rewrite bool_decide_eq_false_2 by (intros ?; done).
    by rewrite bool_decide_eq_true_2.
  - intros Heq Himp me s r Hme Hhost Hs Hroom Hsize w'.
    set (w1 := set_settings (Some (mkSettings (rolesOf inputs) tm)) w).
    destruct (startGame_dealing w1 me (mkSettings (rolesOf inputs) tm))
      as (shuffled & roster & Hperm & Hroster & Hstart); [done..|].
    assert (length shuffled = size (players w)) as Hlen.
    { rewrite Hperm, assignRoles_eq, length_take, length_app,
        length_replicate, length_expand. simpl. lia. }
    destruct (dealt_roster shuffled (players w) Hlen) as (Hroles & _).
    change (players w1) with (players w) in Hroster.
    rewrite <- Hroster in Hroles.
    assert (startGameClick inputs tm allPlayers w
            = (Returned Started,
               set_gameState (Some (stamped w me ROLE_REVEAL noPayload))
                 (set_room (Some (mkRoom (hostId r) "ingame" (day r)))
                    (set_players roster
                       (set_entropy
                          (drop (size (players w) - 1) (entropy w)) w1)))))
      as Hclick.
    { unfold startGameClick. cbv zeta. rewrite Htotal.
      rewrite bool_decide_eq_false_2 by (intros ?; done).
      rewrite bool_decide_eq_false_2 by lia.
      unfold mbind at 1, M_bind at 1.
      assert (updateSettings
                (mkSettingsPatch (Some (rolesOf inputs)) (Some tm)) w
              = (Returned tt, w1)) as ->.
      { unfold updateSettings, mbind, M_bind, this_currentPlayer.
        rewrite Hme, Hhost. simpl. by rewrite Hs. }
      rewrite Hstart. unfold mbind, M_bind, updateRoom. simpl.
      rewrite Hroom. simpl. by rewrite (setState_stamped _ me). }
    subst w'. unfold result, run. rewrite Hclick. simpl.
    assert (∀ ro, holders ro roster = configured ro (rolesOf inputs)) as Hheld.
    { intros ro. rewrite holders_rolesHeld.
      assert (length (filter (λ x, x = Some ro) (Some <$> shuffled))
              = configured ro (rolesOf inputs)) as <-.
      { rewrite occurrences_Some. unfold occurrences.
        rewrite Hperm, assignRoles_eq. simpl roles.
        replace (size (players w1) - sumCounts (rolesOf inputs)) with 0
          by (simpl; lia).
        rewrite app_nil_r, take_ge by (rewrite length_expand; simpl; lia).
        apply occurrences_expand. }
      apply Permutation_length. by rewrite Hroles. }
    assert (configured "impostor" (rolesOf inputs) = impostorCount inputs)
      as Hconf by (unfold configured, rolesOf; simpl; lia).
    split; [done|]. split; [done|]. split; [done|]. split; [done|].
    rewrite Hheld, Hconf. split; [done|lia].
Qed.

Lemma startGameClick_deals_as_configured_witness :
  let w := exampleRoom hostSession LOBBY fivePlayers [] [] in
  let inputs := mkRoleInputs 2 1 1 0 1 0 0 0 in
  holders "impostor" (players (run (startGameClick inputs (mkTimers 300 60 120) 5) w))
  = 1.
Proof.
  intros w inputs.
  destruct (startGameClick_deals_as_configured inputs (mkTimers 300 60 120) 5 w)
    as (_ & _ & Hstart).
  by destruct (Hstart eq_refl (le_n 1) hostSession defaultSettings
                 (mkRoom "u1" "ingame" 2) eq_refl eq_refl eq_refl eq_refl
                 eq_refl) as (_ & _ & _ & _ & -> & _).
Defined.
End startButton.


(** * Joining, leaving and restoring a session *)

Section session.
Implicit Types (c : Client) (w : World) (me : CurrentPlayer) (r : RoomDoc)
  (d : PlayerDoc).

Lemma set_world_id c : set_world (world c) c = c.
Proof. by destruct c. Qed.

(** X22. [joinRoom] refuses a room that does not exist, and a room that has
    left the lobby unless the user already has a player document in it;
    in both cases nothing is written, in the room or in the session. *)
Theorem joinRoom_refuses c roomCode playerName asHost :
  (room (world c) = None →
   joinRoom roomCode playerName asHost c
   = (Rejected (ErrorOf "Room not found"), c))
  ∧ (∀ r userId,
       room (world c) = Some r → authUser c = Some userId →
       status r ≠ "lobby" → players (world c) !! userId = None →
       joinRoom roomCode playerName asHost c
       = (Rejected (ErrorOf "Game already in progress. Cannot join now."), c)).
Proof.
  destruct c as [w user code stored pings handle ping]. simpl. split.
  - intros Hroom.
    unfold joinRoom, mbind, Session_bind, read, store, get. simpl.
    by rewrite Hroom.
  - intros r userId Hroom -> Hstatus Hplayer.
    unfold joinRoom, mbind, Session_bind, read, store, get, getDoc. simpl.
    rewrite Hroom. simpl. rewrite Hplayer.
    rewrite bool_decide_eq_true_2 by done.
    rewrite bool_decide_eq_false_2 by (by intros [? ?]).
    by destruct w.
Qed.

Lemma joinRoom_refuses_witness :
  let c := mkClient (exampleRoom hostSession VOTING fivePlayers [] [])
             (Some "Z") None None ∅ 0 None in
  joinRoom "ABCD" "Zoe" false c
  = (Rejected (ErrorOf "Game already in progress. Cannot join now."), c).
Proof.
  intros c.
  destruct (joinRoom_refuses c "ABCD" "Zoe" false) as [_ Hprogress].
  by apply (Hprogress (mkRoom "u1" "ingame" 2) "Z").
Defined.

(** The client a successful [joinRoom] leaves. *)
Lemma joinRoom_joined c roomCode playerName asHost r userId :
  room (world c) = Some r → authUser c = Some userId →
  (status r = "lobby" ∨ is_Some (players (world c) !! userId)) →
  let old := players (world c) !! userId in
  let host := asHost || default false (isHost <$> old) in
  joinRoom roomCode playerName asHost c
  = (Resolved roomCode,
     mkClient
       (set_presence (<[userId := (true, clock (world c))]> (presence (world c)))
          (set_currentPlayer
             (Some (mkCurrentPlayer userId playerName host (truthy (old ≫= role))))
             (set_players
                (<[userId := mkPlayer playerName host
                               (default true (isAlive <$> old)) (old ≫= role)
                               (default false (roleReadConfirmed <$> old)) true]>
                   (players (world c)))
                (world c))))
       (Some userId) (Some roomCode) (Some roomCode)
       (<[nextHandle c := userId]> (intervals c)) (nextHandle c + 1)
       (Some (nextHandle c))).
Proof.
  destruct c as [w user code stored pings handle ping].
  intros Hroom Huser Hmay old host. simpl in *. subst user.
  unfold joinRoom, mbind at 1 2 3 4, Session_bind at 1 2 3 4, read, store,
    get, getDoc. simpl.
  rewrite Hroom. simpl. fold old.
  assert (bool_decide (status r ≠ "lobby") && negb (bool_decide (is_Some old))
          = false) as ->.
  { destruct Hmay as [Hlobby|Hsome].
    - by rewrite bool_decide_eq_false_2 by (by intros ?).
    - rewrite (bool_decide_eq_true_2 (is_Some old)) by done.
      by rewrite andb_false_r. }
  unfold mbind, Session_bind, store, write, setupPresence, persistRoom,
    setDoc, modify, Date_now, get, mbind, M_bind. simpl.
  done.
Qed.

(** X23. A successful [joinRoom] writes one player document, the user's own,
    and no other.  A user who rejoins keeps being alive or dead, keeps the
    role and the confirmed role read, and stays host even when joining as
    a guest, in whatever state the room is; only the name is the new one.
    A new user starts alive, without role, host only when joining as
    host.  The session then names the room and the player, and the room
    code is persisted. *)
Theorem joinRoom_keeps_the_player c roomCode playerName asHost r userId :
  room (world c) = Some r → authUser c = Some userId →
  (status r = "lobby" ∨ is_Some (players (world c) !! userId)) →
  let c' := (joinRoom roomCode playerName asHost c).2 in
  (joinRoom roomCode playerName asHost c).1 = Resolved roomCode
  ∧ (∀ d, players (world c) !! userId = Some d →
       players (world c') !! userId
       = Some (mkPlayer playerName (asHost || isHost d) (isAlive d) (role d)
                 (roleReadConfirmed d) true))
  ∧ (players (world c) !! userId = None →
       players (world c') !! userId
       = Some (mkPlayer playerName asHost true None false true)
       ∧ size (players (world c')) = size (players (world c)) + 1)
  ∧ (∀ id, id ≠ userId →
       players (world c') !! id = players (world c) !! id)
  ∧ (cp_id <$> currentPlayer (world c')) = Some userId
  ∧ (cp_isHost <$> currentPlayer (world c'))
    = Some (asHost || default false (isHost <$> players (world c) !! userId))
  ∧ currentRoom c' = Some roomCode ∧ gnosia_room c' = Some roomCode
  ∧ room (world c') = Some r ∧ gameState (world c') = gameState (world c)
  ∧ votes (world c') = votes (world c).
Proof.
  intros Hroom Huser Hmay c'. subst c'.
  rewrite (joinRoom_joined c roomCode playerName asHost r userId) by done.
  simpl. split; [done|]. split; [|split; [|split]].
  - intros d Hd. by rewrite lookup_insert_eq, Hd.
  - intros Hd. rewrite lookup_insert_eq, Hd. simpl.
    rewrite orb_false_r. split; [done|].
    rewrite map_size_insert_None by done. lia.
  - intros id Hid. by rewrite lookup_insert_ne.
  - done.
Qed.

Lemma joinRoom_keeps_the_player_witness :
  let c := mkClient
             (exampleRoom hostSession VOTING
                [("A", mkPlayer "Ana" true false (Some "doctor") true false)]
                [] [])
             (Some "A") None None ∅ 0 None in
  players (world (joinRoom "ABCD" "Anna" false c).2) !! "A"
  = Some (mkPlayer "Anna" true false (Some "doctor") true true).
Proof.
  intros c.
  destruct (joinRoom_keeps_the_player c "ABCD" "Anna" false
              (mkRoom "u1" "ingame" 2) "A" eq_refl eq_refl)
    as (_ & Hrejoin & _).
  - right. by eexists.
  - by apply (Hrejoin (mkPlayer "Ana" true false (Some "doctor") true false)).
Defined.

Lemma closeRoom_closed w r :
  room w = Some r →
  closeRoom w
  = (Returned tt,
     mkWorld (currentPlayer w) (activeTimer w) None ∅ None None ∅ ∅ ∅
       (voteHistory w) None ∅ (clock w) (entropy w)).
Proof.
  intros Hroom. unfold closeRoom.
  unfold mbind, M_bind, updateRoom, getDocs, get. rewrite Hroom. simpl.
  rewrite (promiseAll_deleteDoc playersRef fst); simpl.
  rewrite (promiseAll_deleteDoc votesRef fst); simpl.
  rewrite (promiseAll_deleteDoc actionsRef fst); simpl.
  rewrite (promiseAll_deleteDoc deathLogRef fst); simpl.
  by rewrite !foldl_delete_snapshot.
Qed.

Lemma leaveRoom_host c roomId me :
  currentRoom c = Some roomId → roomId ≠ "" →
  currentPlayer (world c) = Some me → cp_isHost me = true →
  leaveRoom c
  = (Resolved tt,
     mkClient
       (set_activeTimer None
          (set_currentPlayer None
             (match room (world c) with
              | Some _ =>
                  mkWorld (currentPlayer (world c)) (activeTimer (world c))
                    None ∅ None None ∅ ∅ ∅ (voteHistory (world c)) None ∅
                    (clock (world c)) (entropy (world c))
              | None =>
                  set_presence (delete (cp_id me) (presence (world c)))
                    (world c)
              end)))
       (authUser c) None None
       (match presenceInterval c with
        | Some h => delete h (intervals c)
        | None => intervals c
        end)
       (nextHandle c) (presenceInterval c)).
Proof.
  destruct c as [w user code stored pings handle ping]. simpl.
  intros -> Hne Hme Hhost.
  destruct roomId as [|ch roomId]; [done|].
  unfold leaveRoom, mbind at 1 2, Session_bind at 1 2, read, store, get.
  simpl. rewrite Hme, Hhost.
  destruct (room w) as [r|] eqn:Hroom.
  - unfold mbind, Session_bind, catching, store. simpl.
    rewrite (closeRoom_closed _ r) by done.
    unfold clearSession, write, clearPresenceInterval, mbind, Session_bind,
      store, modify. simpl.
    destruct ping; simpl; by rewrite delete_empty.
  - unfold mbind, Session_bind, catching, store, closeRoom, mbind, M_bind,
      updateRoom. simpl. rewrite Hroom. simpl.
    unfold clearSession, write, clearPresenceInterval, mbind, Session_bind,
      store, modify. simpl.
    by destruct ping.
Qed.

(** X24. When the host leaves, the room is torn down: the room document, the
    players, votes, night actions, death log, game state and settings, the
    presence of everybody and the timer are gone, and the session is
    cleared.  The vote history is not among the collections that are
    deleted, and stays.  When the room document is missing already, the
    tear-down stops at its first step and the error is swallowed: nothing
    of the room is deleted but the host's own presence, and the session is
    cleared all the same. *)
Theorem leaveRoom_host_tears_down c roomId me :
  currentRoom c = Some roomId → roomId ≠ "" →
  currentPlayer (world c) = Some me → cp_isHost me = true →
  let c' := (leaveRoom c).2 in
  (leaveRoom c).1 = Resolved tt
  ∧ currentRoom c' = None ∧ gnosia_room c' = None
  ∧ currentPlayer (world c') = None ∧ activeTimer (world c') = None
  ∧ voteHistory (world c') = voteHistory (world c)
  ∧ (is_Some (room (world c)) →
       room (world c') = None ∧ players (world c') = ∅
       ∧ votes (world c') = ∅ ∧ nightActions (world c') = ∅
       ∧ deathLog (world c') = ∅ ∧ gameState (world c') = None
       ∧ settings (world c') = None ∧ presence (world c') = ∅
       ∧ timer (world c') = None)
  ∧ (room (world c) = None →
       players (world c') = players (world c)
       ∧ votes (world c') = votes (world c)
       ∧ gameState (world c') = gameState (world c)
       ∧ settings (world c') = settings (world c)
       ∧ presence (world c') = delete (cp_id me) (presence (world c))
       ∧ timer (world c') = timer (world c)).
Proof.
  intros Hcode Hne Hme Hhost c'. subst c'.
  rewrite (leaveRoom_host c roomId me) by done. simpl.
  split; [done|]. split; [done|]. split; [done|]. split; [done|].
  split; [done|]. split; [by destruct (room (world c))|].
  split.
  - intros [r ->]. by repeat split.
  - intros ->. by repeat split.
Qed.

Lemma leaveRoom_host_tears_down_witness :
  let c := mkClient
             (run processVotes
                (exampleRoom hostSession VOTING fivePlayers votesDecided []))
             (Some "u1") (Some "ABCD") (Some "ABCD") ∅ 0 None in
  players (world (leaveRoom c).2) = ∅
  ∧ size (voteHistory (world (leaveRoom c).2)) = 4.
Proof.
  intros c.
  destruct (leaveRoom_host_tears_down c "ABCD" hostSession eq_refl)
    as (_ & _ & _ & _ & _ & Hhistory & Hroom & _); [done|reflexivity..|].
  destruct Hroom as (_ & Hplayers & _); [by eexists|].
  split; [done|]. by rewrite Hhistory.
Defined.

(** When a guest leaves, the guest's own player document and presence are
    deleted and nothing else of the room is touched; the session is
    cleared and the presence ping that was started last is stopped.  A
    client that is in no room leaves nothing. *)
Theorem leaveRoom_guest_leaves c :
  (∀ roomId me,
     currentRoom c = Some roomId → roomId ≠ "" →
     currentPlayer (world c) = Some me → cp_isHost me = false →
     leaveRoom c
     = (Resolved tt,
        mkClient
          (set_activeTimer None
             (set_currentPlayer None
                (set_presence (delete (cp_id me) (presence (world c)))
                   (set_players (delete (cp_id me) (players (world c)))
                      (world c)))))
          (authUser c) None None
          (match presenceInterval c with
           | Some h => delete h (intervals c)
           | None => intervals c
           end)
          (nextHandle c) (presenceInterval c)))
  ∧ (currentRoom c = None ∨ currentPlayer (world c) = None →
     leaveRoom c = (Resolved tt, c)).
Proof.
  split.
  - intros roomId me Hcode Hne Hme Hhost.
    destruct c as [w user code stored pings handle ping]. simpl in *.
    subst code. destruct roomId as [|ch roomId]; [done|].
    unfold leaveRoom, mbind at 1 2, Session_bind at 1 2, read, store, get.
    simpl. rewrite Hme, Hhost.
    unfold mbind, Session_bind, catching, store, deleteDoc, modify,
      clearSession, write, clearPresenceInterval, mbind, Session_bind,
      store, modify. simpl.
    by destruct ping.
  - intros Hnone.
    destruct c as [w user code stored pings handle ping]. simpl in *.
    unfold leaveRoom, mbind, Session_bind, read, store, get. simpl.
    destruct Hnone as [-> | ->]; simpl; [by destruct w|].
    destruct (truthy code); by destruct w.
Qed.

Lemma leaveRoom_guest_leaves_witness :
  let c := mkClient (exampleRoom guestSession VOTING fivePlayers [] [])
             (Some "u2") (Some "ABCD") (Some "ABCD") ∅ 0 None in
  currentRoom (leaveRoom c).2 = None.
Proof.
  intros c.
  destruct (leaveRoom_guest_leaves c) as [Hguest _].
  by rewrite (Hguest "ABCD" guestSession eq_refl) by done.
Defined.

(** X25. A user who joins a lobby as a guest and leaves again leaves the room
    as found: the same players, the same documents, no presence entry and
    no presence ping of the user; and the session is empty again. *)
Theorem joinRoom_leaveRoom_round_trip c roomCode playerName r userId :
  room (world c) = Some r → status r = "lobby" →
  authUser c = Some userId → roomCode ≠ "" →
  players (world c) !! userId = None →
  intervals c !! nextHandle c = None →
  let c1 := (joinRoom roomCode playerName false c).2 in
  let c2 := (leaveRoom c1).2 in
  (leaveRoom c1).1 = Resolved tt
  ∧ players (world c2) = players (world c)
  ∧ presence (world c2) = delete userId (presence (world c))
  ∧ room (world c2) = Some r
  ∧ currentPlayer (world c2) = None
  ∧ currentRoom c2 = None ∧ gnosia_room c2 = None
  ∧ intervals c2 = intervals c.
Proof.
  intros Hroom Hlobby Huser Hne Hnew Hhandle c1 c2. subst c2 c1.
  rewrite (joinRoom_joined c roomCode playerName false r userId)
    by (done || by left).
  rewrite Hnew. cbn [snd fmap option_fmap option_map default orb mbind
                     option_bind].
  set (c1 := mkClient _ _ _ _ _ _ _).
  destruct (leaveRoom_guest_leaves c1) as [Hguest _].
  rewrite (Hguest roomCode (mkCurrentPlayer userId playerName false None))
    by done.
  simpl. split; [done|].
  rewrite delete_insert_id by done.
  rewrite delete_insert_eq.
  rewrite (delete_insert_id (intervals c)) by done. done.
Qed.

Lemma joinRoom_leaveRoom_round_trip_witness :
  let c := mkClient
             (set_room (Some (mkRoom "u1" "lobby" 1))
                (exampleRoom hostSession LOBBY fivePlayers [] []))
             (Some "Z") None None ∅ 0 None in
  players (world (leaveRoom (joinRoom "ABCD" "Zoe" false c).2).2)
  = players (world c).
Proof.
  intros c.
  by apply (joinRoom_leaveRoom_round_trip c "ABCD" "Zoe"
              (mkRoom "u1" "lobby" 1) "Z").
Defined.
Lemma restoreSession_found c roomCode userId r d :
  truthy (gnosia_room c) = Some roomCode → truthy (authUser c) = Some userId →
  room (world c) = Some r → players (world c) !! userId = Some d →
  restoreSession c
  = (Resolved true,
     mkClient
       (set_presence (<[userId := (true, clock (world c))]> (presence (world c)))
          (set_currentPlayer
             (Some (mkCurrentPlayer userId (name d) (isHost d) (role d)))
             (world c)))
       (authUser c) (Some roomCode) (gnosia_room c)
       (<[nextHandle c := userId]> (intervals c)) (nextHandle c + 1)
       (Some (nextHandle c))).
Proof.
  destruct c as [w user code stored pings handle ping]. simpl.
  intros Hstored Huser Hroom Hplayer.
  unfold restoreSession, mbind at 1, Session_bind at 1, read. simpl.
  rewrite Hstored.
  unfold mbind at 1, Session_bind at 1. simpl. rewrite Huser.
  unfold catching, mbind, Session_bind, store, get, getDoc, write,
    setupPresence, modify, Date_now, get, mbind, M_bind. simpl.
  rewrite Hroom. simpl. by rewrite Hplayer.
Qed.

Lemma restoreSession_lost c roomCode userId :
  truthy (gnosia_room c) = Some roomCode → truthy (authUser c) = Some userId →
  room (world c) = None ∨ players (world c) !! userId = None →
  restoreSession c
  = (Resolved false,
     mkClient (set_currentPlayer None (world c)) (authUser c) None None
       (intervals c) (nextHandle c) (presenceInterval c)).
Proof.
  destruct c as [w user code stored pings handle ping]. simpl.
  intros Hstored Huser Hlost.
  unfold restoreSession, mbind at 1, Session_bind at 1, read. simpl.
  rewrite Hstored.
  unfold mbind at 1, Session_bind at 1. simpl. rewrite Huser.
  unfold catching, mbind, Session_bind, store, get, getDoc, write,
    clearSession, modify, mbind, Session_bind, store, write. simpl.
  destruct (room w) as [r|] eqn:Hroom; simpl; [|done].
  destruct Hlost as [?| ->]; done.
Qed.

(** X26. [restoreSession] answers true exactly when a room code is stored, a
    user is signed in, and the room and the user's player document both
    exist; neither the status of the room nor whether the player is alive
    is looked at.  It then takes the name, the host flag and the role of
    the session from the player document and starts the presence.  When
    the room or the player document is missing it clears the session,
    the stored room code included; without a stored code or a signed-in
    user it changes nothing. *)
Theorem restoreSession_restores c :
  (truthy (gnosia_room c) = None ∨ truthy (authUser c) = None →
   restoreSession c = (Resolved false, c))
  ∧ (∀ roomCode userId,
       truthy (gnosia_room c) = Some roomCode →
       truthy (authUser c) = Some userId →
       let c' := (restoreSession c).2 in
       (∀ r d, room (world c) = Some r →
               players (world c) !! userId = Some d →
          (restoreSession c).1 = Resolved true
          ∧ currentRoom c' = Some roomCode
          ∧ currentPlayer (world c')
            = Some (mkCurrentPlayer userId (name d) (isHost d) (role d))
          ∧ presence (world c') !! userId = Some (true, clock (world c))
          ∧ players (world c') = players (world c)
          ∧ gnosia_room c' = gnosia_room c)
       ∧ (room (world c) = None ∨ players (world c) !! userId = None →
          (restoreSession c).1 = Resolved false
          ∧ currentRoom c' = None ∧ gnosia_room c' = None
          ∧ currentPlayer (world c') = None
          ∧ players (world c') = players (world c)
          ∧ presence (world c') = presence (world c))).
Proof.
  split.
  - destruct c as [w user code stored pings handle ping]. simpl.
    intros Hnone.
    unfold restoreSession, mbind at 1, Session_bind at 1, read. simpl.
    destruct (truthy stored) as [roomCode|] eqn:Hstored; [|done].
    destruct Hnone as [?|Huser]; [done|].
    unfold mbind at 1, Session_bind at 1. simpl. by rewrite Huser.
  - intros roomCode userId Hstored Huser c'. subst c'. split.
    + intros r d Hroom Hplayer.
      rewrite (restoreSession_found c roomCode userId r d) by done. simpl.
      by rewrite lookup_insert_eq.
    + intros Hlost.
      by rewrite (restoreSession_lost c roomCode userId).
Qed.

Lemma restoreSession_restores_witness :
  let c := mkClient
             (set_currentPlayer None
                (exampleRoom hostSession VOTING fivePlayers [] []))
             (Some "B") None (Some "ABCD") ∅ 0 None in
  currentPlayer (world (restoreSession c).2)
  = Some (mkCurrentPlayer "B" "Ben" false (Some "impostor")).
Proof.
  intros c.
  destruct (restoreSession_restores c) as [_ Hrestore].
  destruct (Hrestore "ABCD" "B" eq_refl eq_refl) as [Hfound _].
  by destruct (Hfound (mkRoom "u1" "ingame" 2)
                 (player "Ben" (Some "impostor") true) eq_refl eq_refl)
    as (_ & _ & -> & _).
Defined.

(** X27. [getCurrentRole] answers with the role kept in the session whenever
    there is one, whatever the player document holds by now; only a
    session without a role reads the document, and answers null when the
    document is missing. *)
Theorem getCurrentRole_prefers_the_session c me :
  currentPlayer (world c) = Some me →
  (∀ ro : string, cp_role me = Some ro → ro ≠ "" →
     getCurrentRole c = (Resolved (Some ro), c))
  ∧ (∀ userId, truthy (cp_role me) = None → authUser c = Some userId →
       getCurrentRole c = (Resolved (players (world c) !! userId ≫= role), c)).
Proof.
  destruct c as [w user code stored pings handle ping]. simpl.
  intros Hme. split.
  - intros ro Hr Hne.
    unfold getCurrentRole, mbind at 1, Session_bind at 1, store, get. simpl.
    rewrite Hme. simpl. rewrite Hr.
    destruct ro as [|ch ro]; [done|]. simpl. by destruct w.
  - intros userId Hr ->.
    unfold getCurrentRole, mbind at 1, Session_bind at 1, store, get. simpl.
    rewrite Hme. simpl. rewrite Hr.
    unfold mbind, Session_bind, read, store, docRef, getDoc, get. simpl.
    destruct (players w !! userId); by destruct w.
Qed.

Lemma getCurrentRole_prefers_the_session_witness :
  let c := mkClient
             (set_currentPlayer
                (Some (mkCurrentPlayer "B" "Ben" false (Some "doctor")))
                (exampleRoom hostSession VOTING fivePlayers [] []))
             (Some "B") (Some "ABCD") (Some "ABCD") ∅ 0 None in
  players (world c) !! "B" ≫= role = Some "impostor"
  ∧ (getCurrentRole c).1 = Resolved (Some "doctor").
Proof.
  intros c. split; [reflexivity|].
  destruct (getCurrentRole_prefers_the_session c
              (mkCurrentPlayer "B" "Ben" false (Some "doctor")) eq_refl)
    as [Hcached _].
  by rewrite (Hcached "doctor").
Defined.
End session.

Section roomCode.
Implicit Types (w : World) (code : string).

Lemma length_append (s1 s2 : string) :
  String.length (s1 +:+ s2) = String.length s1 + String.length s2.
Proof. induction s1 as [|c s1 IH]; simpl; [done|]. by rewrite IH. Qed.

Lemma allUpper_append (s1 s2 : string) :
  allUpper (s1 +:+ s2) = allUpper s1 && allUpper s2.
Proof.
  induction s1 as [|c s1 IH]; simpl; [done|].
  by rewrite IH, andb_assoc.
Qed.

Lemma append_assoc (s1 s2 s3 : string) :
  (s1 +:+ s2) +:+ s3 = s1 +:+ (s2 +:+ s3).
Proof.
  induction s1 as [|c s1 IH]; [done|].
  change (String c ((s1 +:+ s2) +:+ s3) = String c (s1 +:+ (s2 +:+ s3))).
  by rewrite IH.
Qed.

Lemma append_empty_r (s : string) : s +:+ "" = s.
Proof.
  induction s as [|c s IH]; [done|].
  change (String c (s +:+ "") = String c s). by rewrite IH.
Qed.

Lemma charAt_letter i :
  i < String.length chars →
  String.length (charAt i chars) = 1 ∧ allUpper (charAt i chars) = true.
Proof.
  intros Hi. simpl in Hi.
  do 26 (destruct i as [|i]; [by vm_compute|]). lia.
Qed.

Lemma generateFrom_letters n code w :
  ∃ suffix,
    generateFrom n code w
    = (Returned (code +:+ suffix), set_entropy (drop n (entropy w)) w)
    ∧ String.length suffix = n ∧ allUpper suffix = true.
Proof.
  revert code w. induction n as [|n IH]; intros code w.
  - exists "". split; [|done].
    by rewrite drop_0, set_entropy_id, append_empty_r.
  - cbn [generateFrom]. unfold mbind, M_bind. rewrite randomBelow_draw.
    set (i := default 0 _).
    assert (i < String.length chars) as Hi.
    { subst i. destruct (head (entropy w)) as [x|];
        cbn [fmap option_fmap option_map default]; [|simpl; lia].
      by apply Nat.mod_upper_bound. }
    destruct (charAt_letter i Hi) as [Hlen Hupper].
    destruct (IH (code +:+ charAt i chars)
                 (set_entropy (drop 1 (entropy w)) w))
      as (suffix & -> & Hlen' & Hupper').
    exists (charAt i chars +:+ suffix). split; [|split].
    + simpl. by rewrite drop_drop, append_assoc.
    + rewrite length_append. lia.
    + by rewrite allUpper_append, Hupper, Hupper'.
Qed.

(** X28. [generateRoomCode] always returns four capital letters, whatever
    [Math.random] yields, and takes four draws for them. *)
Theorem generateRoomCode_four_letters w :
  ∃ code,
    generateRoomCode w
    = (Returned code, set_entropy (drop 4 (entropy w)) w)
    ∧ String.length code = 4 ∧ allUpper code = true.
Proof.
  destruct (generateFrom_letters 4 "" w) as (suffix & Heq & Hlen & Hupper).
  exists suffix. split; [exact Heq|done].
Qed.
End roomCode.


(** * What the listener renders *)

Section listener.
Implicit Types (l : Listener) (e : Event) (events : list Event)
  (state : GameState).

Lemma adjacentDistinct_snoc vs v :
  adjacentDistinct vs → (∀ a, last vs = Some a → a ≠ v) →
  adjacentDistinct (vs ++ [v]).
Proof.
  intros Hvs Hlast i a b Ha Hb.
  destruct (decide (i + 1 < length vs)) as [Hlt|Hge].
  - rewrite lookup_app_l in Ha, Hb by lia. by eapply Hvs.
  - assert (i + 1 = length vs) as Hi.
    { apply lookup_lt_Some in Hb. rewrite length_app in Hb. simpl in Hb. lia. }
    rewrite lookup_app_l in Ha by lia.
    rewrite lookup_app_r, Hi, Nat.sub_diag in Hb by lia.
    injection Hb as <-. apply Hlast. rewrite last_lookup.
    by replace (pred (length vs)) with i by lia.
Qed.

(** What one render keeps. *)
Lemma renderIfNew_inv state l :
  localVersion l = lastRendered l →
  adjacentDistinct (version <$> rendered l) →
  let l' := renderIfNew state l in
  localVersion l' = lastRendered l'
  ∧ adjacentDistinct (version <$> rendered l')
  ∧ lastSnapshotTime l' = lastSnapshotTime l
  ∧ (rendered l' = rendered l ∨ rendered l' = rendered l ++ [state]).
Proof.
  intros Hlocal Hdistinct. unfold renderIfNew. case_bool_decide as Hnew.
  - simpl. split; [|split; [|split; [done|by right]]].
    + unfold lastRendered. simpl. by rewrite last_snoc.
    + rewrite fmap_app. apply adjacentDistinct_snoc; [done|].
      intros a Ha Heq. apply Hnew. rewrite Hlocal. unfold lastRendered.
      rewrite fmap_last in Ha.
      destruct (last (rendered l)) as [g|]; [|done].
      simpl in *. injection Ha as <-. by rewrite Heq.
  - simpl. split; [done|]. split; [done|]. split; [done|]. by left.
Qed.

Lemma deliver_inv e l :
  localVersion l = lastRendered l →
  adjacentDistinct (version <$> rendered l) →
  localVersion (deliver l e) = lastRendered (deliver l e)
  ∧ adjacentDistinct (version <$> rendered (deliver l e))
  ∧ (rendered (deliver l e) = rendered l
     ∨ ∃ state, stateOf e = Some state
                ∧ rendered (deliver l e) = rendered l ++ [state]).
Proof.
  intros Hlocal Hdistinct. destruct e as [now [state|]|now [state|]]; simpl.
  - unfold onSnapshot.
    destruct (renderIfNew_inv state
                (mkListener (localVersion l) now (rendered l)))
      as (Hl & Hd & _ & Hr); [done..|].
    split; [done|]. split; [done|].
    destruct Hr as [Hr|Hr]; [by left|right]. by exists state.
  - unfold onSnapshot. split; [done|]. split; [done|]. by left.
  - unfold guardTick. case_bool_decide; [|by repeat split; try left].
    destruct (renderIfNew_inv state l) as (Hl & Hd & _ & Hr); [done..|].
    simpl. split; [done|]. split; [done|].
    destruct Hr as [Hr|Hr]; [by left|right]. by exists state.
  - unfold guardTick. case_bool_decide; simpl; by repeat split; try left.
Qed.

Lemma replay_inv events l :
  localVersion l = lastRendered l →
  adjacentDistinct (version <$> rendered l) →
  localVersion (replay events l) = lastRendered (replay events l)
  ∧ adjacentDistinct (version <$> rendered (replay events l))
  ∧ ∃ more, rendered (replay events l) = rendered l ++ more
            ∧ more `sublist_of` omap stateOf events.
Proof.
  revert l. induction events as [|e events IH]; intros l Hlocal Hdistinct.
  - simpl. split; [done|]. split; [done|]. exists []. by rewrite app_nil_r.
  - destruct (deliver_inv e l Hlocal Hdistinct) as (Hl & Hd & Hr).
    destruct (IH (deliver l e) Hl Hd) as (Hl' & Hd' & more & Hmore & Hsub).
    unfold replay in *. cbn [foldl]. split; [done|]. split; [done|].
    destruct Hr as [Hr|(state & Hstate & Hr)].
    + exists more. rewrite Hmore, Hr. split; [done|].
      simpl. destruct (stateOf e); [by apply sublist_cons|done].
    + exists (state :: more). rewrite Hmore, Hr, <- app_assoc.
      split; [done|]. simpl. rewrite Hstate. by apply sublist_skip.
Qed.

(** X29. Whatever snapshots and guard ticks reach a listener, in whatever
    order: it has rendered states that were delivered, in the order of
    their delivery, no two in a row with the same version, and the version
    it holds is the version of the state it rendered last, or -1 when it
    has rendered nothing. *)
Theorem listener_renders_version_changes events now :
  let l := replay events (subscribed now) in
  localVersion l = lastRendered l
  ∧ adjacentDistinct (version <$> rendered l)
  ∧ rendered l `sublist_of` omap stateOf events.
Proof.
  intros l.
  destruct (replay_inv events (subscribed now)) as (Hl & Hd & more & Hr & Hsub).
  - done.
  - by intros i a b Ha.
  - split; [done|]. split; [done|]. subst l. by rewrite Hr.
Qed.

(** The listener compares versions and nothing else.  A state with the
    version it holds is not rendered, even in another phase; a state with
    another version is rendered, also when the version is lower, as after
    a reset.  The guard does nothing within three seconds of the last
    snapshot or of its own last run, and after that renders by the same
    comparison and starts its three seconds anew, with or without a
    document. *)
Theorem listener_compares_versions_only l now :
  (∀ state, Z.of_nat (version state) = localVersion l →
     rendered (onSnapshot now (Some state) l) = rendered l
     ∧ localVersion (onSnapshot now (Some state) l) = localVersion l)
  ∧ (∀ state, Z.of_nat (version state) ≠ localVersion l →
       rendered (onSnapshot now (Some state) l) = rendered l ++ [state]
       ∧ localVersion (onSnapshot now (Some state) l)
         = Z.of_nat (version state))
  ∧ (∀ snap, lastSnapshotTime (onSnapshot now snap l) = now)
  ∧ (∀ snap, (now - lastSnapshotTime l ≤ 3000)%Z → guardTick now snap l = l)
  ∧ (∀ snap, (3000 < now - lastSnapshotTime l)%Z →
       guardTick now snap l = onSnapshot now snap l).
Proof.
  split; [|split; [|split; [|split]]].
  - intros state Hsame. unfold onSnapshot, renderIfNew. simpl.
    by rewrite bool_decide_eq_false_2 by (by intros ?).
  - intros state Hnew. unfold onSnapshot, renderIfNew. simpl.
    by rewrite bool_decide_eq_true_2.
  - intros [state|]; unfold onSnapshot, renderIfNew; simpl; [|done].
    by case_bool_decide.
  - intros snap Hsoon. unfold guardTick.
    by rewrite bool_decide_eq_false_2 by lia.
  - intros snap Hlate. unfold guardTick, onSnapshot.
    rewrite bool_decide_eq_true_2 by done.
    destruct snap as [state|]; [|done].
    unfold renderIfNew. simpl. by case_bool_decide.
Qed.

Lemma listener_compares_versions_only_witness :
  let l := mkListener 4 1000 [] in
  let state := mkGameState LOBBY 0 (None, 2000%Z) 2000%Z "u1" noPayload in
  rendered (guardTick 5000 (Some state) l) = [state].
Proof.
  intros l state.
  destruct (listener_compares_versions_only l 5000)
    as (_ & Hnew & _ & _ & Hguard).
  rewrite (Hguard (Some state)) by (simpl; lia).
  by destruct (Hnew state) as [-> _].
Defined.

(** X30. Versions repeat from one game to the next: after the host's reset and
    start of a new game the record is at version 1 in ROLE_REVEAL,
    whatever version the room had reached, and a listener that still holds
    version 1 from the game before does not render it. *)
Theorem versions_repeat_after_reset w me s r l now :
  currentPlayer w = Some me → cp_isHost me = true →
  settings w = Some s → room w = Some r →
  localVersion l = 1%Z →
  let w' := run startGame (run resetGameState w) in
  versionOf w' = 1
  ∧ (phase <$> gameState w') = Some ROLE_REVEAL
  ∧ rendered (onSnapshot now (gameState w') l) = rendered l.
Proof.
  intros Hme Hhost Hs Hroom Hlocal w'.
  assert (run resetGameState w
          = mkWorld (Some me) (activeTimer w) (Some (mkRoom (hostId r) "lobby" 1))
              (resetPlayer <$> players w) (settings w)
              (Some (mkGameState LOBBY 0 (None, clock w) (clock w) (cp_id me)
                       noPayload))
              ∅ ∅ ∅ ∅ None (presence w) (clock w) (entropy w)) as Hreset.
  { unfold run. by rewrite (resetGameState_host w me r). }
  destruct (startGame_dealing (run resetGameState w) me s)
    as (shuffled & roster & _ & _ & Hstart); [by rewrite ?Hreset..|].
  assert (gameState w'
          = Some (mkGameState ROLE_REVEAL 1 (Some ROLE_REVEAL, clock w)
                    (clock w) (cp_id me) noPayload)) as Hg.
  { subst w'. unfold run at 1. rewrite Hstart, Hreset.
    unfold mbind, M_bind, updateRoom. simpl.
    by rewrite (setState_host _ me). }
  split; [by unfold versionOf; rewrite Hg|]. split; [by rewrite Hg|].
  rewrite Hg. unfold onSnapshot, renderIfNew. simpl.
  by rewrite bool_decide_eq_false_2 by (rewrite Hlocal; by intros ?).
Qed.

Lemma versions_repeat_after_reset_witness :
  let w := exampleRoom hostSession GAME_RESULT fivePlayers [] [] in
  versionOf w = 3 ∧ versionOf (run startGame (run resetGameState w)) = 1.
Proof.
  intros w. split; [reflexivity|].
  by apply (versions_repeat_after_reset w hostSession defaultSettings
              (mkRoom "u1" "ingame" 2) (mkListener 1 0 []) 0%Z).
Defined.
End listener.
